(** * Connection-profile persistence: keyfile writer, nmmeta sidecars,
      permission checks, the netplan interface-name fixup and the VPN data map.

    A shallow embedding of
      - [src/core/settings/plugins/keyfile/nms-keyfile-writer.c],
      - [nms-keyfile-utils.c] (the sidecar codec, the permission validator
        and [_fix_netplan_interface_name]),
      - [src/libnm-core-impl/nm-setting-vpn.c] (the data-item accessors),
    together with the properties that the specification states about them.

    C strings are [string]; a nullable [const char *] is an [option string].
    The file system is a finite map from absolute path names to nodes.  GLib,
    libc and libnetplan are collaborators: where their behaviour is fixed by
    their documentation they are written out, otherwise they are fields of an
    interface record that the development is parametric in. *)

From Stdlib Require Import ZArith Ascii String List Bool Lia.
From stdpp Require Import base tactics option list gmap strings pretty.

Local Open Scope string_scope.
Local Open Scope Z_scope.

(** * Part I: the model *)

(** ** C string helpers *)

(** [strrchr(s, '/')] followed by [&p[1]]: the text after the last slash,
    [None] when [s] has no slash. *)
Fixpoint after_last_slash (s : string) : option string :=
  match s with
  | EmptyString => None
  | String c r =>
      match after_last_slash r with
      | Some t => Some t
      | None => if Ascii.eqb c "/" then Some r else None
      end
  end.

(** The text after the last slash, or all of [s]. *)
Definition base_name (s : string) : string := default s (after_last_slash s).

(** [s[strlen(s) - 1]]. *)
Fixpoint last_char (s : string) : option ascii :=
  match s with
  | EmptyString => None
  | String c EmptyString => Some c
  | String _ r => last_char r
  end.

(** [g_str_has_prefix(s, p)]. *)
Definition g_str_has_prefix (s p : string) : bool := String.prefix p s.

(** [g_str_has_suffix(s, suffix)]. *)
Definition g_str_has_suffix (s suffix : string) : bool :=
  (String.length suffix <=? String.length s)%nat
  && String.eqb (substring (String.length s - String.length suffix)
                           (String.length suffix) s) suffix.

(** [strstr(s, sub) != NULL]. *)
Fixpoint strstr (s sub : string) : bool :=
  String.prefix sub s ||
  match s with
  | EmptyString => false
  | String _ r => strstr r sub
  end.

(** [s[strlen(s) - 1] = '\0']: cut the last character off. *)
Fixpoint drop_last (s : string) : string :=
  match s with
  | EmptyString => EmptyString
  | String c EmptyString => EmptyString
  | String c r => String c (drop_last r)
  end.

(** The run of [/] at the start of [s]. *)
Fixpoint leading_slashes (s : string) : string :=
  match s with
  | String c r => if Ascii.eqb c "/" then String c (leading_slashes r) else EmptyString
  | EmptyString => EmptyString
  end.

Fixpoint strip_leading_slashes (s : string) : string :=
  match s with
  | String c r => if Ascii.eqb c "/" then strip_leading_slashes r else s
  | EmptyString => EmptyString
  end.

(** [s] without the run of [/] at its end. *)
Fixpoint strip_trailing_slashes (s : string) : string :=
  match s with
  | EmptyString => EmptyString
  | String c r =>
      match strip_trailing_slashes r with
      | EmptyString => if Ascii.eqb c "/" then EmptyString else String c EmptyString
      | r' => String c r'
      end
  end.

(** The run of [/] at the end of [s]. *)
Fixpoint trailing_slashes (s : string) : string :=
  match s with
  | EmptyString => EmptyString
  | String c r =>
      match strip_trailing_slashes s with
      | EmptyString => s
      | _ => trailing_slashes r
      end
  end.

Definition nonempty (s : string) : bool :=
  match s with EmptyString => false | _ => true end.

Fixpoint join_slash (l : list string) : string :=
  match l with
  | [] => EmptyString
  | [x] => x
  | x :: r => x +:+ "/" +:+ join_slash r
  end.

(** GLib's [g_build_filename] / [g_build_path("/", ...)]: empty elements are
    skipped, the separators between two elements collapse to one, the
    leading separators of the first element and the trailing ones of the
    last element are kept, and a single element is returned as it is. *)
Definition g_build_filename (elements : list string) : string :=
  match filter (λ e, nonempty e = true) elements with
  | [] => EmptyString
  | [e] => e
  | first :: rest =>
      let middle :=
        filter (λ e, nonempty e = true)
               (map (λ e, strip_trailing_slashes (strip_leading_slashes e)) (first :: rest)) in
      leading_slashes first +:+ join_slash middle +:+ trailing_slashes (List.last rest first)
  end.

(** [g_path_get_dirname], for the absolute paths of this development. *)
Fixpoint dirname_go (s : string) : option string :=
  match s with
  | EmptyString => None
  | String c r =>
      match dirname_go r with
      | Some d => Some (String c d)
      | None => if Ascii.eqb c "/" then Some EmptyString else None
      end
  end.

Definition g_path_get_dirname (p : string) : string :=
  match dirname_go p with
  | Some d => match strip_trailing_slashes d with EmptyString => "/" | d' => d' end
  | None => "."
  end.

(** ** Files: [struct stat], inodes and the file system *)

Definition S_IFMT : Z := 61440.   (* 0170000 *)
Definition S_IFDIR : Z := 16384.  (* 0040000 *)
Definition S_IFREG : Z := 32768.  (* 0100000 *)
Definition S_IFLNK : Z := 40960.  (* 0120000 *)

Definition S_ISREG (m : Z) : bool := Z.land m S_IFMT =? S_IFREG.
Definition S_ISLNK (m : Z) : bool := Z.land m S_IFMT =? S_IFLNK.
Definition S_ISDIR (m : Z) : bool := Z.land m S_IFMT =? S_IFDIR.

Definition ENOENT : Z := 2.
Definition EEXIST : Z := 17.
Definition ENOTDIR : Z := 20.
Definition EISDIR : Z := 21.

(** The fields of [struct stat] that the code looks at. *)
Record stat := { st_mode : Z; st_uid : Z; st_gid : Z }.

(** A file system object: what [lstat] reports, and the bytes of a regular
    file or the target of a symbolic link. *)
Record inode := { i_stat : stat; i_data : string }.

#[global] Instance stat_eq_dec : EqDecision stat.
Proof. solve_decision. Defined.

#[global] Instance inode_eq_dec : EqDecision inode.
Proof. solve_decision. Defined.

(** The file system maps a path name to the object stored under that name.
    Path names are compared literally: [.], [..] and symbolic links in the
    directory part of a name are outside the model. *)
Abbreviation filesystem := (gmap string inode).

Definition regular_file (content : string) (perm uid gid : Z) : inode :=
  {| i_stat := {| st_mode := Z.lor S_IFREG perm; st_uid := uid; st_gid := gid |};
     i_data := content |}.

Definition symbolic_link (target : string) (uid gid : Z) : inode :=
  {| i_stat := {| st_mode := Z.lor S_IFLNK 511; st_uid := uid; st_gid := gid |};
     i_data := target |}.

Definition directory (perm uid gid : Z) : inode :=
  {| i_stat := {| st_mode := Z.lor S_IFDIR perm; st_uid := uid; st_gid := gid |};
     i_data := EmptyString |}.

(** The object after [chown]. *)
Definition chowned (uid gid : Z) (n : inode) : inode :=
  {| i_stat := {| st_mode := st_mode (i_stat n); st_uid := uid; st_gid := gid |};
     i_data := i_data n |}.

Definition lstat (fs : filesystem) (p : string) : option stat := i_stat <$> fs !! p.

(** Where the link stored at [link_file] points: an absolute target is taken
    as it is, a relative one is read from the link's directory
    ([nm_utils_read_link_absolute] does the same). *)
Definition link_destination (link_file target : string) : string :=
  if g_str_has_prefix target "/" then target
  else g_build_filename [g_path_get_dirname link_file; target].

(** Linux follows at most 40 links in one resolution. *)
Definition MAXSYMLINKS : nat := 40.

(** The name reached from [p] after following symbolic links. *)
Fixpoint resolve_links (fuel : nat) (fs : filesystem) (p : string) : option string :=
  match fuel with
  | O => None
  | S k =>
      match fs !! p with
      | None => None
      | Some n =>
          if S_ISLNK (st_mode (i_stat n))
          then resolve_links k fs (link_destination p (i_data n))
          else Some p
      end
  end.

Definition resolve (fs : filesystem) (p : string) : option string :=
  resolve_links (S MAXSYMLINKS) fs p.

(** [stat(2)]: like [lstat] but through symbolic links. *)
Definition stat_follow (fs : filesystem) (p : string) : option stat :=
  q ← resolve fs p; lstat fs q.

(** [g_file_test(p, G_FILE_TEST_EXISTS)]: GLib asks [access(2)], which
    follows links, so a dangling link does not exist. *)
Definition g_file_test_exists (fs : filesystem) (p : string) : bool :=
  bool_decide (is_Some (stat_follow fs p)).

(** [g_file_test(p, G_FILE_TEST_IS_DIR)]. *)
Definition g_file_test_is_dir (fs : filesystem) (p : string) : bool :=
  match stat_follow fs p with
  | Some st => S_ISDIR (st_mode st)
  | None => false
  end.

(** [g_file_test(p, G_FILE_TEST_EXISTS | G_FILE_TEST_IS_REGULAR)]: true when
    either test is. *)
Definition g_file_test_exists_or_regular (fs : filesystem) (p : string) : bool :=
  g_file_test_exists fs p
  || match stat_follow fs p with Some st => S_ISREG (st_mode st) | None => false end.

(** [g_file_get_contents]: the bytes of the regular file that [p] names. *)
Definition g_file_get_contents (fs : filesystem) (p : string) : option string :=
  q ← resolve fs p;
  n ← fs !! q;
  if S_ISREG (st_mode (i_stat n)) then Some (i_data n) else None.

(** ** The operating system *)

Inductive syscall :=
| SYS_unlink | SYS_rename | SYS_symlink | SYS_chown | SYS_mkdir | SYS_write.

(** The reasons for which the kernel refuses a call that the file-system
    map cannot see: permissions, a read-only or full medium, an I/O error.
    The errors that follow from the map itself ([ENOENT], [EEXIST],
    [EISDIR], [ENOTDIR]) are not among them. *)
Inductive os_refusal := EPERM | EIO | EACCES | ENOSPC | EROFS.

Definition errno_of (r : os_refusal) : Z :=
  match r with
  | EPERM => 1
  | EIO => 5
  | EACCES => 13
  | ENOSPC => 28
  | EROFS => 30
  end.

(** What the model does not decide.  [os_fault call path] says whether, and
    why, the kernel refuses [call] on [path].  [glob] is libc's: it sees the
    names that exist and returns its status and [gl_pathv].  [process_umask]
    is the file mode creation mask that the process has when the writer
    runs. *)
Class Os := {
  os_fault : syscall → string → option os_refusal;
  geteuid : Z;
  getegid : Z;
  process_umask : Z;
  glob : string → gset string → Z * list string;
}.

Definition GLOB_NOMATCH : Z := 3.

(** [umask(2)]: the process gets the mask [mask], and the mask that it had
    is returned.  The code passes 077 and what an earlier call returned, so
    the kernel's [mask & 0777] is left out. *)
Definition umask (mask : Z) (current : Z) : Z * Z := (mask, current).

(** The mode of a file that is created with [mode] under the mask [mask]. *)
Definition creation_mode (mode mask : Z) : Z := Z.land mode (Z.lnot mask).

(** The prefixes of [p] that end where a component ends: the names that a
    walk down to [p] visits, and that [g_mkdir_with_parents] creates. *)
Fixpoint path_prefixes_go (pre : string) (in_component : bool) (s : string) : list string :=
  match s with
  | EmptyString => if in_component then [pre] else []
  | String c r =>
      if Ascii.eqb c "/"
      then (if in_component then [pre] else [])
             ++ path_prefixes_go (pre +:+ String c EmptyString) false r
      else path_prefixes_go (pre +:+ String c EmptyString) true r
  end.

Definition path_prefixes (p : string) : list string :=
  path_prefixes_go EmptyString false p.

(** The walk down a path: [ENOENT] at the first name that is not there,
    [ENOTDIR] at the first that is no directory (a symbolic link counts as
    what it leads to). *)
Fixpoint missing_directory (fs : filesystem) (names : list string) : option Z :=
  match names with
  | [] => None
  | fn :: rest =>
      match stat_follow fs fn with
      | None => Some ENOENT
      | Some st => if S_ISDIR (st_mode st) then missing_directory fs rest else Some ENOTDIR
      end
  end.

(** A name can be created only in a directory: the kernel walks down the
    directory part of [p].  The root and the working directory are always
    there. *)
Definition parent_error (fs : filesystem) (p : string) : option Z :=
  let dir := g_path_get_dirname p in
  if bool_decide (dir = ".") then None else missing_directory fs (path_prefixes dir).

Section os_calls.
Context `{!Os}.

(** Each call returns the new file system and its [errno], 0 for success. *)
Definition unlink (p : string) (fs : filesystem) : filesystem * Z :=
  match os_fault SYS_unlink p with
  | Some r => (fs, errno_of r)
  | None =>
    match fs !! p with
    | None => (fs, ENOENT)
    | Some n => if S_ISDIR (st_mode (i_stat n)) then (fs, EISDIR) else (delete p fs, 0)
    end
  end.

Definition symlink (target linkpath : string) (fs : filesystem) : filesystem * Z :=
  match os_fault SYS_symlink linkpath with
  | Some r => (fs, errno_of r)
  | None =>
    match parent_error fs linkpath with
    | Some e => (fs, e)
    | None =>
      match fs !! linkpath with
      | Some _ => (fs, EEXIST)
      | None => (<[linkpath := symbolic_link target geteuid getegid]> fs, 0)
      end
    end
  end.

Definition rename (oldpath newpath : string) (fs : filesystem) : filesystem * Z :=
  match os_fault SYS_rename newpath with
  | Some r => (fs, errno_of r)
  | None =>
    match fs !! oldpath with
    | None => (fs, ENOENT)
    | Some n =>
        if bool_decide (oldpath = newpath) then (fs, 0)
        else match parent_error fs newpath with
             | Some e => (fs, e)
             | None =>
               match fs !! newpath with
               | Some m =>
                   if S_ISDIR (st_mode (i_stat m)) && negb (S_ISDIR (st_mode (i_stat n)))
                   then (fs, EISDIR)
                   else if negb (S_ISDIR (st_mode (i_stat m))) && S_ISDIR (st_mode (i_stat n))
                   then (fs, ENOTDIR)
                   else (<[newpath := n]> (delete oldpath fs), 0)
               | None => (<[newpath := n]> (delete oldpath fs), 0)
               end
             end
    end
  end.

(** [chown(2)] follows symbolic links. *)
Definition chown (p : string) (uid gid : Z) (fs : filesystem) : filesystem * Z :=
  match os_fault SYS_chown p with
  | Some r => (fs, errno_of r)
  | None =>
    match resolve fs p with
    | None => (fs, ENOENT)
    | Some q => (alter (chowned uid gid) q fs, 0)
    end
  end.

Definition mkdir (p : string) (perm : Z) (fs : filesystem) : filesystem * Z :=
  match os_fault SYS_mkdir p with
  | Some r => (fs, errno_of r)
  | None =>
    match parent_error fs p with
    | Some e => (fs, e)
    | None =>
      match fs !! p with
      | Some _ => (fs, EEXIST)
      | None => (<[p := directory perm geteuid getegid]> fs, 0)
      end
    end
  end.

(** Modelled from the spec: [nm_utils_file_set_contents] (libnm-glib-aux, not
    under src/) and GLib's [g_file_set_contents] write atomically, the bytes
    go to a temporary file in the directory of [p], which is then renamed
    over [p].  Either [p] is a regular file with the new content and the
    given mode, owned by the process, or the call fails and [p] is as it
    was; it fails when the directory of [p] is not there. *)
Definition file_set_contents (p content : string) (perm : Z) (fs : filesystem)
  : filesystem * Z :=
  match os_fault SYS_write p with
  | Some r => (fs, errno_of r)
  | None =>
    match parent_error fs p with
    | Some e => (fs, e)
    | None =>
      match fs !! p with
      | Some n =>
          if S_ISDIR (st_mode (i_stat n)) then (fs, EISDIR)
          else (<[p := regular_file content perm geteuid getegid]> fs, 0)
      | None => (<[p := regular_file content perm geteuid getegid]> fs, 0)
      end
    end
  end.

(** [g_mkdir_with_parents]: walk down, create what is missing, stop at the
    first component that cannot be created or is not a directory. *)
Fixpoint mkdir_each (names : list string) (perm : Z) (fs : filesystem) : filesystem * Z :=
  match names with
  | [] => (fs, 0)
  | fn :: rest =>
      if negb (g_file_test_exists fs fn) then
        let '(fs', e) := mkdir fn perm fs in
        if negb (e =? 0) && negb (e =? EEXIST) then (fs', e) else mkdir_each rest perm fs'
      else if negb (g_file_test_is_dir fs fn) then (fs, ENOTDIR)
      else mkdir_each rest perm fs
  end.

Definition g_mkdir_with_parents (p : string) (perm : Z) (fs : filesystem) : filesystem * Z :=
  mkdir_each (path_prefixes p) perm fs.

(** [g_file_copy(from, to, G_FILE_COPY_OVERWRITE, ...)] of a regular file:
    the content and the permission bits are copied.  The caller ignores its
    result. *)
Definition g_file_copy (from to : string) (fs : filesystem) : filesystem :=
  match q ← resolve fs from; fs !! q with
  | Some n =>
      if S_ISREG (st_mode (i_stat n)) && negb (bool_decide (from = to))
      then (file_set_contents to (i_data n) (Z.land (st_mode (i_stat n)) 4095) fs).1
      else fs
  | None => fs
  end.

End os_calls.

(** ** Collaborators from libnm and GLib *)

(** Helpers of libnm-glib-aux, libnm-core and the daemon that the keyfile
    plugin calls.  [nm_utils_file_is_in_path] returns the file name part when
    the file lies directly in the directory; [nm_keyfile_utils_create_filename]
    escapes a connection id into a file name. *)
Class Libnm := {
  nm_uuid_is_normalized : string → bool;
  nm_utils_get_nm_uid : Z;
  nm_utils_get_nm_gid : Z;
  nm_utils_get_testing : Z;
  NM_UTILS_TEST_NO_KEYFILE_OWNER_CHECK : Z;
  nm_utils_file_is_in_path : string → string → option string;
  nm_keyfile_utils_create_filename : string → bool → string;
  nm_keyfile_detect_unqualified_path_scheme : string → string → option string;
}.

(** Modelled from the spec: [NM_ERRNO_NATIVE] is a macro of nm-errno.h, which
    is not under src/.  The sidecar writer "conveys a signed OS error code":
    the macro hands the [errno] of the failed call back as it is. *)
Definition NM_ERRNO_NATIVE (errsv : Z) : Z := errsv.

(** [NM_FLAGS_HAS(flags, check)]. *)
Definition NM_FLAGS_HAS (flags check : Z) : bool := negb (Z.land flags check =? 0).

Inductive GKeyFileFlags := G_KEY_FILE_NONE | G_KEY_FILE_KEEP_COMMENTS.

(** GLib's key file object and its text codec.  Loading returns the object
    as far as it was parsed and whether parsing succeeded. *)
Class GKeyFileApi := {
  GKeyFile : Type;
  g_key_file_new : GKeyFile;
  g_key_file_load_from_data : GKeyFileFlags → string → GKeyFile * bool;
  g_key_file_to_data : GKeyFile → option string;
  g_key_file_get_string : GKeyFile → string → string → option string;
  g_key_file_set_string : GKeyFile → string → string → string → GKeyFile;
  g_key_file_set_boolean : GKeyFile → string → string → bool → GKeyFile;
  g_key_file_remove_key : GKeyFile → string → string → GKeyFile;
}.

Section keyfile_files.
Context `{!Os, !GKeyFileApi}.

(** [g_key_file_load_from_file]: an unreadable file leaves the object empty. *)
Definition g_key_file_load_from_file (flags : GKeyFileFlags) (file : string)
    (fs : filesystem) : GKeyFile * bool :=
  match g_file_get_contents fs file with
  | Some text => g_key_file_load_from_data flags text
  | None => (g_key_file_new, false)
  end.

(** [g_key_file_save_to_file] in a process whose mask is [mask]: GLib
    creates the file with mode 0666, so it gets 0666 less the mask. *)
Definition g_key_file_save_to_file (kf : GKeyFile) (file : string) (mask : Z)
    (fs : filesystem) : filesystem * bool :=
  match g_key_file_to_data kf with
  | Some text =>
      let '(fs', e) := file_set_contents file text (creation_mode 438 mask) fs in
      (fs', e =? 0)
  | None => (fs, false)
  end.

End keyfile_files.

(** ** The interface-name fixup ([_fix_netplan_interface_name]) *)

Section fix_netplan_interface_name.
Context `{!Os, !GKeyFileApi}.

(** The function works on the files and on the mask of the process: its
    steps take the mask [mask] and the file system, and return both together
    with their result. *)

(** One round of the [for] loop, on [gl_pathv[i]].  [false] is the early
    [return FALSE], which is taken before [umask(orig_umask)]. *)
Definition fix_one_file (file : string) (mask : Z) (fs : filesystem)
  : filesystem * Z * bool :=
  let kf := (g_key_file_load_from_file G_KEY_FILE_KEEP_COMMENTS file fs).1 in
  match g_key_file_get_string kf "connection" "interface-name" with
  | Some iface =>
      if g_str_has_prefix iface "NM-" && (15 <? String.length iface)%nat then
        let kf := g_key_file_remove_key kf "connection" "interface-name" in
        let '(mask, orig_umask) := umask 63 mask in
        let '(fs', saved) := g_key_file_save_to_file kf file mask fs in
        if negb saved then (fs', mask, false)
        else (fs', (umask orig_umask mask).1, true)
      else (fs, mask, true)
  | None => (fs, mask, true)
  end.

Fixpoint fix_each_file (gl_pathv : list string) (mask : Z) (fs : filesystem)
  : filesystem * Z * bool :=
  match gl_pathv with
  | [] => (fs, mask, true)
  | file :: rest =>
      let '(fs', mask', ok) := fix_one_file file mask fs in
      if ok then fix_each_file rest mask' fs' else (fs', mask', false)
  end.

Definition _fix_netplan_interface_name (rootdir : option string) (mask : Z)
    (fs : filesystem) : filesystem * Z * bool :=
  let path := g_build_filename [default "/" rootdir; "run"; "NetworkManager";
                                "system-connections"] in
  let rglob := path +:+ "/" +:+ "*.nmconnection" in
  let '(rc, gl_pathv) := glob rglob (dom fs) in
  if negb (rc =? 0) && negb (rc =? GLOB_NOMATCH) then (fs, mask, false)
  else fix_each_file gl_pathv mask fs.

End fix_netplan_interface_name.

(** ** The permission and ownership validator *)

(** [NMSKeyfileFiletype]; the third constructor stands for any other value
    of the C enum, which the code sends to [g_return_val_if_reached]. *)
Inductive NMSKeyfileFiletype :=
| NMS_KEYFILE_FILETYPE_KEYFILE
| NMS_KEYFILE_FILETYPE_NMMETA
| NMS_KEYFILE_FILETYPE_other.

(** Why a file is refused.  The first five are reported to the caller as
    [NM_SETTINGS_ERROR_INVALID_CONNECTION] with the message of the source. *)
Inductive insecure_reason :=
| Not_a_regular_file
| Neither_symlink_nor_regular_file
| File_owner_insecure (uid : Z)
| File_permissions_insecure (mode : Z)
| Cannot_access_file
| Return_if_reached.

Section check_file_permissions.
Context `{!Libnm}.

(** [None] is the [TRUE] return; [Some r] is [FALSE] with the error [r]. *)
Definition nms_keyfile_utils_check_file_permissions_stat
    (filetype : NMSKeyfileFiletype) (st : stat) : option insecure_reason :=
  let type_error :=
    match filetype with
    | NMS_KEYFILE_FILETYPE_KEYFILE =>
        if negb (S_ISREG (st_mode st)) then Some Not_a_regular_file else None
    | NMS_KEYFILE_FILETYPE_NMMETA =>
        if negb (S_ISLNK (st_mode st)) && negb (S_ISREG (st_mode st))
        then Some Neither_symlink_nor_regular_file else None
    | NMS_KEYFILE_FILETYPE_other => Some Return_if_reached
    end in
  match type_error with
  | Some r => Some r
  | None =>
      if negb (NM_FLAGS_HAS nm_utils_get_testing NM_UTILS_TEST_NO_KEYFILE_OWNER_CHECK) then
        if negb ((st_uid st =? 0) || (st_uid st =? nm_utils_get_nm_uid))
        then Some (File_owner_insecure (st_uid st))
        else if S_ISREG (st_mode st) && negb (Z.land (st_mode st) 63 =? 0)
        then Some (File_permissions_insecure (st_mode st))
        else None
      else None
  end.

(** The result is the [stat] buffer on success. *)
Definition nms_keyfile_utils_check_file_permissions
    (filetype : NMSKeyfileFiletype) (filename : string) (fs : filesystem)
  : insecure_reason + stat :=
  if negb (g_str_has_prefix filename "/") then inl Return_if_reached
  else
    let st :=
      match filetype with
      | NMS_KEYFILE_FILETYPE_KEYFILE => inr (stat_follow fs filename)
      | NMS_KEYFILE_FILETYPE_NMMETA => inr (lstat fs filename)
      | NMS_KEYFILE_FILETYPE_other => inl Return_if_reached
      end in
    match st with
    | inl r => inl r
    | inr None => inl Cannot_access_file
    | inr (Some st) =>
        match nms_keyfile_utils_check_file_permissions_stat filetype st with
        | Some r => inl r
        | None => inr st
        end
    end.

End check_file_permissions.

(** ** The sidecar codec ([nms_keyfile_nmmeta_*]) *)

(** Modelled from the spec: the "fixed suffix" of a sidecar file name,
    [NM_KEYFILE_PATH_SUFFIX_NMMETA] of nms-keyfile-utils.h (not under src/). *)
Definition NM_KEYFILE_PATH_SUFFIX_NMMETA : string := ".nmmeta".

(** [NM_STRLEN(NM_KEYFILE_PATH_SUFFIX_NMMETA)]. *)
Definition NM_STRLEN_SUFFIX_NMMETA : nat := String.length NM_KEYFILE_PATH_SUFFIX_NMMETA.

Definition NMMETA_KF_GROUP_NAME_NMMETA : string := "nmmeta".
Definition NMMETA_KF_KEY_NAME_NMMETA_UUID : string := "uuid".
Definition NMMETA_KF_KEY_NAME_NMMETA_LOADED_PATH : string := "loaded-path".
Definition NMMETA_KF_KEY_NAME_NMMETA_SHADOWED_STORAGE : string := "shadowed-storage".

(** What [nms_keyfile_nmmeta_read] hands back through its out parameters. *)
Record nmmeta_record := {
  nmmeta_full_filename : string;
  nmmeta_uuid : string;
  nmmeta_loaded_path : option string;
  nmmeta_shadowed_storage : option string;
  nmmeta_st : stat;
}.

Section nmmeta.
Context `{!Os, !Libnm, !GKeyFileApi}.

(** The function returns a pointer into [filename] (the base name) and
    stores 36 in [*out_uuid_len]; [None] is the [NULL] return. *)
Definition nms_keyfile_nmmeta_check_filename (filename : string) : option (string * nat) :=
  let filename :=
    match after_last_slash filename with
    | Some t => t
    | None => filename
    end in
  let len := String.length filename in
  if (len <=? NM_STRLEN_SUFFIX_NMMETA)%nat
     || negb (String.eqb (substring (len - NM_STRLEN_SUFFIX_NMMETA)
                                    NM_STRLEN_SUFFIX_NMMETA filename)
                         NM_KEYFILE_PATH_SUFFIX_NMMETA)
  then None
  else
    let len := (len - NM_STRLEN_SUFFIX_NMMETA)%nat in
    if negb (len =? 36)%nat then None
    else
      let uuid := substring 0 36 filename in
      if negb (nm_uuid_is_normalized uuid) then None
      else Some (filename, 36%nat).

Definition nms_keyfile_nmmeta_filename (dirname uuid : string) (temporary : bool) : string :=
  let filename :=
    uuid +:+ NM_KEYFILE_PATH_SUFFIX_NMMETA +:+ (if temporary then "~" else "") in
  g_build_filename [dirname; filename].

(** [None] is the [FALSE] return: no record. *)
Definition nms_keyfile_nmmeta_read (dirname filename : string) (fs : filesystem)
  : option nmmeta_record :=
  match nms_keyfile_nmmeta_check_filename filename with
  | None => None
  | Some (uuid, uuid_len) =>
      let full_filename := g_build_filename [dirname; filename] in
      match nms_keyfile_utils_check_file_permissions NMS_KEYFILE_FILETYPE_NMMETA
                                                     full_filename fs with
      | inl _ => None
      | inr st =>
          let found loaded_path shadowed_storage :=
            Some {| nmmeta_full_filename := full_filename;
                    nmmeta_uuid := substring 0 uuid_len uuid;
                    nmmeta_loaded_path := loaded_path;
                    nmmeta_shadowed_storage := shadowed_storage;
                    nmmeta_st := st |} in
          if S_ISREG (st_mode st) then
            let '(kf, loaded) := g_key_file_load_from_file G_KEY_FILE_NONE full_filename fs in
            if negb loaded then None
            else
              match g_key_file_get_string kf NMMETA_KF_GROUP_NAME_NMMETA
                                          NMMETA_KF_KEY_NAME_NMMETA_UUID with
              | None => None
              | Some v_uuid =>
                  (* strncmp over uuid_len bytes, then the terminator *)
                  if negb (String.eqb v_uuid (substring 0 uuid_len uuid)) then None
                  else
                    let loaded_path :=
                      g_key_file_get_string kf NMMETA_KF_GROUP_NAME_NMMETA
                                            NMMETA_KF_KEY_NAME_NMMETA_LOADED_PATH in
                    let shadowed_storage :=
                      g_key_file_get_string kf NMMETA_KF_GROUP_NAME_NMMETA
                                            NMMETA_KF_KEY_NAME_NMMETA_SHADOWED_STORAGE in
                    match loaded_path, shadowed_storage with
                    | None, None => None
                    | _, _ => found loaded_path shadowed_storage
                    end
              end
          else
            match fs !! full_filename with
            | Some n => found (Some (link_destination full_filename (i_data n))) None
            | None => None
            end
      end
  end.

(** The result is the signed error code (0 for success) and
    [*out_full_filename]. *)
Definition nms_keyfile_nmmeta_write (dirname uuid : string) (loaded_path : option string)
    (loaded_path_allow_relative : bool) (shadowed_storage : option string)
    (fs : filesystem) : filesystem * (Z * string) :=
  let full_filename_tmp := nms_keyfile_nmmeta_filename dirname uuid true in
  let fs := (unlink full_filename_tmp fs).1 in
  match loaded_path with
  | None =>
      let full_filename_tmp := drop_last full_filename_tmp in
      let '(fs, e) := unlink full_filename_tmp fs in
      let errsv :=
        if negb (e =? 0) then
          let errsv := - NM_ERRNO_NATIVE e in
          if errsv =? - ENOENT then 0 else errsv
        else 0 in
      (fs, (errsv, full_filename_tmp))
  | Some loaded_path =>
      let loaded_path :=
        if loaded_path_allow_relative then
          match nm_utils_file_is_in_path loaded_path dirname with
          | Some f => f
          | None => loaded_path
          end
        else loaded_path in
      let full_filename := drop_last full_filename_tmp in
      match shadowed_storage with
      | Some shadowed_storage =>
          let kf := g_key_file_new in
          let kf := g_key_file_set_string kf NMMETA_KF_GROUP_NAME_NMMETA
                                          NMMETA_KF_KEY_NAME_NMMETA_UUID uuid in
          let kf := g_key_file_set_string kf NMMETA_KF_GROUP_NAME_NMMETA
                                          NMMETA_KF_KEY_NAME_NMMETA_LOADED_PATH loaded_path in
          let kf := g_key_file_set_string kf NMMETA_KF_GROUP_NAME_NMMETA
                                          NMMETA_KF_KEY_NAME_NMMETA_SHADOWED_STORAGE
                                          shadowed_storage in
          let contents := default EmptyString (g_key_file_to_data kf) in
          let '(fs, e) := file_set_contents full_filename contents 384 fs in
          if negb (e =? 0) then (fs, (- NM_ERRNO_NATIVE e, full_filename_tmp))
          else (fs, (0, full_filename))
      | None =>
          let '(fs, e) := symlink loaded_path full_filename_tmp fs in
          if negb (e =? 0) then (fs, (- NM_ERRNO_NATIVE e, drop_last full_filename_tmp))
          else
            let '(fs, e) := rename full_filename_tmp full_filename fs in
            if negb (e =? 0)
            then ((unlink full_filename_tmp fs).1, (- NM_ERRNO_NATIVE e, full_filename))
            else (fs, (0, full_filename))
      end
  end.

End nmmeta.

(** ** The profile writer ([nms-keyfile-writer.c]) *)

Inductive NMSetting8021xCKFormat :=
| NM_SETTING_802_1X_CK_FORMAT_UNKNOWN
| NM_SETTING_802_1X_CK_FORMAT_X509
| NM_SETTING_802_1X_CK_FORMAT_RAW_KEY
| NM_SETTING_802_1X_CK_FORMAT_PKCS12.

(** What [vtable->scheme_func] reports, with the value the matching getter
    returns. *)
Inductive cert_scheme :=
| NM_SETTING_802_1X_CK_SCHEME_PATH (path : string)
| NM_SETTING_802_1X_CK_SCHEME_PKCS11 (uri : string)
| NM_SETTING_802_1X_CK_SCHEME_BLOB (blob : string)
| NM_SETTING_802_1X_CK_SCHEME_UNKNOWN.

(** One call of the write handler: the vtable of a certificate property and
    the setting's value for it.  [cert_format] is [vtable->format_func]'s
    answer, when the vtable has that function. *)
Record cert_property := {
  cert_setting_name : string;
  cert_setting_key : string;
  cert_file_suffix : string;
  cert_format : option NMSetting8021xCKFormat;
  cert_value : cert_scheme;
}.

(** The connection object, libnm-core's keyfile writer and the plugin's
    reader.  [nm_keyfile_write] is described by the handler calls it makes
    ([nm_keyfile_write_certs]) and the key file it builds from everything
    else ([nm_keyfile_write_settings], [None] when it fails). *)
Class NmKeyfile `{!GKeyFileApi} := {
  NMConnection : Type;
  nm_connection_get_id : NMConnection → string;
  nm_connection_get_uuid : NMConnection → string;
  nm_connection_get_interface_name : NMConnection → option string;
  nm_keyfile_write_certs : NMConnection → list cert_property;
  nm_keyfile_write_settings : NMConnection → option GKeyFile;
  nms_keyfile_reader_from_keyfile : GKeyFile → string → string → option NMConnection;
  nms_keyfile_reader_from_file : string → string → filesystem → option NMConnection;
  nm_connection_normalize : NMConnection → option NMConnection;
  nm_connection_compare_exact : NMConnection → NMConnection → bool;
  g_uri_escape_string : string → string;
}.

(** libnetplan.  [netplan_parser_load_keyfile] stands for the parser and
    the state built from its results; the error of the import is not looked
    at by the writer.  [netplan_netdef_write_yaml] returns the file system it
    leaves and its [gboolean]. *)
Class Netplan := {
  NetplanState : Type;
  NetplanNetDefinition : Type;
  netplan_get_id_from_nm_filepath : string → option string → nat → Z * string;
  netplan_parser_load_keyfile : string → filesystem → option NetplanState;
  netplan_state_get_netdef : NetplanState → option string → option NetplanNetDefinition;
  netplan_netdef_write_yaml :
    NetplanState → NetplanNetDefinition → option string → filesystem → filesystem * bool;
  netplan_generate : option string → filesystem → filesystem * bool;
}.


(** The [GError] the writer sets; all are [NM_SETTINGS_ERROR_FAILED] except
    the first, which sets none, and the second, which is the codec's own. *)
Inductive write_error :=
| ERR_return_val_if_fail
| ERR_keyfile_write
| ERR_key_file_to_data
| ERR_no_suitable_file_name (already_used : string)
| ERR_writer_produces_invalid_connection
| ERR_writing_to_file (path : string)
| ERR_chowning (path : string) (errsv : Z)
| ERR_netplan_translation_failed
| ERR_netplan_netdef_not_found (netplan_id : string)
| ERR_netplan_generate_failed.

Inductive outcome (A : Type) :=
| Done (a : A)
| Failed (e : write_error).
Arguments Done {A} a.
Arguments Failed {A} e.

(** A step of the writer: it changes the file system and either goes on
    with a value or leaves with an error ([return FALSE]). *)
Definition Writer (A : Type) : Type := filesystem → filesystem * outcome A.

Definition wret {A} (a : A) : Writer A := λ fs, (fs, Done a).

Definition wbind {A B} (m : Writer A) (k : A → Writer B) : Writer B :=
  λ fs, match m fs with
        | (fs', Done a) => k a fs'
        | (fs', Failed e) => (fs', Failed e)
        end.

Definition wfail {A} (e : write_error) : Writer A := λ fs, (fs, Failed e).

(** A call whose result the writer does not look at. *)
Definition wdo (f : filesystem → filesystem) : Writer unit := λ fs, (f fs, Done tt).

Definition wread {A} (f : filesystem → A) : Writer A := λ fs, (fs, Done (f fs)).

Notation "'let*' x := m 'in' k" := (wbind m (λ x, k))
  (at level 10, x pattern, m at level 100, k at level 200, only parsing).

Definition NM_KEYFILE_GROUP_NMMETA : string := ".nmmeta".
Definition NM_KEYFILE_KEY_NMMETA_NM_GENERATED : string := "nm-generated".
Definition NM_KEYFILE_KEY_NMMETA_VOLATILE : string := "volatile".
Definition NM_KEYFILE_KEY_NMMETA_EXTERNAL : string := "external".
Definition NM_KEYFILE_KEY_NMMETA_SHADOWED_STORAGE : string := "shadowed-storage".
Definition NM_KEYFILE_KEY_NMMETA_SHADOWED_OWNED : string := "shadowed-owned".
Definition NM_KEYFILE_CERT_SCHEME_PREFIX_PATH : string := "file://".

(** The arguments of [_internal_write_connection].  [want_reread] and
    [want_reread_same] say whether [out_reread] and [out_reread_same] are
    non-[NULL]. *)
Record write_args `{!GKeyFileApi, !NmKeyfile} := {
  connection : NMConnection;
  is_nm_generated : bool;
  is_volatile : bool;
  is_external : bool;
  shadowed_storage : option string;
  shadowed_owned : bool;
  keyfile_dir : string;
  profile_dir : string;
  with_extension : bool;
  owner_uid : Z;
  owner_grp : Z;
  existing_path : option string;
  existing_path_read_only : bool;
  force_rename : bool;
  allow_filename_cb : option (string → bool);
  want_reread : bool;
  want_reread_same : bool;
  rootdir : option string;
}.

(** The out parameters on success. *)
Record write_result `{!GKeyFileApi, !NmKeyfile} := {
  out_path : string;
  out_reread : option NMConnection;
  out_reread_same : bool;
}.

(** What the writer holds when it starts to write: the key file, its text,
    the selected path and the result of the read-back. *)
Record prepared `{!GKeyFileApi, !NmKeyfile} := {
  kf_file : GKeyFile;
  kf_content_buf : string;
  path : string;
  reread : option NMConnection * bool;
}.

Section writer.
Context `{!Os, !Libnm, !GKeyFileApi, !NmKeyfile, !Netplan}.

(** [path + strlen(prefix)]. *)
Definition string_after (prefix_len : nat) (s : string) : string :=
  substring prefix_len (String.length s - prefix_len) s.

(** [blob_len > 2 && blob_data[0] == 0x30 && blob_data[1] == 0x82]. *)
Definition blob_is_der (blob : string) : bool :=
  (2 <? String.length blob)%nat
  && match blob with
     | String b0 (String b1 _) =>
         (Z.of_nat (nat_of_ascii b0) =? 48) && (Z.of_nat (nat_of_ascii b1) =? 130)
     | _ => false
     end.

(** [cert_writer]: the handler for one certificate property.  It sets the
    key in [file] and, for a blob, writes the blob to a file of its own. *)
Definition cert_writer (connection : NMConnection) (file : GKeyFile)
    (cert : cert_property) (info_keyfile_dir : string) (fs : filesystem)
  : filesystem * GKeyFile :=
  let set_key v := g_key_file_set_string file (cert_setting_name cert) (cert_setting_key cert) v in
  match cert_value cert with
  | NM_SETTING_802_1X_CK_SCHEME_PATH path =>
      let relative :=
        if g_str_has_prefix path info_keyfile_dir then
          let p := string_after (String.length info_keyfile_dir) path in
          if g_str_has_prefix p "/" then
            let p := strip_leading_slashes p in
            if nonempty p then
              match nm_keyfile_detect_unqualified_path_scheme info_keyfile_dir p with
              | Some _ => Some p
              | None => None
              end
            else None
          else None
        else None in
      let accepted_path :=
        match relative with
        | Some p => p
        | None =>
            match nm_keyfile_detect_unqualified_path_scheme info_keyfile_dir path with
            | Some _ => path
            | None => NM_KEYFILE_CERT_SCHEME_PREFIX_PATH +:+ path
            end
        end in
      (fs, set_key accepted_path)
  | NM_SETTING_802_1X_CK_SCHEME_PKCS11 uri => (fs, set_key uri)
  | NM_SETTING_802_1X_CK_SCHEME_BLOB blob =>
      let ext :=
        match cert_format cert with
        | Some NM_SETTING_802_1X_CK_FORMAT_PKCS12 => "p12"
        | Some _ => "pem"
        | None => if blob_is_der blob then "der" else "pem"
        end in
      let new_path :=
        info_keyfile_dir +:+ "/" +:+ nm_connection_get_uuid connection +:+ "-"
        +:+ cert_file_suffix cert +:+ "." +:+ ext in
      let '(fs', e) := file_set_contents new_path blob 384 fs in
      if e =? 0
      then (fs', set_key (default new_path (after_last_slash new_path)))
      else (fs', file)
  | NM_SETTING_802_1X_CK_SCHEME_UNKNOWN => (fs, file)
  end.

(** [nm_keyfile_write] with [_handler_write]: [None] is its [NULL]. *)
Definition nm_keyfile_write (connection : NMConnection) (info_keyfile_dir : string)
    (fs : filesystem) : filesystem * option GKeyFile :=
  let kf0 := default g_key_file_new (nm_keyfile_write_settings connection) in
  let '(fs', kf) :=
    foldl (λ '(fs, kf) cert, cert_writer connection kf cert info_keyfile_dir fs)
          (fs, kf0) (nm_keyfile_write_certs connection) in
  (fs', match nm_keyfile_write_settings connection with
        | Some _ => Some kf
        | None => None
        end).

Section write_connection.
Variable a : write_args.

(** [rename] of the source. *)
Definition rename_needed : bool :=
  force_rename a || existing_path_read_only a
  || match existing_path a with
     | Some p => bool_decide (nm_utils_file_is_in_path p (keyfile_dir a) = None)
     | None => false
     end.

(** Lines 239-281: the key file and its text. *)
Definition serialize_connection : Writer (GKeyFile * string) :=
  let* kf_file := (λ fs, let '(fs', r) := nm_keyfile_write (connection a) (keyfile_dir a) fs in
                         (fs', match r with Some kf => Done kf | None => Failed ERR_keyfile_write end)) in
  let kf_file :=
    if is_nm_generated a
    then g_key_file_set_boolean kf_file NM_KEYFILE_GROUP_NMMETA NM_KEYFILE_KEY_NMMETA_NM_GENERATED true
    else kf_file in
  let kf_file :=
    if is_volatile a
    then g_key_file_set_boolean kf_file NM_KEYFILE_GROUP_NMMETA NM_KEYFILE_KEY_NMMETA_VOLATILE true
    else kf_file in
  let kf_file :=
    if is_external a
    then g_key_file_set_boolean kf_file NM_KEYFILE_GROUP_NMMETA NM_KEYFILE_KEY_NMMETA_EXTERNAL true
    else kf_file in
  let kf_file :=
    match shadowed_storage a with
    | Some s => g_key_file_set_string kf_file NM_KEYFILE_GROUP_NMMETA
                                      NM_KEYFILE_KEY_NMMETA_SHADOWED_STORAGE s
    | None => kf_file
    end in
  let kf_file :=
    if shadowed_owned a
    then g_key_file_set_boolean kf_file NM_KEYFILE_GROUP_NMMETA NM_KEYFILE_KEY_NMMETA_SHADOWED_OWNED true
    else kf_file in
  match g_key_file_to_data kf_file with
  | Some kf_content_buf => wret (kf_file, kf_content_buf)
  | None => wfail ERR_key_file_to_data
  end.

(** Lines 283-284. *)
Definition ensure_keyfile_dir : Writer unit :=
  wdo (λ fs, if negb (g_file_test_is_dir fs (keyfile_dir a))
             then (g_mkdir_with_parents (keyfile_dir a) 493 fs).1 else fs).

(** The candidate that round [i_path] of the loop builds; [None] is the
    [continue] of round -2. *)
Definition path_candidate (i_path : Z) : option string :=
  let id := nm_connection_get_id (connection a) in
  if i_path =? -2 then
    match existing_path a with
    | Some p => if rename_needed then None else Some p
    | None => None
    end
  else if i_path =? -1 then
    let filename_escaped := nm_keyfile_utils_create_filename id (with_extension a) in
    Some (g_build_filename [keyfile_dir a; filename_escaped])
  else
    let filename :=
      if i_path =? 0
      then id +:+ "-" +:+ nm_connection_get_uuid (connection a)
      else id +:+ "-" +:+ nm_connection_get_uuid (connection a) +:+ "-" +:+ pretty i_path in
    let filename_escaped := nm_keyfile_utils_create_filename filename (with_extension a) in
    Some (keyfile_dir a +:+ "/" +:+ filename_escaped).

(** The three tests of the loop body: [false] is a [continue]. *)
Definition candidate_passes (fs : filesystem) (path_candidate : string) : bool :=
  let is_existing_path := bool_decide (existing_path a = Some path_candidate) in
  if is_existing_path && rename_needed then false
  else if match allow_filename_cb a with
          | Some cb => negb (cb path_candidate)
          | None => false
          end then false
  else if negb is_existing_path && g_file_test_exists fs path_candidate then false
  else true.

(** [for (i_path = -2; i_path < 10000; i_path++)].  The outer [None] means
    that [fuel] rounds were not enough to leave the loop; [Some None] is the
    loop left with [path == NULL]. *)
Fixpoint find_path (fuel : nat) (i_path : Z) (fs : filesystem) : option (option string) :=
  match fuel with
  | O => None
  | S fuel' =>
      if i_path <? 10000 then
        match path_candidate i_path with
        | None => find_path fuel' (i_path + 1) fs
        | Some c =>
            if candidate_passes fs c then Some (Some c)
            else find_path fuel' (i_path + 1) fs
        end
      else Some None
  end.

(** 10002 rounds and the test that ends the loop. *)
Definition find_path_rounds : nat := Z.to_nat 10003.

(** Lines 286-347. *)
Definition select_path : Writer string :=
  λ fs,
    match find_path find_path_rounds (-2) fs with
    | Some (Some path) => (fs, Done path)
    | _ =>
        (fs, Failed (ERR_no_suitable_file_name
                       (g_build_filename
                          [keyfile_dir a;
                           nm_keyfile_utils_create_filename
                             (nm_connection_get_id (connection a)) (with_extension a)])))
    end.

(** Lines 349-385: read the key file back and compare. *)
Definition reread_from_keyfile (kf_file : GKeyFile) (path : string)
  : Writer (option NMConnection * bool) :=
  if want_reread a || want_reread_same a then
    match nms_keyfile_reader_from_keyfile kf_file path (profile_dir a)
          ≫= nm_connection_normalize with
    | None => wfail ERR_writer_produces_invalid_connection
    | Some reread =>
        wret (Some reread,
              if want_reread_same a
              then nm_connection_compare_exact reread (connection a) else false)
    end
  else wret (None, false).

(** Lines 387-409: write, then hand the file to its owner. *)
Definition write_and_chown (path kf_content_buf : string) : Writer unit :=
  let* _ := (λ fs, let '(fs', e) := file_set_contents path kf_content_buf 384 fs in
                   (fs', if e =? 0 then Done tt else Failed (ERR_writing_to_file path))) in
  λ fs, let '(fs', errsv) := chown path (owner_uid a) (owner_grp a) fs in
        if negb (errsv =? 0)
        then ((unlink path fs').1, Failed (ERR_chowning path errsv))
        else (fs', Done tt).

(** Lines 411-415. *)
Definition remove_old_path (path : string) : Writer unit :=
  match existing_path a with
  | Some old =>
      if negb (existing_path_read_only a) && negb (bool_decide (path = old))
      then wdo (λ fs, (unlink old fs).1)
      else wret tt
  | None => wret tt
  end.

(** Lines 224-385: Serializing, PathSelection and Verifying. *)
Definition prepare_keyfile : Writer prepared :=
  if negb (g_str_has_prefix (keyfile_dir a) "/") then wfail ERR_return_val_if_fail
  else
    let* serialized := serialize_connection in
    let* _ := ensure_keyfile_dir in
    let* path := select_path in
    let* reread := reread_from_keyfile serialized.1 path in
    wret {| kf_file := serialized.1; kf_content_buf := serialized.2;
            path := path; reread := reread |}.

(** Lines 224-415: everything up to the point where the plain keyfile is on
    disk under its own name and the old one is gone. *)
Definition write_plain_keyfile : Writer prepared :=
  let* w := prepare_keyfile in
  let* _ := write_and_chown (path w) (kf_content_buf w) in
  let* _ := remove_old_path (path w) in
  wret w.

(** Lines 431-451: the netplan id taken from [existing_path] (the bool:
    [true]), else [NM-<uuid>] together with the interface name. *)
Definition netplan_id_of (ssid : option string) : string * bool * option string :=
  let from_existing :=
    match existing_path a with
    | Some ep =>
        if strstr ep "system-connections/netplan-" then
          let '(netplan_id_size, netplan_id) :=
            netplan_get_id_from_nm_filepath ep ssid (String.length ep - 1) in
          if netplan_id_size <=? 0 then None else Some netplan_id
        else None
    | None => None
    end in
  match from_existing with
  | Some netplan_id => (netplan_id, true, None)
  | None =>
      ("NM-" +:+ nm_connection_get_uuid (connection a), false,
       nm_connection_get_interface_name (connection a))
  end.

(** Lines 509-531: the path reported for the profile that netplan
    generated. *)
Definition netplan_final_path (escaped_ssid actual_netplan_id : option string)
    (fs : filesystem) : string :=
  match existing_path a with
  | Some ep => ep
  | None =>
      let root := default EmptyString (rootdir a) in
      let ssid_part :=
        match escaped_ssid with
        | Some e => "-" +:+ e
        | None => EmptyString
        end in
      let path :=
        root +:+ "/run/NetworkManager/system-connections/netplan-NM-"
        +:+ nm_connection_get_uuid (connection a) +:+ ssid_part +:+ ".nmconnection" in
      if negb (g_file_test_exists fs path) then
        root +:+ "/run/NetworkManager/system-connections/netplan-"
        +:+ default "(null)" actual_netplan_id +:+ ssid_part +:+ ".nmconnection"
      else path
  end.

(** Lines 533-563: read the generated profile back. *)
Definition reread_from_file (path : string) : Writer (option NMConnection * bool) :=
  λ fs,
    match nms_keyfile_reader_from_file path (profile_dir a) fs ≫= nm_connection_normalize with
    | None => (fs, Failed ERR_writer_produces_invalid_connection)
    | Some reread =>
        (fs, Done (Some reread,
                   if want_reread_same a
                   then nm_connection_compare_exact reread (connection a) else false))
    end.

(** Lines 419-488: find the netplan id, let libnetplan parse the keyfile,
    look the definition up and write its YAML.  The result is
    [actual_netplan_id]. *)
Definition netplan_translate (w : prepared) : Writer (option string) :=
  let ssid := g_key_file_get_string (kf_file w) "wifi" "ssid" in
  let '(netplan_id, from_existing, ifname) := netplan_id_of ssid in
  let* kf_path :=
    match existing_path a with
    | Some ep =>
        if from_existing
        then λ fs, (g_file_copy (path w) ep fs, Done ep)
        else wret (path w)
    | None => wret (path w)
    end in
  let* np_state :=
    (λ fs, match netplan_parser_load_keyfile kf_path fs with
           | Some st => (fs, Done st)
           | None => (fs, Failed ERR_netplan_translation_failed)
           end) in
  let '(netdef_id, actual_netplan_id) :=
    match netplan_state_get_netdef np_state (Some netplan_id) with
    | Some d => (Some d, Some netplan_id)
    | None => (netplan_state_get_netdef np_state ifname, ifname)
    end in
  match netdef_id with
  | None => wfail (ERR_netplan_netdef_not_found netplan_id)
  | Some netdef =>
      let* _ := wdo (λ fs, (netplan_netdef_write_yaml np_state netdef (rootdir a) fs).1) in
      wret actual_netplan_id
  end.

(** Lines 490-500: the legacy YAML and the plain keyfile are removed. *)
Definition netplan_clear_keyfile (w : prepared) : Writer unit :=
  let legacy_path :=
    "/etc/netplan/NM-" +:+ nm_connection_get_uuid (connection a) +:+ ".yaml" in
  let* _ := wdo (λ fs, if g_file_test_exists_or_regular fs legacy_path
                       then (unlink legacy_path fs).1 else fs) in
  wdo (λ fs, (unlink (path w) fs).1).

(** Lines 501-506.  The fixup is the one step of the writer that touches
    the mask of the process.  The writer reads the mask nowhere else, and
    the files and the result of the fixup are the same for every mask, so
    the writer's steps are written over the file system alone; what the
    fixup does to the mask is stated with the fixup. *)
Definition netplan_regenerate : Writer unit :=
  let* _ := (λ fs, let '(fs', ok) := netplan_generate (rootdir a) fs in
                   (fs', if ok then Done tt else Failed ERR_netplan_generate_failed)) in
  wdo (λ fs, (_fix_netplan_interface_name (rootdir a) process_umask fs).1.1).

(** Lines 418-564: hand the profile to netplan. *)
Definition netplan_project (w : prepared) : Writer (string * (option NMConnection * bool)) :=
  let escaped_ssid := g_uri_escape_string <$> g_key_file_get_string (kf_file w) "wifi" "ssid" in
  let* actual_netplan_id := netplan_translate w in
  let* _ := netplan_clear_keyfile w in
  let* _ := netplan_regenerate in
  let* path := wread (netplan_final_path escaped_ssid actual_netplan_id) in
  let* reread :=
    (if want_reread a || want_reread_same a then reread_from_file path else wret (reread w)) in
  wret (path, reread).

Definition _internal_write_connection : Writer write_result :=
  let* w := write_plain_keyfile in
  let* projected :=
    (if negb (is_volatile a)
     then netplan_project w
     else wret (path w, reread w)) in
  wret {| out_path := projected.1;
          out_reread := if want_reread a then projected.2.1 else None;
          out_reread_same := projected.2.2 |}.

End write_connection.

(** The two entry points, with their out parameters as [want_reread] and
    [want_reread_same]. *)
Definition nms_keyfile_writer_connection (connection : NMConnection)
    (is_nm_generated is_volatile is_external : bool) (shadowed_storage : option string)
    (shadowed_owned : bool) (keyfile_dir profile_dir : string)
    (existing_path : option string) (existing_path_read_only force_rename : bool)
    (allow_filename_cb : option (string → bool)) (want_reread want_reread_same : bool)
  : Writer write_result :=
  _internal_write_connection
    {| connection := connection; is_nm_generated := is_nm_generated;
       is_volatile := is_volatile; is_external := is_external;
       shadowed_storage := shadowed_storage; shadowed_owned := shadowed_owned;
       keyfile_dir := keyfile_dir; profile_dir := profile_dir; with_extension := true;
       owner_uid := nm_utils_get_nm_uid; owner_grp := nm_utils_get_nm_gid;
       existing_path := existing_path; existing_path_read_only := existing_path_read_only;
       force_rename := force_rename; allow_filename_cb := allow_filename_cb;
       want_reread := want_reread; want_reread_same := want_reread_same;
       rootdir := None |}.

Definition nms_keyfile_writer_test_connection (connection : NMConnection)
    (keyfile_dir : string) (owner_uid owner_grp : Z) (want_reread want_reread_same : bool)
  : Writer write_result :=
  let rootdir :=
    if g_str_has_suffix keyfile_dir "/run/NetworkManager/system-connections"
    then substring 0 (String.length keyfile_dir - 38) keyfile_dir
    else keyfile_dir in
  _internal_write_connection
    {| connection := connection; is_nm_generated := false;
       is_volatile := false; is_external := false;
       shadowed_storage := None; shadowed_owned := false;
       keyfile_dir := keyfile_dir; profile_dir := keyfile_dir; with_extension := false;
       owner_uid := owner_uid; owner_grp := owner_grp;
       existing_path := None; existing_path_read_only := false;
       force_rename := false; allow_filename_cb := None;
       want_reread := want_reread; want_reread_same := want_reread_same;
       rootdir := Some rootdir |}.

End writer.

(** ** The fixup, as the specification words it *)

Section fixup_spec.
Context `{!Os, !GKeyFileApi}.

(** "Prefix marker and length over the threshold". *)
Definition auto_generated_interface_name (iface : string) : bool :=
  g_str_has_prefix iface "NM-" && (15 <? String.length iface)%nat.

(** The file "carries an auto-generated interface-name". *)
Definition carries_auto_generated_interface_name (file : string) (fs : filesystem) : bool :=
  match g_key_file_get_string (g_key_file_load_from_file G_KEY_FILE_KEEP_COMMENTS file fs).1
                              "connection" "interface-name" with
  | Some iface => auto_generated_interface_name iface
  | None => false
  end.

(** "The rewrite removes that key": a key that was removed before the key
    file was saved is not there when the saved text is loaded again, and a
    key file that could not be read has no key. *)
Definition rewrite_removes_key (group key : string) : Prop :=
  (∀ kf text,
     g_key_file_to_data (g_key_file_remove_key kf group key) = Some text →
     g_key_file_get_string (g_key_file_load_from_data G_KEY_FILE_KEEP_COMMENTS text).1
                           group key = None)
  ∧ g_key_file_get_string g_key_file_new group key = None.

(** The text of a profile carries an auto-generated interface-name. *)
Definition text_carries_auto_generated_interface_name (text : string) : bool :=
  match g_key_file_get_string (g_key_file_load_from_data G_KEY_FILE_KEEP_COMMENTS text).1
                              "connection" "interface-name" with
  | Some iface => auto_generated_interface_name iface
  | None => false
  end.

(** One rewrite settles the text of a profile: if the text carries an
    auto-generated interface-name, the text that is saved once the key was
    removed carries none. *)
Definition rewrite_settles (text : string) : bool :=
  if text_carries_auto_generated_interface_name text then
    let kf := (g_key_file_load_from_data G_KEY_FILE_KEEP_COMMENTS text).1 in
    match g_key_file_to_data (g_key_file_remove_key kf "connection" "interface-name") with
    | Some saved => negb (text_carries_auto_generated_interface_name saved)
    | None => true
    end
  else true.

(** The pattern that the fixup hands to [glob]. *)
Definition profile_pattern (rootdir : option string) : string :=
  g_build_filename [default "/" rootdir; "run"; "NetworkManager"; "system-connections"]
  +:+ "/" +:+ "*.nmconnection".

(** One rewrite settles every one of the files [names] that can be read. *)
Definition settled (names : list string) (fs : filesystem) : Prop :=
  ∀ file text, file ∈ names → g_file_get_contents fs file = Some text →
               rewrite_settles text = true.

(** A state of the run-time profile directory in which one rewrite settles
    every profile. *)
Definition profiles_settle (rootdir : option string) (fs : filesystem) : Prop :=
  settled (glob (profile_pattern rootdir) (dom fs)).2 fs.

End fixup_spec.

(** ** Sidecar file names, as the specification words them *)

Section sidecar_names.
Context `{!Libnm}.

(** "<36-char normalized uuid><fixed nmmeta suffix>". *)
Definition sidecar_shape (base : string) : Prop :=
  ∃ uuid, base = uuid +:+ NM_KEYFILE_PATH_SUFFIX_NMMETA
          ∧ String.length uuid = 36%nat
          ∧ nm_uuid_is_normalized uuid = true.

(** The same "with an optional trailing [~] accepted as a temp marker". *)
Definition sidecar_shape_with_temp_marker (base : string) : Prop :=
  sidecar_shape base ∨ ∃ b, base = b +:+ "~" ∧ sidecar_shape b.

End sidecar_names.

(** ** What is on disk *)

(** Under the name [p] there is an object with the property [φ]. *)
Definition holds_at (φ : inode → Prop) (fs : filesystem) (p : string) : Prop :=
  ∃ n, fs !! p = Some n ∧ φ n.

Definition is_regular (n : inode) : Prop := S_ISREG (st_mode (i_stat n)) = true.

Definition is_no_directory (n : inode) : Prop := S_ISDIR (st_mode (i_stat n)) = false.

(** A property of objects that a freshly written file has and that a change
    of owner does not take away. *)
Definition kept_by_writes (φ : inode → Prop) : Prop :=
  (∀ text uid gid, φ (regular_file text 384 uid gid))
  ∧ (∀ n uid gid, φ n → φ (chowned uid gid n)).

(** The plain keyfile as the Writing step leaves it: a regular file with
    the serialized text that belongs to the designated owner. *)
Definition is_written `{!GKeyFileApi, !NmKeyfile} (a : write_args) (w : prepared)
    (n : inode) : Prop :=
  is_regular n ∧ i_data n = kf_content_buf w
  ∧ st_uid (i_stat n) = owner_uid a ∧ st_gid (i_stat n) = owner_grp a.

(** The file system as the allocator finds it: after the blobs of the
    certificates were written and the directory was made. *)
Definition selection_state `{!Os, !Libnm, !GKeyFileApi, !NmKeyfile}
    (a : write_args) (fs : filesystem) : filesystem :=
  (ensure_keyfile_dir a (serialize_connection a fs).1).1.

(** ** The filename allocator, as the specification words it *)

Section filename_allocator.
Context `{!Libnm, !GKeyFileApi, !NmKeyfile}.
Variable a : write_args.

(** "existing_path when given and neither force_rename nor
    read-only/out-of-dir applies". *)
Definition reusable_existing_path : list string :=
  match existing_path a with
  | Some p =>
      if force_rename a then []
      else if existing_path_read_only a then []
      else if nm_utils_file_is_in_path p (keyfile_dir a) is Some _ then [p]
      else []
  | None => []
  end.

(** "directory/escape(id)". *)
Definition clean_candidate : string :=
  g_build_filename
    [keyfile_dir a;
     nm_keyfile_utils_create_filename (nm_connection_get_id (connection a)) (with_extension a)].

(** "directory/escape(id-uuid)" for [N = 0], "directory/escape(id-uuid-N)"
    for [N = 1, 2, ...]. *)
Definition uuid_candidate (N : Z) : string :=
  keyfile_dir a +:+ "/"
  +:+ nm_keyfile_utils_create_filename
        (nm_connection_get_id (connection a) +:+ "-" +:+ nm_connection_get_uuid (connection a)
         +:+ (if decide (N = 0) then EmptyString else "-" +:+ pretty N))
        (with_extension a).

(** The fixed order of the candidates; the numbered ones stop before 10000. *)
Definition candidate_sequence : list string :=
  reusable_existing_path ++ clean_candidate :: (uuid_candidate <$> seqZ 0 10000).

(** "A candidate is rejected if it equals existing_path while a rename is
    forced, or if the accept callback (when supplied) returns false, or if
    (when it is not exactly existing_path) a file already exists at it." *)
Definition candidate_rejected (fs : filesystem) (c : string) : Prop :=
  (existing_path a = Some c ∧ reusable_existing_path = [])
  ∨ match allow_filename_cb a with
    | Some accept => accept c = false
    | None => False
    end
  ∨ (existing_path a ≠ Some c ∧ g_file_test_exists fs c = true).

#[global] Instance candidate_rejected_dec fs c : Decision (candidate_rejected fs c).
Proof. unfold candidate_rejected. destruct (allow_filename_cb a); apply _. Defined.

(** "The first candidate, in the fixed order, that is not rejected." *)
Definition first_fit (fs : filesystem) : option string :=
  snd <$> list_find (λ c, ¬ candidate_rejected fs c) candidate_sequence.

End filename_allocator.

(** Several profiles written one after the other, with the arguments that
    [args_of] gives each. *)
Fixpoint write_each `{!Os, !Libnm, !GKeyFileApi, !NmKeyfile, !Netplan}
    (args_of : NMConnection → write_args) (connections : list NMConnection)
    (fs : filesystem) : filesystem * list (outcome write_result) :=
  match connections with
  | [] => (fs, [])
  | c :: rest =>
      let '(fs', o) := _internal_write_connection (args_of c) fs in
      let '(fs'', os) := write_each args_of rest fs' in
      (fs'', o :: os)
  end.

(** The paths that a run of writes reported. *)
Definition reported_paths `{!GKeyFileApi, !NmKeyfile}
    (outcomes : list (outcome write_result)) : list string :=
  omap (λ o, match o with Done r => Some (out_path r) | Failed _ => None end) outcomes.

(** ** The VPN setting's data items ([nm-setting-vpn.c]) *)

Inductive vpn_property :=
| PROP_SERVICE_TYPE | PROP_USER_NAME | PROP_PERSISTENT | PROP_DATA | PROP_SECRETS | PROP_TIMEOUT.

(** [NMSettingVpnPrivate].  The two hash tables are [NULL] ([None]) until
    the first item is added; [vpn_notified] is the log of [_notify] calls,
    latest first. *)
Record NMSettingVpn := {
  vpn_service_type : option string;
  vpn_user_name : option string;
  vpn_data : option (gmap string string);
  vpn_secrets : option (gmap string string);
  vpn_timeout : Z;
  vpn_persistent : bool;
  vpn_notified : list vpn_property;
}.

(** [key && key[0]]. *)
Definition key_is_set (key : option string) : option string :=
  match key with
  | Some k => if nonempty k then Some k else None
  | None => None
  end.

Definition _ensure_strdict (p_hash : option (gmap string string)) : gmap string string :=
  default ∅ p_hash.

Definition set_vpn_data (setting : NMSettingVpn) (data : option (gmap string string))
  : NMSettingVpn :=
  {| vpn_service_type := vpn_service_type setting; vpn_user_name := vpn_user_name setting;
     vpn_data := data; vpn_secrets := vpn_secrets setting;
     vpn_timeout := vpn_timeout setting; vpn_persistent := vpn_persistent setting;
     vpn_notified := PROP_DATA :: vpn_notified setting |}.

(** The setting after the call and the [gboolean] it returns. *)
Definition nm_setting_vpn_remove_data_item (setting : NMSettingVpn) (key : option string)
  : NMSettingVpn * bool :=
  match key_is_set key with
  | None => (setting, false)
  | Some k =>
      match vpn_data setting with
      | Some h =>
          match h !! k with
          | Some _ => (set_vpn_data setting (Some (delete k h)), true)
          | None => (setting, false)
          end
      | None => (setting, false)
      end
  end.

Definition nm_setting_vpn_add_data_item (setting : NMSettingVpn) (key item : option string)
  : NMSettingVpn :=
  match item with
  | None => (nm_setting_vpn_remove_data_item setting key).1
  | Some item =>
      match key_is_set key with
      | None => setting
      | Some k => set_vpn_data setting (Some (<[k := item]> (_ensure_strdict (vpn_data setting))))
      end
  end.

Definition nm_setting_vpn_get_data_item (setting : NMSettingVpn) (key : option string)
  : option string :=
  match key_is_set key with
  | None => None
  | Some k => vpn_data setting ≫= (λ h, h !! k)
  end.

Definition nm_setting_vpn_get_num_data_items (setting : NMSettingVpn) : nat :=
  match vpn_data setting with
  | Some h => size h
  | None => 0%nat
  end.

(** ** A small concrete world

    Instances of the collaborators on which the examples below are
    evaluated. *)

(** libc's [glob] for a pattern [dir/*.nmconnection]. *)
Definition example_glob (pattern : string) (names : gset string) : Z * list string :=
  let dir := substring 0 (String.length pattern - String.length "*.nmconnection") pattern in
  let matches :=
    filter (λ n, g_str_has_prefix n dir
                 && g_str_has_suffix n ".nmconnection"
                 && negb (strstr (string_after (String.length dir) n) "/") = true)
           (elements names) in
  (if matches is [] then GLOB_NOMATCH else 0, matches).

Definition example_os (faults : syscall → string → option os_refusal) : Os :=
  {| os_fault := faults; geteuid := 0; getegid := 0; process_umask := 18;
     glob := example_glob |}.

Definition no_faults : syscall → string → option os_refusal := λ _ _, None.

Definition is_lower_hex (c : ascii) : bool :=
  let n := nat_of_ascii c in
  ((48 <=? n) && (n <=? 57) || (97 <=? n) && (n <=? 102))%nat.

Fixpoint uuid_chars_ok (pos : nat) (s : string) : bool :=
  match s with
  | EmptyString => true
  | String c r =>
      (if bool_decide (pos ∈ [8; 13; 18; 23]%nat) then Ascii.eqb c "-" else is_lower_hex c)
      && uuid_chars_ok (S pos) r
  end.

(** 36 characters, lower-case hexadecimal digits and four dashes. *)
Definition example_uuid_is_normalized (s : string) : bool :=
  (String.length s =? 36)%nat && uuid_chars_ok 0 s.

Fixpoint escape_slashes (s : string) : string :=
  match s with
  | EmptyString => EmptyString
  | String c r => String (if Ascii.eqb c "/" then "*"%char else c) (escape_slashes r)
  end.

Definition example_create_filename (id : string) (with_extension : bool) : string :=
  escape_slashes id +:+ (if with_extension then ".nmconnection" else EmptyString).

Definition example_file_is_in_path (abs_filename abs_path : string) : option string :=
  let dir := strip_trailing_slashes abs_path +:+ "/" in
  let rest := string_after (String.length dir) abs_filename in
  if g_str_has_prefix abs_filename dir && nonempty rest && negb (strstr rest "/")
  then Some rest else None.

Definition example_libnm : Libnm :=
  {| nm_uuid_is_normalized := example_uuid_is_normalized;
     nm_utils_get_nm_uid := 0;
     nm_utils_get_nm_gid := 0;
     nm_utils_get_testing := 0;
     NM_UTILS_TEST_NO_KEYFILE_OWNER_CHECK := 4;
     nm_utils_file_is_in_path := example_file_is_in_path;
     nm_keyfile_utils_create_filename := example_create_filename;
     nm_keyfile_detect_unqualified_path_scheme := λ _ p, Some p |}.

Definition is_iface (group key : string) : bool :=
  String.eqb group "connection" && String.eqb key "interface-name".

(** The smallest key file: it keeps the key [interface-name] of the group
    [connection] and nothing else; its text is [interface-name=<value>], or
    empty. *)
Definition example_gkeyfile : GKeyFileApi :=
  {| GKeyFile := option string;
     g_key_file_new := None;
     g_key_file_load_from_data := λ _ text,
       (if g_str_has_prefix text "interface-name="
        then Some (string_after (String.length "interface-name=") text) else None, true);
     g_key_file_to_data := λ kf,
       Some match kf with
            | Some v => "interface-name=" +:+ v
            | None => EmptyString
            end;
     g_key_file_get_string := λ kf group key, if is_iface group key then kf else None;
     g_key_file_set_string := λ kf group key v, if is_iface group key then Some v else kf;
     g_key_file_set_boolean := λ kf _ _ _, kf;
     g_key_file_remove_key := λ kf group key, if is_iface group key then None else kf |}.

(** A key file codec that keeps the lines of a group the way GLib's does.
    GLib's documentation of [GKeyFile] says that a group may contain the
    same key several times, that the last entry wins, and that groups with
    the same name are merged.  So a key that occurs twice is kept as two
    pairs; [g_key_file_get_string] reads the pair that came last, and
    [g_key_file_remove_key] takes that pair out and leaves the other.  The
    codec is GLib's on texts without blanks at the start of a line or
    around [=] and without escapes in the values. *)
Definition newline : string := String (ascii_of_nat 10) EmptyString.

Fixpoint split_lines_go (line s : string) : list string :=
  match s with
  | EmptyString => if nonempty line then [line] else []
  | String c r =>
      if Ascii.eqb c (ascii_of_nat 10) then line :: split_lines_go EmptyString r
      else split_lines_go (line +:+ String c EmptyString) r
  end.

Definition split_lines (text : string) : list string := split_lines_go EmptyString text.

(** The key and the value of a line [key=value]. *)
Fixpoint split_at_equals (key s : string) : option (string * string) :=
  match s with
  | EmptyString => None
  | String c r =>
      if Ascii.eqb c "=" then Some (key, r)
      else split_at_equals (key +:+ String c EmptyString) r
  end.

(** A pair of a group: a key with its value, or (no key) a comment or a
    blank line. *)
Definition keyfile_pair : Type := option string * string.

(** The groups in the order of the file, each with its pairs in that order;
    the group without a name holds the comments at the start of the file. *)
Definition keyfile_groups : Type := list (option string * list keyfile_pair).

Definition add_pair (group : option string) (pair : keyfile_pair) (kf : keyfile_groups)
  : keyfile_groups :=
  (λ g, if bool_decide (g.1 = group) then (g.1, (g.2 ++ [pair])%list) else g) <$> kf.

(** A group header whose group is there already goes on with that group. *)
Definition add_group (name : string) (kf : keyfile_groups) : keyfile_groups :=
  if bool_decide (Some name ∈ kf.*1) then kf else (kf ++ [(Some name, [])])%list.

(** One line of the text; parsing stops at the first line that is neither a
    comment nor a group nor a pair, and at a pair before the first group. *)
Definition parse_line (flags : GKeyFileFlags) (st : keyfile_groups * option string * bool)
    (line : string) : keyfile_groups * option string * bool :=
  let '(kf, current, ok) := st in
  if negb ok then st
  else if negb (nonempty line) || g_str_has_prefix line "#" then
    (if flags is G_KEY_FILE_KEEP_COMMENTS then add_pair current (None, line) kf else kf,
     current, true)
  else if g_str_has_prefix line "[" && g_str_has_suffix line "]" then
    let name := substring 1 (String.length line - 2) line in
    (add_group name kf, Some name, true)
  else
    match split_at_equals EmptyString line, current with
    | Some (key, value), Some _ => (add_pair current (Some key, value) kf, current, true)
    | _, _ => (kf, current, false)
    end.

Definition group_pairs (kf : keyfile_groups) (group : string) : list keyfile_pair :=
  match list_find (λ g, g.1 = Some group) kf with
  | Some (_, g) => g.2
  | None => []
  end.

(** The pair that a lookup of [key] finds is the one added last. *)
Definition lookup_pair (kf : keyfile_groups) (group key : string) : option string :=
  last (omap (λ pair : keyfile_pair,
                if bool_decide (pair.1 = Some key) then Some pair.2 else None)
             (group_pairs kf group)).

Fixpoint remove_first_pair (key : string) (pairs : list keyfile_pair) : list keyfile_pair :=
  match pairs with
  | [] => []
  | first :: rest =>
      if bool_decide (first.1 = Some key) then rest else first :: remove_first_pair key rest
  end.

Fixpoint replace_first_pair (key value : string) (pairs : list keyfile_pair)
  : list keyfile_pair :=
  match pairs with
  | [] => []
  | first :: rest =>
      if bool_decide (first.1 = Some key) then (Some key, value) :: rest
      else first :: replace_first_pair key value rest
  end.

Definition in_group (group : string) (f : list keyfile_pair → list keyfile_pair)
    (kf : keyfile_groups) : keyfile_groups :=
  (λ g, if bool_decide (g.1 = Some group) then (g.1, f g.2) else g) <$> kf.

Definition set_pair (kf : keyfile_groups) (group key value : string) : keyfile_groups :=
  match lookup_pair kf group key with
  | Some _ => in_group group (λ pairs, reverse (replace_first_pair key value (reverse pairs))) kf
  | None => add_pair (Some group) (Some key, value) (add_group group kf)
  end.

Definition pair_text (pair : keyfile_pair) : string :=
  match pair.1 with
  | Some key => key +:+ "=" +:+ pair.2
  | None => pair.2
  end +:+ newline.

Definition group_text (g : option string * list keyfile_pair) : string :=
  match g.1 with
  | Some name => "[" +:+ name +:+ "]" +:+ newline
  | None => EmptyString
  end +:+ String.concat EmptyString (pair_text <$> g.2).

Definition line_keeping_gkeyfile : GKeyFileApi :=
  {| GKeyFile := keyfile_groups;
     g_key_file_new := [(None, [])];
     g_key_file_load_from_data := λ flags text,
       let '(kf, _, ok) :=
         foldl (parse_line flags) ([(None, [])], None, true) (split_lines text) in
       (kf, ok);
     g_key_file_to_data := λ kf, Some (String.concat EmptyString (group_text <$> kf));
     g_key_file_get_string := lookup_pair;
     g_key_file_set_string := set_pair;
     g_key_file_set_boolean := λ kf group key b,
       set_pair kf group key (if b then "true" else "false");
     g_key_file_remove_key := λ kf group key,
       in_group group (λ pairs, reverse (remove_first_pair key (reverse pairs))) kf |}.

(** The run-time profile directory, empty. *)
Definition example_run_dir : filesystem :=
  {[ "/run" := directory 493 0 0;
     "/run/NetworkManager" := directory 493 0 0;
     "/run/NetworkManager/system-connections" := directory 493 0 0 ]}.

(** The directory of the system's profiles, empty. *)
Definition example_etc_dir : filesystem :=
  {[ "/etc" := directory 493 0 0;
     "/etc/NetworkManager" := directory 493 0 0;
     "/etc/NetworkManager/system-connections" := directory 493 0 0 ]}.

Record example_connection := {
  example_id : string;
  example_uuid : string;
  example_interface_name : option string;
  example_certs : list cert_property;
}.

Definition example_nmkeyfile : @NmKeyfile example_gkeyfile :=
  {| NMConnection := example_connection;
     nm_connection_get_id := example_id;
     nm_connection_get_uuid := example_uuid;
     nm_connection_get_interface_name := example_interface_name;
     nm_keyfile_write_certs := example_certs;
     nm_keyfile_write_settings := λ c,
       Some (example_interface_name c : @GKeyFile example_gkeyfile);
     nms_keyfile_reader_from_keyfile := λ (kf : @GKeyFile example_gkeyfile) _ _,
       Some {| example_id := EmptyString; example_uuid := EmptyString;
               example_interface_name := kf; example_certs := [] |};
     nms_keyfile_reader_from_file := λ _ _ _, None;
     nm_connection_normalize := Some;
     nm_connection_compare_exact := λ c d,
       bool_decide (example_interface_name c = example_interface_name d);
     g_uri_escape_string := λ s, s |}.

(** A libnetplan that knows every id it is asked for, writes one YAML file
    per definition and generates nothing; [translates] and [generates] say
    whether parsing and regeneration succeed. *)
Definition example_netplan (translates generates : bool) : Netplan :=
  {| NetplanState := unit;
     NetplanNetDefinition := string;
     netplan_get_id_from_nm_filepath := λ _ _ _, (0, EmptyString);
     netplan_parser_load_keyfile := λ _ _, if translates then Some tt else None;
     netplan_state_get_netdef := λ _ id, id;
     netplan_netdef_write_yaml := λ _ netdef rootdir fs,
       (<[default EmptyString rootdir +:+ "/etc/netplan/90-" +:+ netdef +:+ ".yaml"
          := regular_file "network: {}" 384 0 0]> fs, true);
     netplan_generate := λ _ fs, (fs, generates) |}.

(** A libnetplan that parses every keyfile and finds no definition in the
    state. *)
Definition example_netplan_without_definitions : Netplan :=
  {| NetplanState := unit;
     NetplanNetDefinition := string;
     netplan_get_id_from_nm_filepath := λ _ _ _, (0, EmptyString);
     netplan_parser_load_keyfile := λ _ _, Some tt;
     netplan_state_get_netdef := λ _ _, None;
     netplan_netdef_write_yaml := λ _ _ _ fs, (fs, true);
     netplan_generate := λ _ fs, (fs, true) |}.

Definition home1 : example_connection :=
  {| example_id := "home"; example_uuid := "11111111-1111-4111-8111-111111111111";
     example_interface_name := Some "eth0"; example_certs := [] |}.

Definition home2 : example_connection :=
  {| example_id := "home"; example_uuid := "22222222-2222-4222-8222-222222222222";
     example_interface_name := Some "eth1"; example_certs := [] |}.

Definition home3 : example_connection :=
  {| example_id := "home"; example_uuid := "33333333-3333-4333-8333-333333333333";
     example_interface_name := None; example_certs := [] |}.

(** The arguments of [nms_keyfile_writer_connection] for a new profile in
    [/etc/NetworkManager/system-connections]. *)
Definition example_args (volatile : bool) (accept : option (string → bool))
    (c : example_connection) : @write_args example_gkeyfile example_nmkeyfile :=
  {| connection := c : @NMConnection _ example_nmkeyfile;
     is_nm_generated := false; is_volatile := volatile; is_external := false;
     shadowed_storage := None; shadowed_owned := false;
     keyfile_dir := "/etc/NetworkManager/system-connections";
     profile_dir := "/etc/NetworkManager/system-connections";
     with_extension := true; owner_uid := 0; owner_grp := 0;
     existing_path := None; existing_path_read_only := false; force_rename := false;
     allow_filename_cb := accept; want_reread := false; want_reread_same := false;
     rootdir := None |}.

(** The arguments for an update of the profile stored in [old.nmconnection]
    whose name has to change. *)
Definition example_old_path : string :=
  "/etc/NetworkManager/system-connections/old.nmconnection".

Definition example_rename_args (c : example_connection)
  : @write_args example_gkeyfile example_nmkeyfile :=
  {| connection := c : @NMConnection _ example_nmkeyfile;
     is_nm_generated := false; is_volatile := true; is_external := false;
     shadowed_storage := None; shadowed_owned := false;
     keyfile_dir := "/etc/NetworkManager/system-connections";
     profile_dir := "/etc/NetworkManager/system-connections";
     with_extension := true; owner_uid := 0; owner_grp := 0;
     existing_path := Some example_old_path;
     existing_path_read_only := false; force_rename := true;
     allow_filename_cb := None; want_reread := false; want_reread_same := false;
     rootdir := None |}.

(** A directory that holds the old keyfile of that profile. *)
Definition example_old_fs : filesystem :=
  {[ example_old_path := regular_file "interface-name=eth9" 384 0 0 ]}.

(** ** The VPN setting's secrets and flags ([nm-setting-vpn.c]) *)

(** [_notify]: one more entry in the log of property notifications. *)
Definition _notify (setting : NMSettingVpn) (prop : vpn_property) : NMSettingVpn :=
  {| vpn_service_type := vpn_service_type setting; vpn_user_name := vpn_user_name setting;
     vpn_data := vpn_data setting; vpn_secrets := vpn_secrets setting;
     vpn_timeout := vpn_timeout setting; vpn_persistent := vpn_persistent setting;
     vpn_notified := prop :: vpn_notified setting |}.

(** An assignment to [priv->data], and one to [priv->secrets]. *)
Definition with_data (setting : NMSettingVpn) (data : option (gmap string string))
  : NMSettingVpn :=
  {| vpn_service_type := vpn_service_type setting; vpn_user_name := vpn_user_name setting;
     vpn_data := data; vpn_secrets := vpn_secrets setting;
     vpn_timeout := vpn_timeout setting; vpn_persistent := vpn_persistent setting;
     vpn_notified := vpn_notified setting |}.

Definition with_secrets (setting : NMSettingVpn) (secrets : option (gmap string string))
  : NMSettingVpn :=
  {| vpn_service_type := vpn_service_type setting; vpn_user_name := vpn_user_name setting;
     vpn_data := vpn_data setting; vpn_secrets := secrets;
     vpn_timeout := vpn_timeout setting; vpn_persistent := vpn_persistent setting;
     vpn_notified := vpn_notified setting |}.

(** [nm_setting_vpn_new]: every field at its default, both tables [NULL]. *)
Definition nm_setting_vpn_new : NMSettingVpn :=
  {| vpn_service_type := None; vpn_user_name := None; vpn_data := None;
     vpn_secrets := None; vpn_timeout := 0; vpn_persistent := false; vpn_notified := [] |}.

(** [nm_g_hash_table_lookup]: a [NULL] table holds nothing. *)
Definition nm_g_hash_table_lookup (hash : option (gmap string string)) (key : string)
  : option string :=
  hash ≫= (λ h, h !! key).

(** [nm_streq0]: two [NULL]s are equal, [NULL] differs from every string. *)
Definition nm_streq0 (s1 s2 : option string) : bool := bool_decide (s1 = s2).

Definition nm_setting_vpn_get_num_secrets (setting : NMSettingVpn) : nat :=
  match vpn_secrets setting with
  | Some h => size h
  | None => 0%nat
  end.

Definition nm_setting_vpn_remove_secret (setting : NMSettingVpn) (key : option string)
  : NMSettingVpn * bool :=
  match key_is_set key with
  | None => (setting, false)
  | Some k =>
      match vpn_secrets setting with
      | Some h =>
          match h !! k with
          | Some _ => (_notify (with_secrets setting (Some (delete k h))) PROP_SECRETS, true)
          | None => (setting, false)
          end
      | None => (setting, false)
      end
  end.

Definition nm_setting_vpn_add_secret (setting : NMSettingVpn) (key secret : option string)
  : NMSettingVpn :=
  match secret with
  | None => (nm_setting_vpn_remove_secret setting key).1
  | Some secret =>
      match key_is_set key with
      | None => setting
      | Some k =>
          _notify (with_secrets setting
                     (Some (<[k := secret]> (_ensure_strdict (vpn_secrets setting)))))
                  PROP_SECRETS
      end
  end.

Definition nm_setting_vpn_get_secret (setting : NMSettingVpn) (key : option string)
  : option string :=
  match key_is_set key with
  | None => None
  | Some k => nm_g_hash_table_lookup (vpn_secrets setting) k
  end.

(** [NMSettingSecretFlags] and [NMSettingCompareFlags] of nm-setting.h, as
    far as the VPN setting tests them. *)
Definition NM_SETTING_SECRET_FLAG_NONE : Z := 0.
Definition NM_SETTING_PARAM_SECRET : Z := 1024.
Definition NM_SETTING_COMPARE_FLAG_FUZZY : Z := 1.
Definition NM_SETTING_COMPARE_FLAG_IGNORE_SECRETS : Z := 4.

Inductive NMSettingUpdateSecretResult :=
| NM_SETTING_UPDATE_SECRET_ERROR
| NM_SETTING_UPDATE_SECRET_SUCCESS_MODIFIED
| NM_SETTING_UPDATE_SECRET_SUCCESS_UNCHANGED.

Inductive NMTernary := NM_TERNARY_DEFAULT | NM_TERNARY_FALSE | NM_TERNARY_TRUE.

(** The [GVariant]s that reach the setting: a string, a dictionary of type
    [a{ss}] with its entries in order, or a value of another type. *)
Inductive GVariant :=
| GVariant_string (s : string)
| GVariant_a_ss (entries : list (string * string))
| GVariant_other.

(** What the setting asks of libnm-core and libnm-glib-aux: the number
    parser with its base, bounds and fallback, the largest value of the
    secret flags and their validity test, the name of the secrets property,
    and the test whether a secret takes part in a comparison. *)
Class NmSettingApi := {
  _nm_utils_ascii_str_to_int64 : string → Z → Z → Z → Z → Z;
  NM_SETTING_SECRET_FLAG_ALL : Z;
  _nm_setting_secret_flags_valid : Z → bool;
  NM_SETTING_VPN_SECRETS : string;
  _nm_setting_should_compare_secret_property :
    NMSettingVpn → NMSettingVpn → string → Z → bool;
}.

Section vpn_secrets.
Context `{!NmSettingApi}.

(** [get_secret_flags]: the [gboolean] it returns and what it stores in
    [out_flags]. *)
Definition get_secret_flags (setting : NMSettingVpn) (secret_name : string)
  : bool * option Z :=
  if negb (nonempty secret_name) then (false, None)
  else
    let flags_key := secret_name +:+ "-flags" in
    match nm_g_hash_table_lookup (vpn_data setting) flags_key with
    | None =>
        match nm_g_hash_table_lookup (vpn_secrets setting) secret_name with
        | None => (false, Some NM_SETTING_SECRET_FLAG_NONE)
        | Some _ => (true, Some NM_SETTING_SECRET_FLAG_NONE)
        end
    | Some flags_val =>
        let i64 :=
          _nm_utils_ascii_str_to_int64 flags_val 10 0 NM_SETTING_SECRET_FLAG_ALL (-1) in
        if (i64 =? -1) || negb (_nm_setting_secret_flags_valid i64)
        then (true, Some NM_SETTING_SECRET_FLAG_NONE)
        else (true, Some i64)
    end.

(** [set_secret_flags]: the flags are stored among the data items, printed
    with [%u]. *)
Definition set_secret_flags (setting : NMSettingVpn) (secret_name : string) (flags : N)
  : NMSettingVpn * bool :=
  if negb (nonempty secret_name) then (setting, false)
  else
    (_notify (with_data setting
                (Some (<[secret_name +:+ "-flags" := pretty flags]>
                         (_ensure_strdict (vpn_data setting)))))
             PROP_SECRETS,
     true).

Definition update_secret_string (setting : NMSettingVpn) (key value : option string)
  : NMSettingVpn * NMSettingUpdateSecretResult :=
  match key_is_set key, value with
  | Some k, Some v =>
      if nm_streq0 (nm_g_hash_table_lookup (vpn_secrets setting) k) (Some v)
      then (setting, NM_SETTING_UPDATE_SECRET_SUCCESS_UNCHANGED)
      else (with_secrets setting (Some (<[k := v]> (_ensure_strdict (vpn_secrets setting)))),
            NM_SETTING_UPDATE_SECRET_SUCCESS_MODIFIED)
  | _, _ => (setting, NM_SETTING_UPDATE_SECRET_ERROR)
  end.

(** One round of the second loop of [update_secret_dict]. *)
Definition update_secret_entry (acc : NMSettingVpn * NMSettingUpdateSecretResult)
    (entry : string * string) : NMSettingVpn * NMSettingUpdateSecretResult :=
  if nm_streq0 (nm_g_hash_table_lookup (vpn_secrets acc.1) entry.1) (Some entry.2)
  then acc
  else (with_secrets acc.1
          (Some (<[entry.1 := entry.2]> (_ensure_strdict (vpn_secrets acc.1)))),
        NM_SETTING_UPDATE_SECRET_SUCCESS_MODIFIED).

Definition update_secret_dict (setting : NMSettingVpn)
    (secrets : option (list (string * string)))
  : NMSettingVpn * NMSettingUpdateSecretResult :=
  match secrets with
  | None => (setting, NM_SETTING_UPDATE_SECRET_ERROR)
  | Some entries =>
      if existsb (λ entry, negb (nonempty entry.1)) entries
      then (setting, NM_SETTING_UPDATE_SECRET_ERROR)
      else foldl update_secret_entry
             (setting, NM_SETTING_UPDATE_SECRET_SUCCESS_UNCHANGED) entries
  end.

Definition update_one_secret (setting : NMSettingVpn) (key : option string)
    (value : option GVariant) : NMSettingVpn * NMSettingUpdateSecretResult :=
  match key, value with
  | Some k, Some v =>
      let updated :=
        match v with
        | GVariant_string s => update_secret_string setting key (Some s)
        | GVariant_a_ss entries =>
            if negb (String.eqb k NM_SETTING_VPN_SECRETS)
            then (setting, NM_SETTING_UPDATE_SECRET_ERROR)
            else update_secret_dict setting (Some entries)
        | GVariant_other => (setting, NM_SETTING_UPDATE_SECRET_ERROR)
        end in
      match updated.2 with
      | NM_SETTING_UPDATE_SECRET_SUCCESS_MODIFIED => (_notify updated.1 PROP_SECRETS, updated.2)
      | _ => updated
      end
  | _, _ => (setting, NM_SETTING_UPDATE_SECRET_ERROR)
  end.

(** One run of the loop of [compare_property_secrets]: whether a secret of
    [current_a] differs from that of [current_b] and is to be compared. *)
Definition secret_differs (current_a current_b : NMSettingVpn) (flags : Z)
    (entry : string * string) : bool :=
  negb (nm_streq0 (Some entry.2) (nm_setting_vpn_get_secret current_b (Some entry.1)))
  && _nm_setting_should_compare_secret_property current_a current_b entry.1 flags.

Definition secrets_differ (current_a current_b : NMSettingVpn) (flags : Z) : bool :=
  match vpn_secrets current_a with
  | None => false
  | Some h => existsb (secret_differs current_a current_b flags) (map_to_list h)
  end.

Definition compare_property_secrets (a : NMSettingVpn) (b : option NMSettingVpn) (flags : Z)
  : NMTernary :=
  if NM_FLAGS_HAS flags NM_SETTING_COMPARE_FLAG_FUZZY then NM_TERNARY_DEFAULT
  else if NM_FLAGS_HAS flags NM_SETTING_COMPARE_FLAG_IGNORE_SECRETS then NM_TERNARY_DEFAULT
  else
    match b with
    | None => NM_TERNARY_TRUE
    | Some b =>
        if secrets_differ a b flags then NM_TERNARY_FALSE
        else if secrets_differ b a flags then NM_TERNARY_FALSE
        else NM_TERNARY_TRUE
    end.

(** [clear_secrets].  [param_spec_flags] are the flags of the property's
    [param_spec], if it has one; [func] sees the name of a secret and its
    flags and says whether the secret is to go. *)
Definition clear_secrets (param_spec_flags : option Z) (setting : NMSettingVpn)
    (func : option (string → Z → bool)) : NMSettingVpn * bool :=
  match param_spec_flags with
  | None => (setting, false)
  | Some flags =>
      if negb (NM_FLAGS_HAS flags NM_SETTING_PARAM_SECRET) then (setting, false)
      else
        match vpn_secrets setting with
        | None => (setting, false)
        | Some h =>
            let stays (secret : string) : bool :=
              match func with
              | Some f =>
                  negb (f secret (default NM_SETTING_SECRET_FLAG_NONE
                                    (get_secret_flags setting secret).2))
              | None => false
              end in
            (_notify (with_secrets setting (Some (filter (λ entry, stays entry.1 = true) h)))
                     PROP_SECRETS,
             true)
        end
  end.

(** One round of the loop of [vpn_secrets_from_dbus]. *)
Definition secrets_from_dbus_entry (setting : NMSettingVpn) (entry : string * string)
  : NMSettingVpn :=
  if negb (nonempty entry.1) then setting
  else with_secrets setting
         (Some (<[entry.1 := entry.2]> (_ensure_strdict (vpn_secrets setting)))).

(** [vpn_secrets_from_dbus]: the old table is dropped and the entries with a
    name are inserted in their order. *)
Definition vpn_secrets_from_dbus (setting : NMSettingVpn) (value : list (string * string))
  : NMSettingVpn * bool :=
  (_notify (foldl secrets_from_dbus_entry (with_secrets setting None) value) PROP_SECRETS,
   true).

(** [set_property] for [PROP_DATA] and [PROP_SECRETS]: the table is replaced
    by the entries of [src_hash] that have a name and a value. *)
Definition set_property_entry (p_hash : option (gmap string string))
    (entry : string * option string) : option (gmap string string) :=
  match entry.2 with
  | Some val =>
      if nonempty entry.1
      then Some (<[entry.1 := val]> (_ensure_strdict p_hash))
      else p_hash
  | None => p_hash
  end.

Definition set_property_strdict (src_hash : option (gmap string (option string)))
  : option (gmap string string) :=
  match src_hash with
  | None => None
  | Some src => foldl set_property_entry None (map_to_list src)
  end.

(** The case of [PROP_DATA] and [PROP_SECRETS] in [set_property]. *)
Definition set_property (setting : NMSettingVpn) (is_secrets : bool)
    (src_hash : option (gmap string (option string))) : NMSettingVpn :=
  if is_secrets
  then with_secrets setting (set_property_strdict src_hash)
  else with_data setting (set_property_strdict src_hash).

End vpn_secrets.

(** A stand-in for libnm-core on which the examples are evaluated: the
    parser knows the numbers 0 to 7. *)
Definition example_nm_setting_api : NmSettingApi := {|
  _nm_utils_ascii_str_to_int64 := λ str _ _ _ fallback,
    default fallback
      (snd <$> list_find (λ i, pretty i = str) (seqZ 0 8));
  NM_SETTING_SECRET_FLAG_ALL := 7;
  _nm_setting_secret_flags_valid := λ flags, (0 <=? flags) && (flags <=? 7);
  NM_SETTING_VPN_SECRETS := "secrets";
  _nm_setting_should_compare_secret_property := λ _ _ _ _, true;
|}.

(** The calls that change the tables of a VPN setting, and a setting's
    history as the list of the calls made on it since [nm_setting_vpn_new]. *)
Inductive vpn_call :=
| Call_add_data_item (key item : option string)
| Call_remove_data_item (key : option string)
| Call_add_secret (key secret : option string)
| Call_remove_secret (key : option string)
| Call_set_secret_flags (secret_name : string) (flags : N)
| Call_update_one_secret (key : option string) (value : option GVariant)
| Call_clear_secrets (param_spec_flags : option Z) (func : option (string → Z → bool))
| Call_secrets_from_dbus (value : list (string * string))
| Call_set_property (is_secrets : bool) (src_hash : option (gmap string (option string))).

Definition vpn_call_run `{!NmSettingApi} (setting : NMSettingVpn) (call : vpn_call)
  : NMSettingVpn :=
  match call with
  | Call_add_data_item key item => nm_setting_vpn_add_data_item setting key item
  | Call_remove_data_item key => (nm_setting_vpn_remove_data_item setting key).1
  | Call_add_secret key secret => nm_setting_vpn_add_secret setting key secret
  | Call_remove_secret key => (nm_setting_vpn_remove_secret setting key).1
  | Call_set_secret_flags secret_name flags =>
      (set_secret_flags setting secret_name flags).1
  | Call_update_one_secret key value => (update_one_secret setting key value).1
  | Call_clear_secrets param_spec_flags func =>
      (clear_secrets param_spec_flags setting func).1
  | Call_secrets_from_dbus value => (vpn_secrets_from_dbus setting value).1
  | Call_set_property is_secrets src_hash => set_property setting is_secrets src_hash
  end.

(** ** Traffic control: queueing disciplines ([nm-setting-tc-config.c]) *)

(** [strchr(s, c) != NULL]. *)
Fixpoint strchr (s : string) (c : ascii) : bool :=
  match s with
  | EmptyString => false
  | String d r => Ascii.eqb d c || strchr r c
  end.

Inductive tc_property := PROP_QDISCS | PROP_TFILTERS.

(** The errors of [nm_tc_qdisc_new], all
    [NM_CONNECTION_ERROR_INVALID_PROPERTY]. *)
Inductive tc_error :=
| Kind_is_missing
| Not_a_valid_kind (kind : string)
| Parent_handle_missing.

Section tc_config.
(** The values of the attributes are [GVariant]s; [g_variant_equal] holds of
    two of them when they have the same type and the same value. *)
Context {TcVariant : Type} `{!EqDecision TcVariant}.

Definition g_variant_equal (one two : TcVariant) : bool := bool_decide (one = two).

(** [struct NMTCQdisc] without its reference count; [qdisc_attributes] is
    [NULL] until the first call of [nm_tc_qdisc_set_attribute]. *)
Record NMTCQdisc := {
  qdisc_kind : string;
  qdisc_handle : Z;
  qdisc_parent : Z;
  qdisc_attributes : option (gmap string TcVariant);
}.

Definition nm_tc_qdisc_new (kind : option string) (parent : Z) : tc_error + NMTCQdisc :=
  match kind with
  | None => inl Kind_is_missing
  | Some kind =>
      if negb (nonempty kind) then inl Kind_is_missing
      else if strchr kind " " || strchr kind "009" then inl (Not_a_valid_kind kind)
      else if parent =? 0 then inl Parent_handle_missing
      else inr {| qdisc_kind := kind; qdisc_handle := 0; qdisc_parent := parent;
                  qdisc_attributes := None |}
  end.

Definition nm_tc_qdisc_set_handle (qdisc : NMTCQdisc) (handle : Z) : NMTCQdisc :=
  {| qdisc_kind := qdisc_kind qdisc; qdisc_handle := handle;
     qdisc_parent := qdisc_parent qdisc; qdisc_attributes := qdisc_attributes qdisc |}.

Definition nm_tc_qdisc_get_attribute (qdisc : NMTCQdisc) (name : option string)
  : option TcVariant :=
  match key_is_set name with
  | None => None
  | Some name => qdisc_attributes qdisc ≫= (λ attributes, attributes !! name)
  end.

(** A [NULL] or empty name and the name [kind] are refused; a [NULL] value
    clears the attribute.  The table is made in both cases. *)
Definition nm_tc_qdisc_set_attribute (qdisc : NMTCQdisc) (name : option string)
    (value : option TcVariant) : NMTCQdisc :=
  match key_is_set name with
  | None => qdisc
  | Some name =>
      if String.eqb name "kind" then qdisc
      else
        let attributes := default ∅ (qdisc_attributes qdisc) in
        {| qdisc_kind := qdisc_kind qdisc; qdisc_handle := qdisc_handle qdisc;
           qdisc_parent := qdisc_parent qdisc;
           qdisc_attributes :=
             Some match value with
                  | Some value => <[name := value]> attributes
                  | None => delete name attributes
                  end |}
  end.

(** [attributes ? g_hash_table_size(attributes) : 0]. *)
Definition attributes_size (attributes : option (gmap string TcVariant)) : nat :=
  match attributes with
  | Some attributes => size attributes
  | None => 0%nat
  end.

(** [nm_tc_qdisc_equal]; a [NULL] argument fails [g_return_val_if_fail]. *)
Definition nm_tc_qdisc_equal (qdisc other : option NMTCQdisc) : bool :=
  match qdisc, other with
  | Some qdisc, Some other =>
      if negb (qdisc_handle qdisc =? qdisc_handle other)
         || negb (qdisc_parent qdisc =? qdisc_parent other)
         || negb (String.eqb (qdisc_kind qdisc) (qdisc_kind other))
      then false
      else
        let n := attributes_size (qdisc_attributes qdisc) in
        if negb (n =? attributes_size (qdisc_attributes other))%nat then false
        else if (n =? 0)%nat then true
        else
          forallb (λ entry : string * TcVariant,
                     match qdisc_attributes other ≫= (λ attributes, attributes !! entry.1) with
                     | None => false
                     | Some value2 => g_variant_equal entry.2 value2
                     end)
                  (map_to_list (default ∅ (qdisc_attributes qdisc)))
  | _, _ => false
  end.

(** [nm_tc_qdisc_dup]; [None] is the [NULL] that it returns when
    [nm_tc_qdisc_new] refuses the kind or the parent. *)
Definition nm_tc_qdisc_dup (qdisc : NMTCQdisc) : option NMTCQdisc :=
  match nm_tc_qdisc_new (Some (qdisc_kind qdisc)) (qdisc_parent qdisc) with
  | inl _ => None
  | inr copy =>
      let copy := nm_tc_qdisc_set_handle copy (qdisc_handle qdisc) in
      Some match qdisc_attributes qdisc with
           | Some attributes =>
               foldl (λ copy (entry : string * TcVariant),
                        nm_tc_qdisc_set_attribute copy (Some entry.1) (Some entry.2))
                     copy (map_to_list attributes)
           | None => copy
           end
  end.

(** The queueing disciplines of [NMSettingTCConfig]: the pointer array, in
    which a [NULL] pointer is [None], and the log of the notifications. *)
Record NMSettingTCConfig := {
  tc_qdiscs : list (option NMTCQdisc);
  tc_notified : list tc_property;
}.

Definition nm_setting_tc_config_new : NMSettingTCConfig :=
  {| tc_qdiscs := []; tc_notified := [] |}.

Definition set_qdiscs (self : NMSettingTCConfig) (qdiscs : list (option NMTCQdisc))
  : NMSettingTCConfig :=
  {| tc_qdiscs := qdiscs; tc_notified := PROP_QDISCS :: tc_notified self |}.

Definition nm_setting_tc_config_get_num_qdiscs (self : NMSettingTCConfig) : nat :=
  length (tc_qdiscs self).

Definition nm_setting_tc_config_get_qdisc (self : NMSettingTCConfig) (idx : nat)
  : option NMTCQdisc :=
  mjoin (tc_qdiscs self !! idx).

Definition nm_setting_tc_config_add_qdisc (self : NMSettingTCConfig)
    (qdisc : option NMTCQdisc) : NMSettingTCConfig * bool :=
  match qdisc with
  | None => (self, false)
  | Some new_qdisc =>
      if existsb (λ known, nm_tc_qdisc_equal known qdisc) (tc_qdiscs self) then (self, false)
      else (set_qdiscs self (tc_qdiscs self ++ [nm_tc_qdisc_dup new_qdisc]), true)
  end.

Definition nm_setting_tc_config_remove_qdisc (self : NMSettingTCConfig) (idx : nat)
  : NMSettingTCConfig :=
  if (idx <? length (tc_qdiscs self))%nat then set_qdiscs self (delete idx (tc_qdiscs self))
  else self.

Definition nm_setting_tc_config_remove_qdisc_by_value (self : NMSettingTCConfig)
    (qdisc : option NMTCQdisc) : NMSettingTCConfig * bool :=
  match qdisc with
  | None => (self, false)
  | Some _ =>
      match list_find (λ known, nm_tc_qdisc_equal known qdisc = true) (tc_qdiscs self) with
      | Some (i, _) => (set_qdiscs self (delete i (tc_qdiscs self)), true)
      | None => (self, false)
      end
  end.

Definition nm_setting_tc_config_clear_qdiscs (self : NMSettingTCConfig) : NMSettingTCConfig :=
  if negb (length (tc_qdiscs self) =? 0)%nat then set_qdiscs self [] else self.

(** The first loop of [verify]: the qdiscs are added one by one to a hash
    set whose equality is [nm_tc_qdisc_equal]; [g_hash_table_add] returns
    [FALSE] for a key that the set holds already, and [verify] then fails
    with "there are duplicate TC qdiscs". *)
Fixpoint verify_qdiscs (ht qdiscs : list (option NMTCQdisc)) : bool :=
  match qdiscs with
  | [] => true
  | qdisc :: rest =>
      if existsb (λ known, nm_tc_qdisc_equal known qdisc) ht then false
      else verify_qdiscs (qdisc :: ht) rest
  end.

(** [compare_fcn_qdiscs]: [TRUE] and [FALSE] of [NMTernary]. *)
Definition compare_fcn_qdiscs (a_tc_config : NMSettingTCConfig)
    (b_tc_config : option NMSettingTCConfig) : NMTernary :=
  match b_tc_config with
  | None => NM_TERNARY_TRUE
  | Some b_tc_config =>
      if negb (length (tc_qdiscs a_tc_config) =? length (tc_qdiscs b_tc_config))%nat
      then NM_TERNARY_FALSE
      else if forallb (λ pair, nm_tc_qdisc_equal pair.1 pair.2)
                      (zip (tc_qdiscs a_tc_config) (tc_qdiscs b_tc_config))
      then NM_TERNARY_TRUE else NM_TERNARY_FALSE
  end.

End tc_config.

Arguments NMTCQdisc : clear implicits.
Arguments NMSettingTCConfig : clear implicits.

(** The calls that change a qdisc after [nm_tc_qdisc_new]. *)
Inductive qdisc_call {TcVariant : Type} :=
| Qdisc_set_handle (handle : Z)
| Qdisc_set_attribute (name : option string) (value : option TcVariant).
Arguments qdisc_call : clear implicits.

Definition qdisc_call_run {TcVariant : Type} (qdisc : NMTCQdisc TcVariant)
    (call : qdisc_call TcVariant) : NMTCQdisc TcVariant :=
  match call with
  | Qdisc_set_handle handle => nm_tc_qdisc_set_handle qdisc handle
  | Qdisc_set_attribute name value => nm_tc_qdisc_set_attribute qdisc name value
  end.

(** * Part II: properties *)

(** An equation between closed terms, settled by evaluating both sides. *)
Ltac by_computation :=
  lazymatch goal with
  | |- ?x = ?y => vm_cast_no_check (@eq_refl _ y)
  end.

(** ** Strings *)

Lemma string_app_cons (c : ascii) (s t : string) : String c s +:+ t = String c (s +:+ t).
Proof. reflexivity. Qed.

Lemma string_app_nil_l (t : string) : EmptyString +:+ t = t.
Proof. reflexivity. Qed.

Lemma string_app_nil_r (s : string) : s +:+ EmptyString = s.
Proof. induction s as [|c s IH]; [done | by rewrite string_app_cons, IH]. Qed.

Lemma string_app_assoc (s t u : string) : (s +:+ t) +:+ u = s +:+ t +:+ u.
Proof. induction s as [|c s IH]; [done | by rewrite !string_app_cons, IH]. Qed.

Lemma string_length_app (s t : string) :
  String.length (s +:+ t) = (String.length s + String.length t)%nat.
Proof. induction s as [|c s IH]; [done | rewrite string_app_cons; simpl; by rewrite IH]. Qed.

Lemma substring_all (s : string) : substring 0 (String.length s) s = s.
Proof. induction s as [|c s IH]; simpl; [done | by rewrite IH]. Qed.

Lemma substring_app_l (s t : string) : substring 0 (String.length s) (s +:+ t) = s.
Proof.
  induction s as [|c s IH]; [by destruct t | rewrite string_app_cons; simpl; by rewrite IH].
Qed.

Lemma substring_app_r (s t : string) :
  substring (String.length s) (String.length t) (s +:+ t) = t.
Proof. induction s as [|c s IH]; [apply substring_all | by rewrite string_app_cons]. Qed.

Lemma substring_split (s : string) (n : nat) :
  (n ≤ String.length s)%nat →
  s = substring 0 n s +:+ substring n (String.length s - n) s.
Proof.
  revert n. induction s as [|c s IH]; intros [|n] Hn; simpl in *; try lia.
  - done.
  - by rewrite string_app_nil_l, substring_all.
  - rewrite string_app_cons. f_equal. apply IH. lia.
Qed.

Lemma length_substring (s : string) (n m : nat) :
  (n + m ≤ String.length s)%nat → String.length (substring n m s) = m.
Proof.
  revert n m. induction s as [|c s IH]; intros [|n] [|m] Hn; simpl in *; try lia.
  - f_equal. apply (IH 0%nat). lia.
  - apply (IH n 0%nat). lia.
  - apply (IH n (S m)). lia.
Qed.

Lemma drop_last_snoc (s : string) (c : ascii) :
  drop_last (s +:+ String c EmptyString) = s.
Proof.
  induction s as [|d s IH]; [done|].
  rewrite string_app_cons. simpl. rewrite IH. by destruct s.
Qed.

Lemma strip_trailing_snoc (s : string) (c : ascii) :
  c ≠ "/"%char →
  strip_trailing_slashes (s +:+ String c EmptyString) = s +:+ String c EmptyString.
Proof.
  intros Hc. induction s as [|d s IH].
  - simpl. by destruct (Ascii.eqb_spec c "/").
  - rewrite string_app_cons. simpl. rewrite IH. by destruct s.
Qed.

Lemma trailing_slashes_snoc (s : string) (c : ascii) :
  c ≠ "/"%char → trailing_slashes (s +:+ String c EmptyString) = EmptyString.
Proof.
  intros Hc. induction s as [|d s IH].
  - simpl. by destruct (Ascii.eqb_spec c "/").
  - rewrite string_app_cons. cbn [trailing_slashes]. rewrite <- string_app_cons.
    rewrite strip_trailing_snoc by done. rewrite string_app_cons. done.
Qed.

(** Stripping the leading slashes of a text that ends in another character
    leaves that end, whatever follows it. *)
Lemma strip_leading_snoc (s : string) (c : ascii) :
  c ≠ "/"%char →
  ∃ h, ∀ t, strip_leading_slashes (s +:+ String c t) = h +:+ String c t.
Proof.
  intros Hc. induction s as [|d s [h IH]].
  - exists EmptyString. intros t. simpl. by destruct (Ascii.eqb_spec c "/").
  - destruct (Ascii.eqb_spec d "/") as [->|Hd].
    + exists h. intros t. rewrite string_app_cons. simpl. apply IH.
    + exists (String d s). intros t. rewrite string_app_cons. simpl.
      by destruct (Ascii.eqb_spec d "/").
Qed.

Lemma nonempty_app_r (s t : string) : nonempty t = true → nonempty (s +:+ t) = true.
Proof. destruct s, t; done. Qed.

(** A file name keeps its temp marker through [g_build_filename]. *)
Lemma g_build_filename_temp_marker (dirname file : string) (c : ascii) :
  c ≠ "/"%char →
  g_build_filename [dirname; file +:+ String c "~"]
  = g_build_filename [dirname; file +:+ String c EmptyString] +:+ "~".
Proof.
  intros Hc.
  assert (Hne : ∀ t, nonempty (file +:+ String c t) = true)
    by (intros t; by apply nonempty_app_r).
  destruct (strip_leading_snoc file c Hc) as [h Hh].
  unfold g_build_filename. cbn [filter list_filter].
  rewrite !(decide_True _ _ (Hne _)).
  destruct (decide (nonempty dirname = true)) as [Hd|Hd].
  2:{ by rewrite string_app_assoc. }
  cbn [map List.last filter list_filter].
  rewrite !Hh.
  assert (Hs : ∀ x, strip_trailing_slashes (x +:+ String c "~") = x +:+ String c "~").
  { intros x. change (String c "~") with (String c "" +:+ "~").
    rewrite <- string_app_assoc. by apply strip_trailing_snoc. }
  assert (Ht : ∀ x, trailing_slashes (x +:+ String c "~") = "").
  { intros x. change (String c "~") with (String c "" +:+ "~").
    rewrite <- string_app_assoc. by apply trailing_slashes_snoc. }
  rewrite Hs, Ht, (strip_trailing_snoc h c), (trailing_slashes_snoc file c) by done.
  rewrite (decide_True _ _ (nonempty_app_r h (String c "~") eq_refl)).
  rewrite (decide_True _ _ (nonempty_app_r h (String c "") eq_refl)).
  rewrite !string_app_nil_r.
  destruct (decide (nonempty _ = true)); cbn [join_slash];
    by rewrite !string_app_assoc.
Qed.

(** ** Sidecar file names *)

Lemma last_char_snoc (s : string) (c : ascii) :
  last_char (s +:+ String c EmptyString) = Some c.
Proof.
  induction s as [|d s IH]; [done|].
  rewrite string_app_cons. simpl. rewrite IH. by destruct s.
Qed.

Lemma after_last_slash_snoc (s : string) (c : ascii) :
  c ≠ "/"%char →
  after_last_slash (s +:+ String c EmptyString)
  = (λ t, t +:+ String c EmptyString) <$> after_last_slash s.
Proof.
  intros Hc. induction s as [|d s IH].
  - simpl. by destruct (Ascii.eqb_spec c "/").
  - rewrite string_app_cons. simpl. rewrite IH.
    destruct (after_last_slash s); simpl; [done|].
    by destruct (Ascii.eqb d "/").
Qed.

Lemma base_name_snoc (s : string) (c : ascii) :
  c ≠ "/"%char → base_name (s +:+ String c EmptyString) = base_name s +:+ String c EmptyString.
Proof.
  intros Hc. unfold base_name. rewrite after_last_slash_snoc by done.
  by destruct (after_last_slash s).
Qed.

Section sidecar_name_facts.
Context `{!Libnm}.

Lemma check_filename_inv (filename base : string) (n : nat) :
  nms_keyfile_nmmeta_check_filename filename = Some (base, n) →
  n = 36%nat ∧ base = base_name filename ∧ sidecar_shape base.
Proof.
  unfold nms_keyfile_nmmeta_check_filename.
  fold (base_name filename).
  change (match after_last_slash filename with Some t => t | None => filename end)
    with (base_name filename).
  set (f := base_name filename).
  destruct (String.length f <=? NM_STRLEN_SUFFIX_NMMETA)%nat eqn:Hle; [done|].
  apply Nat.leb_gt in Hle.
  destruct (String.eqb_spec
              (substring (String.length f - NM_STRLEN_SUFFIX_NMMETA) NM_STRLEN_SUFFIX_NMMETA f)
              NM_KEYFILE_PATH_SUFFIX_NMMETA) as [Hsuf|]; [|done].
  cbn [orb negb].
  destruct (Nat.eqb_spec (String.length f - NM_STRLEN_SUFFIX_NMMETA) 36) as [H36|]; [|done].
  cbn [negb].
  destruct (nm_uuid_is_normalized (substring 0 36 f)) eqn:Hn; [|done].
  cbn [negb]. intros [= <- <-]. split; [done|]. split; [done|].
  exists (substring 0 36 f). split; [|split; [|done]].
  - rewrite <- Hsuf, <- H36.
    rewrite (substring_split f (String.length f - NM_STRLEN_SUFFIX_NMMETA)) at 1 by lia.
    do 2 f_equal. lia.
  - apply length_substring. lia.
Qed.

Lemma check_filename_shape (filename : string) :
  sidecar_shape (base_name filename) →
  nms_keyfile_nmmeta_check_filename filename = Some (base_name filename, 36%nat).
Proof.
  intros (uuid & Hb & Hlen & Hn).
  assert (Hl : String.length (base_name filename) = 43%nat)
    by (rewrite Hb, string_length_app, Hlen; reflexivity).
  assert (Hsuf : substring (43 - NM_STRLEN_SUFFIX_NMMETA) NM_STRLEN_SUFFIX_NMMETA
                           (base_name filename) = NM_KEYFILE_PATH_SUFFIX_NMMETA).
  { rewrite Hb. change (43 - NM_STRLEN_SUFFIX_NMMETA)%nat with 36%nat. rewrite <- Hlen.
    apply substring_app_r. }
  assert (Hu : substring 0 36 (base_name filename) = uuid).
  { rewrite Hb, <- Hlen. apply substring_app_l. }
  unfold nms_keyfile_nmmeta_check_filename.
  change (match after_last_slash filename with Some t => t | None => filename end)
    with (base_name filename).
  rewrite Hl, Hsuf, Hu, Hn. reflexivity.
Qed.

Lemma check_filename_temp_marker (filename : string) :
  nms_keyfile_nmmeta_check_filename (filename +:+ "~") = None.
Proof.
  destruct (nms_keyfile_nmmeta_check_filename (filename +:+ "~")) as [[base n]|] eqn:Hc; [|done].
  apply check_filename_inv in Hc as (_ & Hb & uuid & Hs & _).
  rewrite base_name_snoc in Hb by done. rewrite Hb in Hs.
  apply (f_equal last_char) in Hs.
  change NM_KEYFILE_PATH_SUFFIX_NMMETA with (".nmmet" +:+ "a") in Hs.
  rewrite <- string_app_assoc, !last_char_snoc in Hs. done.
Qed.

(** C8, as amended.  The file name check accepts exactly the names whose
    base name (the text after the last slash) is a 36 character normalized
    uuid followed by the suffix [.nmmeta]; it hands back that base name and
    the length 36.  Every other name is refused, and so is every name that
    ends in the temp marker [~]. *)
Theorem nmmeta_check_filename_accepts_exactly (filename : string) :
  (is_Some (nms_keyfile_nmmeta_check_filename filename)
   ↔ sidecar_shape (base_name filename))
  ∧ (∀ base n, nms_keyfile_nmmeta_check_filename filename = Some (base, n)
               → base = base_name filename ∧ n = 36%nat)
  ∧ nms_keyfile_nmmeta_check_filename (filename +:+ "~") = None.
Proof.
  split; [split|split].
  - intros [[base n] Hc]. apply check_filename_inv in Hc as (_ & -> & Hs). done.
  - intros Hs. rewrite check_filename_shape by done. eauto.
  - intros base n Hc. apply check_filename_inv in Hc. tauto.
  - apply check_filename_temp_marker.
Qed.

End sidecar_name_facts.

(** C8, as the claim states it, fails: the name of a temp file has the
    shape "uuid, suffix, optional [~]", and the check refuses it. *)
Lemma temp_marker_is_refused :
  @sidecar_shape_with_temp_marker example_libnm "11111111-1111-4111-8111-111111111111.nmmeta~"
  ∧ @nms_keyfile_nmmeta_check_filename example_libnm
      "11111111-1111-4111-8111-111111111111.nmmeta~" = None.
Proof.
  split; [|reflexivity].
  right. exists "11111111-1111-4111-8111-111111111111.nmmeta". split; [reflexivity|].
  exists "11111111-1111-4111-8111-111111111111". split; [reflexivity|]. split; reflexivity.
Qed.

(** ** The permission and ownership validator *)

Section check_file_permissions_facts.
Context `{!Libnm}.

(** C5.  The validator accepts a file exactly when its type fits (a regular
    file for a keyfile; a regular file or a symbolic link for a sidecar
    record) and, unless the test-only override flag is set, its owner is
    root or the service uid and, for a regular file, no group or other
    permission bit is set.  So without the override every file of another
    owner is refused, every regular file with group or other bits is
    refused, and a regular keyfile of another owner is refused as having an
    insecure owner, whatever it contains: the validator sees only the
    [stat] buffer. *)
Theorem check_file_permissions_stat_spec (filetype : NMSKeyfileFiletype) (st : stat) :
  let override := NM_FLAGS_HAS nm_utils_get_testing NM_UTILS_TEST_NO_KEYFILE_OWNER_CHECK in
  let check := nms_keyfile_utils_check_file_permissions_stat filetype st in
  (check = None
   ↔ match filetype with
     | NMS_KEYFILE_FILETYPE_KEYFILE => S_ISREG (st_mode st) = true
     | NMS_KEYFILE_FILETYPE_NMMETA =>
         S_ISREG (st_mode st) = true ∨ S_ISLNK (st_mode st) = true
     | NMS_KEYFILE_FILETYPE_other => False
     end
     ∧ (override = false
        → (st_uid st = 0 ∨ st_uid st = nm_utils_get_nm_uid)
          ∧ (S_ISREG (st_mode st) = true → Z.land (st_mode st) 63 = 0)))
  ∧ (override = false → st_uid st ≠ 0 → st_uid st ≠ nm_utils_get_nm_uid
     → is_Some check)
  ∧ (override = false → S_ISREG (st_mode st) = true → Z.land (st_mode st) 63 ≠ 0
     → is_Some check)
  ∧ (filetype = NMS_KEYFILE_FILETYPE_KEYFILE → S_ISREG (st_mode st) = false
     → check = Some Not_a_regular_file)
  ∧ (filetype = NMS_KEYFILE_FILETYPE_NMMETA
     → S_ISREG (st_mode st) = false → S_ISLNK (st_mode st) = false
     → check = Some Neither_symlink_nor_regular_file)
  ∧ (filetype = NMS_KEYFILE_FILETYPE_KEYFILE → S_ISREG (st_mode st) = true
     → override = false → st_uid st ≠ 0 → st_uid st ≠ nm_utils_get_nm_uid
     → check = Some (File_owner_insecure (st_uid st))).
Proof.
  intros override check. subst override check.
  unfold nms_keyfile_utils_check_file_permissions_stat.
  destruct (NM_FLAGS_HAS _ _) eqn:Hflag;
    destruct (S_ISREG (st_mode st)) eqn:Hreg;
    destruct (S_ISLNK (st_mode st)) eqn:Hlnk;
    destruct (Z.eqb_spec (st_uid st) 0) as [Hroot|Hroot];
    destruct (Z.eqb_spec (st_uid st) nm_utils_get_nm_uid) as [Hnm|Hnm];
    destruct (Z.eqb_spec (Z.land (st_mode st) 63) 0) as [Hperm|Hperm];
    destruct filetype; cbn [negb andb orb];
    (split; [split; [intros Hc; try discriminate Hc; repeat split; auto; try (intros [=])
                    | intros [Ht Ho]; try done; try (by destruct Ht);
                      try (destruct (Ho eq_refl) as [[?|?] Hp]; try done;
                           by specialize (Hp eq_refl))]
            | repeat split; intros; try done; try (by eexists) ]);
    intros; first [discriminate | congruence | by left | by right].
Qed.

End check_file_permissions_facts.

(** A regular file with mode 0600 that belongs to uid 1000 is refused. *)
Example foreign_owner_is_refused :
  @nms_keyfile_utils_check_file_permissions_stat example_libnm NMS_KEYFILE_FILETYPE_KEYFILE
    {| st_mode := Z.lor S_IFREG 384; st_uid := 1000; st_gid := 1000 |}
  = Some (File_owner_insecure 1000).
Proof. reflexivity. Qed.

(** A root-owned regular file with mode 0644 is refused; with 0600 it passes. *)
Example group_other_bits_are_refused :
  @nms_keyfile_utils_check_file_permissions_stat example_libnm NMS_KEYFILE_FILETYPE_KEYFILE
    {| st_mode := Z.lor S_IFREG 420; st_uid := 0; st_gid := 0 |}
  = Some (File_permissions_insecure (Z.lor S_IFREG 420))
  ∧ @nms_keyfile_utils_check_file_permissions_stat example_libnm NMS_KEYFILE_FILETYPE_KEYFILE
      {| st_mode := Z.lor S_IFREG 384; st_uid := 0; st_gid := 0 |}
    = None.
Proof. split; reflexivity. Qed.

(** ** The VPN setting's data items *)

Lemma key_is_set_Some (key : string) : key ≠ EmptyString → key_is_set (Some key) = Some key.
Proof. by destruct key. Qed.

(** C10.  For a non-empty key, adding the item [NULL] is removing the item:
    the setting is left as [nm_setting_vpn_remove_data_item] leaves it, the
    key has no item afterwards, no other key is touched and no item is
    added. *)
Theorem add_null_data_item_removes (setting : NMSettingVpn) (key : string) :
  key ≠ EmptyString →
  let setting' := nm_setting_vpn_add_data_item setting (Some key) None in
  setting' = (nm_setting_vpn_remove_data_item setting (Some key)).1
  ∧ nm_setting_vpn_get_data_item setting' (Some key) = None
  ∧ (∀ other, other ≠ key →
       nm_setting_vpn_get_data_item setting' (Some other)
       = nm_setting_vpn_get_data_item setting (Some other))
  ∧ (nm_setting_vpn_get_num_data_items setting'
     ≤ nm_setting_vpn_get_num_data_items setting)%nat.
Proof.
  intros Hkey setting'. subst setting'.
  unfold nm_setting_vpn_add_data_item, nm_setting_vpn_remove_data_item,
    nm_setting_vpn_get_data_item, nm_setting_vpn_get_num_data_items.
  rewrite key_is_set_Some by done.
  destruct (vpn_data setting) as [h|] eqn:Hdata; cbn.
  - destruct (h !! key) as [item|] eqn:Hitem; cbn.
    + split; [done|]. split; [apply lookup_delete_eq|]. split.
      * intros other Hother. destruct (nonempty other); [|done].
        by rewrite lookup_delete_ne.
      * rewrite map_size_delete, Hitem. lia.
    + rewrite Hdata. cbn. split; [done|]. split; [done|]. split; [done|lia].
  - rewrite Hdata. cbn. done.
Qed.

(** After [add(NULL)] the key "gateway" is gone, as after [remove], and the
    key "proto" is still there. *)
Lemma add_null_data_item_removes_witness :
  let setting :=
    {| vpn_service_type := Some "org.freedesktop.NetworkManager.openvpn";
       vpn_user_name := None;
       vpn_data := Some {[ "gateway" := "vpn.example.org"; "proto" := "udp" ]};
       vpn_secrets := None; vpn_timeout := 0; vpn_persistent := false;
       vpn_notified := [] |} in
  let setting' := nm_setting_vpn_add_data_item setting (Some "gateway") None in
  nm_setting_vpn_get_data_item setting (Some "gateway") = Some "vpn.example.org"
  ∧ nm_setting_vpn_get_data_item setting' (Some "gateway") = None
  ∧ nm_setting_vpn_get_data_item setting' (Some "proto") = Some "udp"
  ∧ setting' = (nm_setting_vpn_remove_data_item setting (Some "gateway")).1.
Proof.
  intros setting setting'. subst setting'.
  pose proof (add_null_data_item_removes setting "gateway" ltac:(done)) as (H1 & H2 & H3 & _).
  split; [reflexivity|]. split; [exact H2|]. split; [|exact H1].
  rewrite (H3 "proto") by done. reflexivity.
Defined.

(** ** System calls *)

Section os_call_facts.
Context `{!Os}.

Lemma errno_of_nonzero (r : os_refusal) : errno_of r ≠ 0.
Proof. by destruct r. Qed.



(** [unlink] touches no other name. *)
Lemma unlink_other (p q : string) (fs : filesystem) :
  p ≠ q → (unlink p fs).1 !! q = fs !! q.
Proof.
  intros Hne. unfold unlink.
  destruct (os_fault SYS_unlink p); [done|].
  destruct (fs !! p) as [n|]; [|done].
  destruct (S_ISDIR _); [done|]. by apply lookup_delete_ne.
Qed.

(** If nothing refuses it, [unlink] removes whatever is not a directory. *)
Lemma unlink_removes (p : string) (fs : filesystem) :
  os_fault SYS_unlink p = None →
  (∀ n, fs !! p = Some n → S_ISDIR (st_mode (i_stat n)) = false) →
  (unlink p fs).1 !! p = None.
Proof.
  intros Hf Hn. unfold unlink. rewrite Hf.
  destruct (fs !! p) as [n|] eqn:Hp; [|done].
  rewrite (Hn n) by done. apply lookup_delete_eq.
Qed.

End os_call_facts.

(** ** The sidecar codec *)

Section nmmeta_facts.
Context `{!Os, !Libnm, !GKeyFileApi}.

(** The temp name is the final name with [~] at its end. *)
Lemma nmmeta_filename_temporary (dirname uuid : string) :
  nms_keyfile_nmmeta_filename dirname uuid true
  = nms_keyfile_nmmeta_filename dirname uuid false +:+ "~".
Proof.
  unfold nms_keyfile_nmmeta_filename.
  change NM_KEYFILE_PATH_SUFFIX_NMMETA with (".nmmet" +:+ String "a" EmptyString).
  rewrite !string_app_nil_r, <- !string_app_assoc.
  rewrite <- (g_build_filename_temp_marker dirname (uuid +:+ ".nmmet") "a") by done.
  by rewrite !string_app_assoc.
Qed.



End nmmeta_facts.


(** ** Following links *)

Lemma regular_file_is_regular (text : string) (uid gid : Z) :
  S_ISREG (st_mode (i_stat (regular_file text 384 uid gid))) = true
  ∧ S_ISLNK (st_mode (i_stat (regular_file text 384 uid gid))) = false
  ∧ S_ISDIR (st_mode (i_stat (regular_file text 384 uid gid))) = false.
Proof. done. Qed.

Lemma S_ISREG_not_link (m : Z) : S_ISREG m = true → S_ISLNK m = false.
Proof.
  unfold S_ISREG, S_ISLNK. intros Hr%Z.eqb_eq. rewrite Hr. done.
Qed.

Lemma S_ISREG_not_dir (m : Z) : S_ISREG m = true → S_ISDIR m = false.
Proof.
  unfold S_ISREG, S_ISDIR. intros Hr%Z.eqb_eq. rewrite Hr. done.
Qed.

(** What is not a link resolves to itself. *)
Lemma resolve_not_link (fs : filesystem) (p : string) (n : inode) :
  fs !! p = Some n → S_ISLNK (st_mode (i_stat n)) = false → resolve fs p = Some p.
Proof. intros Hp Hl. unfold resolve. cbn. by rewrite Hp, Hl. Qed.

Lemma resolve_links_is_Some (k : nat) (fs : filesystem) (p q : string) :
  resolve_links k fs p = Some q → is_Some (fs !! p).
Proof. destruct k; [done|]. cbn. destruct (fs !! p); [eauto | done]. Qed.

(** Putting an object [n] that is no link under [q] changes a resolution
    only by ending it at [q]. *)
Lemma resolve_links_insert (k : nat) (fs : filesystem) (q p : string) (n : inode) :
  S_ISLNK (st_mode (i_stat n)) = false →
  resolve_links k (<[q := n]> fs) p = Some q
  ∨ (resolve_links k (<[q := n]> fs) p = resolve_links k fs p
     ∧ resolve_links k fs p ≠ Some q).
Proof.
  intros Hn. revert p. induction k as [|k IH]; intros p; [by right|].
  cbn. destruct (decide (q = p)) as [->|Hne].
  - left. by rewrite lookup_insert_eq, Hn.
  - rewrite lookup_insert_ne by done.
    destruct (fs !! p) as [m|]; [|by right].
    destruct (S_ISLNK (st_mode (i_stat m))); [apply IH|].
    right. split; [done|]. congruence.
Qed.

(** So a file read through links has its old content or the new one. *)
Lemma g_file_get_contents_insert (fs : filesystem) (q p text : string) (uid gid : Z) :
  g_file_get_contents (<[q := regular_file text 384 uid gid]> fs) p = Some text
  ∨ g_file_get_contents (<[q := regular_file text 384 uid gid]> fs) p
    = g_file_get_contents fs p.
Proof.
  unfold g_file_get_contents, resolve.
  destruct (resolve_links_insert (S MAXSYMLINKS) fs q p (regular_file text 384 uid gid))
    as [Hq|[Hsame Hnq]]; [done| |].
  - left. rewrite Hq. cbn. by rewrite lookup_insert_eq.
  - right. rewrite Hsame. destruct (resolve_links _ fs p) as [r|]; [|done].
    cbn. rewrite lookup_insert_ne; [done|]. congruence.
Qed.

Lemma g_file_get_contents_regular (fs : filesystem) (p text : string) (uid gid : Z) :
  fs !! p = Some (regular_file text 384 uid gid) → g_file_get_contents fs p = Some text.
Proof.
  intros Hp. unfold g_file_get_contents.
  erewrite resolve_not_link by done. cbn. by rewrite Hp.
Qed.

Lemma g_file_get_contents_is_Some (fs : filesystem) (p text : string) :
  g_file_get_contents fs p = Some text → is_Some (fs !! p).
Proof.
  unfold g_file_get_contents, resolve.
  destruct (resolve_links _ fs p) as [r|] eqn:Hr; [|done].
  intros _. by eapply resolve_links_is_Some.
Qed.

(** ** The interface-name fixup *)

(** The file that [g_key_file_save_to_file] creates under [umask(077)] has
    the mode 0600. *)
Lemma creation_mode_077 : creation_mode 438 63 = 384.
Proof. reflexivity. Qed.

(** A missing directory is an error. *)
Lemma parent_error_nonzero (fs : filesystem) (p : string) (e : Z) :
  parent_error fs p = Some e → e ≠ 0.
Proof.
  unfold parent_error. destruct (bool_decide _); [done|].
  induction (path_prefixes _) as [|fn rest IH]; [done|]. cbn [missing_directory].
  destruct (stat_follow fs fn) as [st|]; [|by intros [= <-]].
  destruct (S_ISDIR _); [done | by intros [= <-]].
Qed.

Section fixup_facts.
Context `{!Os, !GKeyFileApi}.

#[local] Abbreviation carries := carries_auto_generated_interface_name.
#[local] Abbreviation text_carries := text_carries_auto_generated_interface_name.

(** The mask that a round of the loop was entered with decides nothing but
    the mask that it leaves: the one it found when it goes on, 077 when it
    returns early. *)
Lemma fix_one_file_mask (file : string) (mask : Z) (fs : filesystem) :
  fix_one_file file mask fs
  = let r := fix_one_file file 0 fs in (r.1.1, if r.2 then mask else 63, r.2).
Proof.
  unfold fix_one_file.
  destruct (g_key_file_get_string _ _ _) as [iface|]; [|done].
  destruct (_ && _); [|done]. unfold umask. cbn [fst].
  destruct (g_key_file_save_to_file _ file 63 fs) as [fs' []]; done.
Qed.

Lemma fix_each_file_mask (gl_pathv : list string) (mask : Z) (fs : filesystem) :
  fix_each_file gl_pathv mask fs
  = let r := fix_each_file gl_pathv 0 fs in (r.1.1, if r.2 then mask else 63, r.2).
Proof.
  revert mask fs. induction gl_pathv as [|file rest IH]; intros mask fs; [done|].
  cbn [fix_each_file]. rewrite (fix_one_file_mask file mask).
  destruct (fix_one_file file 0 fs) as [[fs1 mask1] ok1] eqn:Hone. cbn [fst snd].
  rewrite (fix_one_file_mask file 0) in Hone. cbn zeta in Hone.
  destruct ok1; [|done].
  injection Hone as _ Hmask Hok. rewrite Hok in Hmask. subst mask1.
  apply IH.
Qed.

(** A file that does not carry such a name is left alone. *)
Lemma fix_one_file_clean (file : string) (mask : Z) (fs : filesystem) :
  carries file fs = false → fix_one_file file mask fs = (fs, mask, true).
Proof.
  unfold carries, auto_generated_interface_name, fix_one_file.
  destruct (g_key_file_get_string _ _ _); [|done]. by intros ->.
Qed.

Section settled.
Hypothesis new_has_no_key :
  g_key_file_get_string g_key_file_new "connection" "interface-name" = None.

(** What a file carries is what its text carries. *)
Lemma carries_text (file : string) (fs : filesystem) :
  carries file fs
  = match g_file_get_contents fs file with
    | Some text => text_carries text
    | None => false
    end.
Proof.
  unfold carries, g_key_file_load_from_file, text_carries.
  destruct (g_file_get_contents fs file); [done|]. cbn [fst]. by rewrite new_has_no_key.
Qed.

(** A round of the loop fails without a change to the files, or it goes on
    and then the file carries no such name and at most that file has
    changed. *)
Lemma fix_one_file_inv (names : list string) (file : string) (mask mask' : Z)
    (fs fs' : filesystem) (ok : bool) :
  file ∈ names → settled names fs →
  fix_one_file file mask fs = (fs', mask', ok) →
  if ok then
    carries file fs' = false
    ∧ (∀ p, carries p fs = false → carries p fs' = false)
    ∧ (∀ p, fs' !! p ≠ fs !! p → p = file ∧ carries file fs = true)
    ∧ dom fs' = dom fs
    ∧ settled names fs'
    ∧ mask' = mask
  else fs' = fs ∧ mask' = 63.
Proof.
  intros Hin Hsettled.
  destruct (carries file fs) eqn:Hc.
  2:{ rewrite fix_one_file_clean by done. intros [= <- <- <-]. done. }
  pose proof Hc as Hcarries. rewrite carries_text in Hc.
  destruct (g_file_get_contents fs file) as [text|] eqn:Htext; [|done].
  pose proof (Hsettled file text Hin Htext) as Hs. unfold rewrite_settles in Hs.
  rewrite Hc in Hs.
  unfold fix_one_file, g_key_file_load_from_file. rewrite Htext.
  unfold text_carries, auto_generated_interface_name in Hc.
  set (kf := (g_key_file_load_from_data G_KEY_FILE_KEEP_COMMENTS text).1) in *.
  destruct (g_key_file_get_string kf _ _) as [iface|]; [|done].
  rewrite Hc. unfold umask, g_key_file_save_to_file. rewrite creation_mode_077.
  destruct (g_key_file_to_data _) as [saved|]; [|by intros [= <- <- <-]].
  apply negb_true_iff in Hs.
  destruct (file_set_contents file saved 384 fs) as [fs1 e] eqn:Hw.
  unfold file_set_contents in Hw.
  destruct (os_fault SYS_write file) as [r|].
  { injection Hw as <- <-. destruct r; by intros [= <- <- <-]. }
  destruct (parent_error fs file) as [e'|] eqn:Hparent.
  { injection Hw as <- <-. apply parent_error_nonzero in Hparent.
    destruct (Z.eqb_spec e' 0); [done|]. by intros [= <- <- <-]. }
  assert (Hfile : is_Some (fs !! file)) by (by eapply g_file_get_contents_is_Some).
  destruct Hfile as [n Hn]. rewrite Hn in Hw.
  destruct (S_ISDIR _); injection Hw as <- <-; [by intros [= <- <- <-]|].
  change (0 =? 0) with true. cbn [negb fst]. intros [= <- <- <-].
  assert (Hafter : ∀ p, g_file_get_contents
                          (<[file := regular_file saved 384 geteuid getegid]> fs) p = Some saved
                        ∨ g_file_get_contents
                            (<[file := regular_file saved 384 geteuid getegid]> fs) p
                          = g_file_get_contents fs p)
    by (intros p; apply g_file_get_contents_insert).
  split; [|split; [|split; [|split; [|split]]]].
  - rewrite carries_text.
    by erewrite g_file_get_contents_regular by apply lookup_insert_eq.
  - intros p. rewrite !carries_text. by destruct (Hafter p) as [-> | ->].
  - intros p Hp. destruct (decide (file = p)) as [<-|Hne]; [done|].
    by rewrite lookup_insert_ne in Hp.
  - apply dom_insert_lookup_L. eauto.
  - intros p t Hp. destruct (Hafter p) as [-> | ->]; [|by apply Hsettled].
    intros [= <-]. unfold rewrite_settles. by rewrite Hs.
  - done.
Qed.

Lemma fix_each_file_inv (names gl_pathv : list string) (mask mask' : Z)
    (fs fs' : filesystem) (ok : bool) :
  gl_pathv ⊆ names → settled names fs →
  fix_each_file gl_pathv mask fs = (fs', mask', ok) →
  (∀ p, carries p fs = false → carries p fs' = false)
  ∧ (∀ p, fs' !! p ≠ fs !! p → carries p fs = true ∧ carries p fs' = false)
  ∧ dom fs' = dom fs
  ∧ mask' = (if ok then mask else 63).
Proof.
  revert mask fs. induction gl_pathv as [|file rest IH]; intros mask fs Hsub Hsettled; cbn.
  { intros [= <- <- <-]. done. }
  destruct (fix_one_file file mask fs) as [[fs1 mask1] ok1] eqn:Hone.
  apply (fix_one_file_inv names) in Hone; [|apply Hsub; left|done].
  destruct ok1.
  2:{ destruct Hone as [-> ->]. intros [= <- <- <-]. done. }
  destruct Hone as (Hclean & Hkeep & Hchg & Hdom & Hsettled1 & ->).
  intros Hrest.
  destruct (IH mask fs1) as (Hkeep' & Hchg' & Hdom' & Hmask); [|done..|].
  { intros f Hf. apply Hsub. by right. }
  split; [|split; [|split]].
  - intros p Hp. auto.
  - intros p Hp. destruct (decide (fs' !! p = fs1 !! p)) as [Heq|Hne].
    + rewrite Heq in Hp. destruct (Hchg p Hp) as [-> Hc]. auto.
    + destruct (Hchg' p Hne) as [Hc1 Hc']. split; [|done].
      destruct (carries p fs) eqn:Hc; [done|]. rewrite Hkeep in Hc1; done.
  - congruence.
  - done.
Qed.

(** The loop, run again on what it left, changes nothing and ends the same
    way. *)
Lemma fix_each_file_twice (names gl_pathv : list string) (mask mask' : Z)
    (fs fs' : filesystem) (ok : bool) :
  gl_pathv ⊆ names → settled names fs →
  fix_each_file gl_pathv mask fs = (fs', mask', ok) →
  fix_each_file gl_pathv mask' fs' = (fs', mask', ok).
Proof.
  revert mask fs. induction gl_pathv as [|file rest IH]; intros mask fs Hsub Hsettled; cbn.
  { by intros [= <- <- <-]. }
  destruct (fix_one_file file mask fs) as [[fs1 mask1] ok1] eqn:Hone.
  pose proof (fix_one_file_inv names _ _ _ _ _ _ (Hsub file ltac:(left)) Hsettled Hone) as Hinv.
  destruct ok1.
  2:{ destruct Hinv as [-> ->]. intros [= <- <- <-].
      rewrite fix_one_file_mask. rewrite fix_one_file_mask in Hone. cbn zeta in *.
      destruct (fix_one_file file 0 fs) as [[fs0 mask0] ok0]. cbn [fst snd] in *.
      injection Hone as -> _ ->. done. }
  destruct Hinv as (Hclean & _ & _ & _ & Hsettled1 & ->). intros Hrest.
  assert (Hsub' : rest ⊆ names) by (intros f Hf; apply Hsub; by right).
  destruct (fix_each_file_inv _ _ _ _ _ _ _ Hsub' Hsettled1 Hrest) as (Hkeep & _).
  rewrite fix_one_file_clean by auto. eauto.
Qed.

(** C9, as amended.  On a state of the run-time profile directory in which
    one rewrite settles every profile (the profile that is saved once the
    key was removed carries no auto-generated interface-name when it is
    read again), and with a codec whose empty key file has no key, the
    fixup is idempotent: run again on the files and the mask that it left,
    it leaves every file as it is and returns what it returned the first
    time.  A file that the first run changed carried an auto-generated
    interface-name before and carries none after. *)
Theorem fix_netplan_interface_name_idempotent (rootdir : option string) (mask mask' : Z)
    (fs fs' : filesystem) (ok : bool) :
  profiles_settle rootdir fs →
  _fix_netplan_interface_name rootdir mask fs = (fs', mask', ok) →
  _fix_netplan_interface_name rootdir mask' fs' = (fs', mask', ok)
  ∧ ∀ file, fs' !! file ≠ fs !! file →
      carries file fs = true ∧ carries file fs' = false.
Proof.
  unfold profiles_settle, profile_pattern, _fix_netplan_interface_name. cbn zeta.
  destruct (glob _ (dom fs)) as [rc gl_pathv] eqn:Hglob. cbn [snd].
  intros Hsettle.
  destruct (negb (rc =? 0) && negb (rc =? GLOB_NOMATCH)) eqn:Hrc.
  { intros [= <- <- <-]. by rewrite Hglob, Hrc. }
  intros Hrun.
  destruct (fix_each_file_inv gl_pathv _ _ _ _ _ _ (reflexivity _) Hsettle Hrun)
    as (_ & Hchg & Hdom & _).
  rewrite Hdom, Hglob, Hrc. split; [by eapply fix_each_file_twice | done].
Qed.

End settled.

(** If the codec never hands a removed key back, one rewrite settles every
    text. *)
Lemma rewrite_removes_key_settles (text : string) :
  rewrite_removes_key "connection" "interface-name" → rewrite_settles text = true.
Proof.
  intros [Hremoved _]. unfold rewrite_settles.
  destruct (text_carries text); [|done].
  destruct (g_key_file_to_data _) as [saved|] eqn:Hsaved; [|done].
  unfold text_carries. by rewrite (Hremoved _ _ Hsaved).
Qed.

End fixup_facts.


Lemma example_rewrite_removes_key :
  @rewrite_removes_key example_gkeyfile "connection" "interface-name".
Proof. split; [intros kf text [= <-]|]; reflexivity. Qed.

(** Two generated profiles, one with the interface name [NM-<uuid>]: the
    first run strips that name, the second run changes nothing. *)
Lemma fix_netplan_interface_name_idempotent_witness :
  let os := example_os no_faults in
  let generated := "/run/NetworkManager/system-connections/netplan-NM-1.nmconnection" in
  let other := "/run/NetworkManager/system-connections/netplan-eth0.nmconnection" in
  let header := "[connection]" +:+ newline in
  let fs : filesystem :=
    <[generated :=
        regular_file (header +:+ "interface-name=NM-11111111-1111-4111-8111-111111111111"
                      +:+ newline) 384 0 0]>
      (<[other := regular_file (header +:+ "interface-name=eth0" +:+ newline) 384 0 0]>
         example_run_dir) in
  let first := @_fix_netplan_interface_name os line_keeping_gkeyfile None 18 fs in
  first.2 = true
  ∧ i_data <$> first.1.1 !! generated = Some header
  ∧ @_fix_netplan_interface_name os line_keeping_gkeyfile None first.1.2 first.1.1 = first.
Proof.
  intros os generated other header fs first.
  split; [by_computation|]. split; [by_computation|].
  rewrite (surjective_pairing first) at 3. rewrite (surjective_pairing first.1) at 3.
  refine (proj1 (@fix_netplan_interface_name_idempotent os line_keeping_gkeyfile eq_refl
                   None 18 first.1.2 fs first.1.1 first.2 _ _)).
  - intros file text Hin Hread.
    assert (Hfiles : (@glob os (profile_pattern None) (dom fs)).2 = [other; generated])
      by by_computation.
    rewrite Hfiles in Hin.
    apply elem_of_cons in Hin as [->|Hin]; [|apply elem_of_cons in Hin as [->|Hin]].
    + assert (Hother : g_file_get_contents fs other
                       = Some (header +:+ "interface-name=eth0" +:+ newline))
        by by_computation.
      rewrite Hother in Hread. injection Hread as <-. by_computation.
    + assert (Hgenerated :
                g_file_get_contents fs generated
                = Some (header +:+ "interface-name=NM-11111111-1111-4111-8111-111111111111"
                        +:+ newline)) by by_computation.
      rewrite Hgenerated in Hread. injection Hread as <-. by_computation.
    + apply elem_of_nil in Hin. destruct Hin.
  - rewrite <- !surjective_pairing. reflexivity.
Defined.

(** C9, as the claim states it, fails on a profile in which the key occurs
    twice.  The codec keeps both lines, the first run removes the line that
    came last and saves the other, and the second run finds an
    auto-generated name again and rewrites the file once more. *)
Lemma duplicate_interface_name_is_rewritten_twice :
  let os := example_os no_faults in
  let profile := "/run/NetworkManager/system-connections/netplan-NM-1.nmconnection" in
  let header := "[connection]" +:+ newline in
  let line1 := "interface-name=NM-11111111-1111-4111-8111-111111111111" +:+ newline in
  let line2 := "interface-name=NM-22222222-2222-4222-8222-222222222222" +:+ newline in
  let fs : filesystem :=
    <[profile := regular_file (header +:+ line1 +:+ line2) 384 0 0]> example_run_dir in
  let first := @_fix_netplan_interface_name os line_keeping_gkeyfile None 18 fs in
  let second :=
    @_fix_netplan_interface_name os line_keeping_gkeyfile None first.1.2 first.1.1 in
  first.2 = true
  ∧ i_data <$> first.1.1 !! profile = Some (header +:+ line1)
  ∧ second.2 = true
  ∧ i_data <$> second.1.1 !! profile = Some header
  ∧ second.1.1 !! profile ≠ first.1.1 !! profile.
Proof.
  intros os profile header line1 line2 fs first second.
  split; [by_computation|]. split; [by_computation|].
  split; [by_computation|]. split; [by_computation|].
  refine (bool_decide_eq_false_1 (second.1.1 !! profile = first.1.1 !! profile) _).
  by_computation.
Qed.

(** ** The filename allocator *)

Lemma list_find_cons_snd {A} (P : A → Prop) `{!∀ x, Decision (P x)} (x : A) (l : list A) :
  snd <$> list_find P (x :: l) = if decide (P x) then Some x else snd <$> list_find P l.
Proof.
  cbn. destruct (decide (P x)); [done|].
  by destruct (list_find P l) as [[i y]|].
Qed.

Section allocator_facts.
Context `{!Os, !Libnm, !GKeyFileApi, !NmKeyfile, !Netplan}.
Variable a : write_args.

(** The existing path can be used again exactly when no rename is needed. *)
Lemma reusable_existing_path_rename (p : string) :
  existing_path a = Some p →
  reusable_existing_path a = (if rename_needed a then [] else [p]).
Proof.
  intros Hp. unfold reusable_existing_path, rename_needed. rewrite Hp.
  destruct (force_rename a), (existing_path_read_only a); try done.
  cbn. destruct (nm_utils_file_is_in_path p (keyfile_dir a)); done.
Qed.

(** The tests of the loop body are the rejection rule of the specification. *)
Lemma candidate_passes_iff (fs : filesystem) (c : string) :
  candidate_passes a fs c = true ↔ ¬ candidate_rejected a fs c.
Proof.
  unfold candidate_passes, candidate_rejected.
  destruct (decide (existing_path a = Some c)) as [Hex|Hex].
  - rewrite (bool_decide_eq_true_2 _ Hex), (reusable_existing_path_rename c Hex).
    destruct (rename_needed a); cbn; [intuition congruence|].
    destruct (allow_filename_cb a) as [cb|]; [destruct (cb c)|]; cbn;
      intuition congruence.
  - rewrite (bool_decide_eq_false_2 _ Hex). cbn.
    destruct (allow_filename_cb a) as [cb|]; [destruct (cb c)|]; cbn;
      destruct (g_file_test_exists fs c); intuition congruence.
Qed.

Lemma path_candidate_existing :
  path_candidate a (-2) = head (reusable_existing_path a).
Proof.
  unfold path_candidate. rewrite Z.eqb_refl.
  destruct (existing_path a) as [p|] eqn:Hp.
  - rewrite (reusable_existing_path_rename p Hp). by destruct (rename_needed a).
  - unfold reusable_existing_path. by rewrite Hp.
Qed.

Lemma path_candidate_clean : path_candidate a (-1) = Some (clean_candidate a).
Proof. done. Qed.

Lemma path_candidate_uuid (N : Z) : 0 ≤ N → path_candidate a N = Some (uuid_candidate a N).
Proof.
  intros HN. unfold path_candidate, uuid_candidate.
  destruct (Z.eqb_spec N (-2)); [lia|]. destruct (Z.eqb_spec N (-1)); [lia|].
  destruct (Z.eqb_spec N 0), (decide (N = 0)); try done.
  by rewrite string_app_nil_r.
Qed.

Lemma find_path_round (fs : filesystem) (fuel : nat) (i_path : Z) :
  i_path < 10000 →
  find_path a (S fuel) i_path fs
  = match path_candidate a i_path with
    | None => find_path a fuel (i_path + 1) fs
    | Some c =>
        if candidate_passes a fs c then Some (Some c)
        else find_path a fuel (i_path + 1) fs
    end.
Proof. intros Hi. cbn [find_path]. by destruct (Z.ltb_spec i_path 10000); [|lia]. Qed.

(** From round [N ≥ 0] on, the loop finds the first numbered candidate that
    passes, if it has one round more than there are candidates left. *)
Lemma find_path_numbered (fs : filesystem) (len : nat) (N : Z) (fuel : nat) :
  0 ≤ N → N + Z.of_nat len = 10000 → (len < fuel)%nat →
  find_path a fuel N fs
  = Some (snd <$> list_find (λ c, ¬ candidate_rejected a fs c)
                            (uuid_candidate a <$> seqZ N (Z.of_nat len))).
Proof.
  revert N fuel. induction len as [|len IH]; intros N fuel HN Hlen Hfuel.
  - destruct fuel as [|fuel]; [lia|]. cbn.
    destruct (Z.ltb_spec N 10000); [lia|done].
  - destruct fuel as [|fuel]; [lia|]. rewrite find_path_round by lia.
    rewrite path_candidate_uuid by done.
    rewrite seqZ_cons by lia. rewrite fmap_cons, list_find_cons_snd.
    replace (Z.pred (Z.of_nat (S len))) with (Z.of_nat len) by lia.
    destruct (candidate_passes a fs _) eqn:Hpass.
    + apply candidate_passes_iff in Hpass. by rewrite decide_True.
    + rewrite decide_False by (rewrite <- candidate_passes_iff; congruence).
      replace (N + 1) with (Z.succ N) by lia.
      rewrite (IH (Z.succ N)) by lia. done.
Qed.

(** The loop is a first-fit search over the candidate sequence, and 10003
    rounds of fuel are enough for it to leave the loop by its own test. *)
Lemma find_path_first_fit (fs : filesystem) (fuel : nat) :
  (Z.to_nat 10003 ≤ fuel)%nat →
  find_path a fuel (-2) fs = Some (first_fit a fs).
Proof.
  intros Hfuel. unfold first_fit, candidate_sequence.
  destruct fuel as [|[|fuel]]; [lia..|].
  assert (Hrest : ∀ f, (Z.to_nat 10001 ≤ f)%nat →
            find_path a (S f) (-1) fs
            = Some (snd <$> list_find (λ c, ¬ candidate_rejected a fs c)
                      (clean_candidate a :: (uuid_candidate a <$> seqZ 0 10000)))).
  { intros f Hf. rewrite find_path_round by lia.
    rewrite path_candidate_clean, list_find_cons_snd.
    destruct (candidate_passes a fs _) eqn:Hpass.
    - apply candidate_passes_iff in Hpass. by rewrite decide_True.
    - rewrite decide_False by (rewrite <- candidate_passes_iff; congruence).
      change (-1 + 1) with 0.
      rewrite (find_path_numbered fs (Z.to_nat 10000) 0) by lia.
      by rewrite Z2Nat.id by lia. }
  rewrite find_path_round by lia.
  rewrite path_candidate_existing. change (-2 + 1) with (-1).
  destruct (reusable_existing_path a) as [|p l] eqn:Hreuse; cbn [head].
  - rewrite Hrest by lia. done.
  - assert (l = []) as ->.
    { unfold reusable_existing_path in Hreuse.
      repeat case_match; congruence. }
    cbn [app]. rewrite list_find_cons_snd.
    destruct (candidate_passes a fs p) eqn:Hpass.
    + apply candidate_passes_iff in Hpass. by rewrite decide_True.
    + rewrite decide_False by (rewrite <- candidate_passes_iff; congruence).
      apply Hrest. lia.
Qed.

Lemma length_candidate_sequence :
  (length (candidate_sequence a) ≤ Z.to_nat 10002)%nat
  ∧ length (uuid_candidate a <$> seqZ 0 10000) = Z.to_nat 10000.
Proof.
  unfold candidate_sequence.
  rewrite length_app, length_cons, length_fmap, length_seqZ.
  split; [|done].
  assert (length (reusable_existing_path a) ≤ 1)%nat; [|lia].
  unfold reusable_existing_path. repeat case_match; cbn; lia.
Qed.

(** When every candidate is rejected the allocator reports that. *)
Lemma select_path_exhausted (fs : filesystem) :
  (∀ c, c ∈ candidate_sequence a → candidate_rejected a fs c) →
  select_path a fs = (fs, Failed (ERR_no_suitable_file_name (clean_candidate a))).
Proof.
  intros Hall. unfold select_path. rewrite find_path_first_fit by done.
  unfold first_fit.
  destruct (list_find _ _) as [[i c]|] eqn:Hfind; [|done].
  apply list_find_Some in Hfind as (Hc & Hnot & _).
  destruct Hnot. apply Hall. by eapply list_elem_of_lookup_2.
Qed.

Lemma select_path_Done (fs fs' : filesystem) (p : string) :
  select_path a fs = (fs', Done p) → fs' = fs ∧ first_fit a fs = Some p.
Proof.
  unfold select_path. rewrite find_path_first_fit by done.
  destruct (first_fit a fs); by intros [= <- <-].
Qed.

Lemma first_fit_not_rejected (fs : filesystem) (p : string) :
  first_fit a fs = Some p → p ∈ candidate_sequence a ∧ ¬ candidate_rejected a fs p.
Proof.
  unfold first_fit. destruct (list_find _ _) as [[i c]|] eqn:Hfind; [|done].
  intros [= <-]. apply list_find_Some in Hfind as (Hc & Hnot & _).
  split; [by eapply list_elem_of_lookup_2 | done].
Qed.

End allocator_facts.

(** ** What the writer's steps keep on disk *)

Lemma holds_at_weaken (φ ψ : inode → Prop) (fs : filesystem) (p : string) :
  (∀ n, φ n → ψ n) → holds_at φ fs p → holds_at ψ fs p.
Proof. intros Himp (n & Hn & Hφ). exists n. auto. Qed.

Lemma kept_by_writes_exists : kept_by_writes (λ _, True).
Proof. done. Qed.

Lemma kept_by_writes_regular : kept_by_writes is_regular.
Proof. done. Qed.

Lemma kept_by_writes_no_directory : kept_by_writes is_no_directory.
Proof. done. Qed.

Lemma is_regular_exists (fs : filesystem) (p : string) :
  holds_at is_regular fs p → g_file_test_exists fs p = true.
Proof.
  intros (n & Hn & Hreg). unfold g_file_test_exists, stat_follow.
  erewrite resolve_not_link by (done || by apply S_ISREG_not_link).
  unfold lstat. cbn. rewrite Hn. by apply bool_decide_eq_true_2.
Qed.

Section os_keeps.
Context `{!Os}.
Variable φ : inode → Prop.
Hypothesis Hφ : kept_by_writes φ.

Lemma file_set_contents_inv (p text : string) (perm : Z) (fs fs' : filesystem) (e : Z) :
  file_set_contents p text perm fs = (fs', e) →
  (e = 0 ∧ fs' = <[p := regular_file text perm geteuid getegid]> fs)
  ∨ (e ≠ 0 ∧ fs' = fs).
Proof.
  unfold file_set_contents.
  destruct (os_fault SYS_write p) as [r|].
  { intros [= <- <-]. right. split; [apply errno_of_nonzero | done]. }
  destruct (parent_error fs p) as [e'|] eqn:Hparent.
  { intros [= <- <-]. right. split; [by eapply parent_error_nonzero | done]. }
  destruct (fs !! p) as [n|]; [destruct (S_ISDIR _)|]; intros [= <- <-];
    [by right | by left..].
Qed.

Lemma file_set_contents_keeps (p text q : string) (fs : filesystem) :
  holds_at φ fs q → holds_at φ (file_set_contents p text 384 fs).1 q.
Proof.
  intros (n & Hn & Hq).
  destruct (file_set_contents p text 384 fs) as [fs' e] eqn:Hw.
  apply file_set_contents_inv in Hw as [[_ ->]|[_ ->]]; [|by exists n].
  cbn. destruct (decide (p = q)) as [->|Hne].
  - eexists. rewrite lookup_insert_eq. split; [done | apply Hφ].
  - exists n. by rewrite lookup_insert_ne.
Qed.

Lemma chown_inv (p : string) (uid gid : Z) (fs fs' : filesystem) (e : Z) :
  chown p uid gid fs = (fs', e) →
  (e = 0 ∧ ∃ q, resolve fs p = Some q ∧ fs' = alter (chowned uid gid) q fs)
  ∨ (e ≠ 0 ∧ fs' = fs).
Proof.
  unfold chown. destruct (os_fault SYS_chown p) as [r|].
  { intros [= <- <-]. right. split; [apply errno_of_nonzero | done]. }
  destruct (resolve fs p) as [q|]; intros [= <- <-]; [left; eauto | by right].
Qed.

Lemma chown_keeps (p q : string) (uid gid : Z) (fs : filesystem) :
  holds_at φ fs q → holds_at φ (chown p uid gid fs).1 q.
Proof.
  intros (n & Hn & Hq).
  destruct (chown p uid gid fs) as [fs' e] eqn:Hc.
  apply chown_inv in Hc as [[_ (r & _ & ->)]|[_ ->]]; [|by exists n].
  cbn. destruct (decide (r = q)) as [->|Hne].
  - exists (chowned uid gid n). rewrite lookup_alter_eq, Hn. split; [done | by apply Hφ].
  - exists n. by rewrite lookup_alter_ne.
Qed.

Lemma mkdir_keeps (p q : string) (perm : Z) (fs : filesystem) :
  holds_at φ fs q → holds_at φ (mkdir p perm fs).1 q.
Proof.
  intros (n & Hn & Hq). unfold mkdir.
  destruct (os_fault SYS_mkdir p); [by exists n|].
  destruct (parent_error fs p); [by exists n|].
  destruct (fs !! p) eqn:Hp; [by exists n|].
  cbn. exists n. rewrite lookup_insert_ne; [done | congruence].
Qed.

Lemma mkdir_each_keeps (names : list string) (q : string) (perm : Z) (fs : filesystem) :
  holds_at φ fs q → holds_at φ (mkdir_each names perm fs).1 q.
Proof.
  revert fs. induction names as [|fn rest IH]; intros fs Hq; [done|].
  cbn [mkdir_each]. destruct (g_file_test_exists fs fn).
  - cbn [negb]. destruct (g_file_test_is_dir fs fn); cbn [negb]; auto.
  - cbn [negb]. pose proof (mkdir_keeps fn q perm fs Hq) as Hk.
    destruct (mkdir fn perm fs) as [fs' e]. cbn in Hk.
    destruct (negb (e =? 0) && negb (e =? EEXIST)); auto.
Qed.

End os_keeps.

Section writer_keeps.
Context `{!Os, !Libnm, !GKeyFileApi, !NmKeyfile, !Netplan}.
Variable φ : inode → Prop.
Hypothesis Hφ : kept_by_writes φ.

Lemma cert_writer_keeps (c : NMConnection) (kf : GKeyFile) (cert : cert_property)
    (dir q : string) (fs : filesystem) :
  holds_at φ fs q → holds_at φ (cert_writer c kf cert dir fs).1 q.
Proof.
  intros Hq. unfold cert_writer. destruct (cert_value cert); try done.
  match goal with |- context [file_set_contents ?p ?t 384 fs] =>
    pose proof (file_set_contents_keeps φ Hφ p t q fs Hq) as Hk;
    destruct (file_set_contents p t 384 fs) as [fs' e] end.
  by destruct (e =? 0).
Qed.

Lemma nm_keyfile_write_keeps (c : NMConnection) (dir q : string) (fs : filesystem) :
  holds_at φ fs q → holds_at φ (nm_keyfile_write c dir fs).1 q.
Proof.
  intros Hq. unfold nm_keyfile_write.
  generalize (default g_key_file_new (nm_keyfile_write_settings c)).
  revert fs Hq. induction (nm_keyfile_write_certs c) as [|cert certs IH]; intros fs Hq kf.
  - cbn. done.
  - cbn [foldl].
    pose proof (cert_writer_keeps c kf cert dir q fs Hq) as Hk.
    destruct (cert_writer c kf cert dir fs) as [fs1 kf1]. by apply IH.
Qed.

Variable a : write_args.

Lemma serialize_connection_fs (fs : filesystem) :
  (serialize_connection a fs).1 = (nm_keyfile_write (connection a) (keyfile_dir a) fs).1.
Proof.
  unfold serialize_connection, wbind, wret, wfail.
  destruct (nm_keyfile_write _ _ fs) as [fs1 [kf|]]; [|done].
  by destruct (g_key_file_to_data _).
Qed.

Lemma selection_state_keeps (q : string) (fs : filesystem) :
  holds_at φ fs q → holds_at φ (selection_state a fs) q.
Proof.
  intros Hq. unfold selection_state, ensure_keyfile_dir, wdo. cbn.
  rewrite serialize_connection_fs.
  apply (nm_keyfile_write_keeps (connection a) (keyfile_dir a)) in Hq.
  destruct (g_file_test_is_dir _ _); [done|].
  cbn [negb]. by apply mkdir_each_keeps.
Qed.

End writer_keeps.

(** ** The writer, step by step *)

Section writer_facts.
Context `{!Os, !Libnm, !GKeyFileApi, !NmKeyfile, !Netplan}.
Variable a : write_args.

Lemma reread_from_keyfile_fs (kf : GKeyFile) (p : string) (fs : filesystem) :
  (reread_from_keyfile a kf p fs).1 = fs.
Proof.
  unfold reread_from_keyfile. destruct (want_reread a || want_reread_same a); [|done].
  by destruct (_ ≫= _).
Qed.

(** What a successful preparation has done. *)
Lemma prepare_keyfile_Done (fs fs1 : filesystem) (w : prepared) :
  prepare_keyfile a fs = (fs1, Done w) →
  g_str_has_prefix (keyfile_dir a) "/" = true
  ∧ (serialize_connection a fs).2 = Done (kf_file w, kf_content_buf w)
  ∧ fs1 = selection_state a fs
  ∧ first_fit a fs1 = Some (path w).
Proof.
  unfold prepare_keyfile, selection_state.
  destruct (g_str_has_prefix (keyfile_dir a) "/"); [|done]. cbn [negb].
  unfold wbind at 1. destruct (serialize_connection a fs) as [fs0 [s|e]]; [|done].
  unfold wbind at 1. unfold ensure_keyfile_dir at 1, wdo at 1. cbn [fst].
  unfold wbind at 1.
  destruct (select_path a _) as [fs2 [p|e]] eqn:Hsel; [|done].
  apply select_path_Done in Hsel as [-> Hfit].
  unfold wbind.
  pose proof (reread_from_keyfile_fs s.1 p (ensure_keyfile_dir a fs0).1) as Hfs.
  destruct (reread_from_keyfile a s.1 p _) as [fs3 [rr|e]]; [|done].
  cbn in Hfs. subst fs3. unfold wret. intros [= <- <-]. cbn.
  by destruct s.
Qed.

(** Whatever the preparation does, it ends in the file system that the
    blobs and the directory left, or earlier. *)
Lemma prepare_keyfile_keeps (φ : inode → Prop) (q : string) (fs : filesystem) :
  kept_by_writes φ → holds_at φ fs q → holds_at φ (prepare_keyfile a fs).1 q.
Proof.
  intros Hφ Hq. unfold prepare_keyfile.
  destruct (g_str_has_prefix (keyfile_dir a) "/"); [|done]. cbn [negb].
  pose proof (selection_state_keeps φ Hφ a q fs Hq) as Hsel.
  pose proof (nm_keyfile_write_keeps φ Hφ (connection a) (keyfile_dir a) q fs Hq) as Hser.
  rewrite <- serialize_connection_fs in Hser.
  unfold selection_state in Hsel.
  unfold wbind at 1. destruct (serialize_connection a fs) as [fs0 [s|e]]; [|done].
  unfold wbind at 1. unfold ensure_keyfile_dir at 1, wdo at 1. cbn [fst] in *.
  unfold wbind at 1. unfold select_path.
  destruct (find_path _ _ _ _) as [[p|]|]; [|done..].
  unfold wbind.
  pose proof (reread_from_keyfile_fs s.1 p (ensure_keyfile_dir a fs0).1) as Hfs.
  destruct (reread_from_keyfile a s.1 p _) as [fs3 [rr|e]]; cbn in Hfs; by subst fs3.
Qed.

(** The three ways in which the Writing step ends. *)
Lemma write_and_chown_inv (p text : string) (fs fs' : filesystem) (o : outcome unit) :
  write_and_chown a p text fs = (fs', o) →
  (∃ e, file_set_contents p text 384 fs = (fs, e) ∧ e ≠ 0
        ∧ fs' = fs ∧ o = Failed (ERR_writing_to_file p))
  ∨ (∃ fs2 errsv,
        file_set_contents p text 384 fs = (fs2, 0)
        ∧ chown p (owner_uid a) (owner_grp a) fs2 = (fs2, errsv) ∧ errsv ≠ 0
        ∧ fs' = (unlink p fs2).1 ∧ o = Failed (ERR_chowning p errsv))
  ∨ (∃ fs2,
        file_set_contents p text 384 fs = (fs2, 0)
        ∧ chown p (owner_uid a) (owner_grp a) fs2 = (fs', 0) ∧ o = Done tt).
Proof.
  unfold write_and_chown, wbind.
  destruct (file_set_contents p text 384 fs) as [fs2 e] eqn:Hw.
  pose proof (file_set_contents_inv _ _ _ _ _ _ Hw) as [[-> Hfs2]|[He ->]].
  2:{ destruct (Z.eqb_spec e 0); [done|]. intros [= <- <-]. left. eauto. }
  rewrite Z.eqb_refl.
  destruct (chown p (owner_uid a) (owner_grp a) fs2) as [fs3 errsv] eqn:Hc.
  pose proof (chown_inv _ _ _ _ _ _ Hc) as [[-> _]|[He ->]].
  - rewrite Z.eqb_refl. cbn [negb]. intros [= <- <-]. right. right. eauto.
  - destruct (Z.eqb_spec errsv 0); [done|]. cbn [negb].
    intros [= <- <-]. right. left. exists fs2, errsv. done.
Qed.

(** The file that was just written is there, with its text. *)
Lemma file_set_contents_written (p text : string) (fs fs2 : filesystem) :
  file_set_contents p text 384 fs = (fs2, 0) →
  fs2 !! p = Some (regular_file text 384 geteuid getegid)
  ∧ ∀ q, q ≠ p → fs2 !! q = fs !! q.
Proof.
  intros Hw. apply file_set_contents_inv in Hw as [[_ ->]|[? _]]; [|done].
  split; [apply lookup_insert_eq|]. intros q Hq. by apply lookup_insert_ne.
Qed.

(** C2.  When the content was written and [chown] then fails, the writer
    unlinks the file it has just written and the whole write returns the
    chown error; unless that [unlink] is itself refused, the new file is not
    on disk afterwards. *)
Theorem chown_failure_removes_file (fs fs1 fs2 fs2' : filesystem) (w : prepared)
    (errsv : Z) :
  prepare_keyfile a fs = (fs1, Done w) →
  file_set_contents (path w) (kf_content_buf w) 384 fs1 = (fs2, 0) →
  chown (path w) (owner_uid a) (owner_grp a) fs2 = (fs2', errsv) →
  errsv ≠ 0 →
  _internal_write_connection a fs
  = ((unlink (path w) fs2).1, Failed (ERR_chowning (path w) errsv))
  ∧ (os_fault SYS_unlink (path w) = None → (unlink (path w) fs2).1 !! path w = None).
Proof.
  intros Hprep Hw Hc Herr. split.
  - unfold _internal_write_connection, write_plain_keyfile, wbind.
    rewrite Hprep. unfold write_and_chown, wbind. rewrite Hw, Z.eqb_refl, Hc.
    destruct (Z.eqb_spec errsv 0); [done|]. cbn [negb].
    apply chown_inv in Hc as [[? _]|[_ ->]]; done.
  - intros Hu. apply unlink_removes; [done|].
    apply file_set_contents_written in Hw as [Hp _].
    intros n. rewrite Hp. by intros [= <-].
Qed.

End writer_facts.

(** The kernel refuses to give the file to the owner: the write fails and
    the keyfile [home.nmconnection] is not on disk. *)
Lemma chown_failure_removes_file_witness :
  let os := example_os (λ call _, if call is SYS_chown then Some EPERM else None) in
  let a := example_args true None home1 in
  let run := @_internal_write_connection os example_libnm example_gkeyfile example_nmkeyfile
               (example_netplan true true) a ∅ in
  run.2 = Failed (ERR_chowning "/etc/NetworkManager/system-connections/home.nmconnection" 1)
  ∧ run.1 !! "/etc/NetworkManager/system-connections/home.nmconnection" = None.
Proof.
  intros os a run.
  pose (w := {| kf_file := Some "eth0" : @GKeyFile example_gkeyfile;
                kf_content_buf := "interface-name=eth0";
                path := "/etc/NetworkManager/system-connections/home.nmconnection";
                reread := (None, false) |} : @prepared example_gkeyfile example_nmkeyfile).
  pose (fs1 := (@prepare_keyfile os example_libnm example_gkeyfile example_nmkeyfile a ∅).1).
  pose (fs2 := (@file_set_contents os (path w) (kf_content_buf w) 384 fs1).1).
  destruct (@chown_failure_removes_file os example_libnm example_gkeyfile example_nmkeyfile
              (example_netplan true true) a ∅ fs1 fs2 fs2 w 1) as [Hrun Hgone];
    [by_computation | by_computation | by_computation | discriminate |].
  subst run. rewrite Hrun. split; [reflexivity|]. apply Hgone. reflexivity.
Defined.

Section rename_facts.
Context `{!Os, !Libnm, !GKeyFileApi, !NmKeyfile, !Netplan}.
Variable a : write_args.

Lemma remove_old_path_inv (p : string) (fs : filesystem) :
  ∃ fs', remove_old_path a p fs = (fs', Done tt)
         ∧ fs' !! p = fs !! p
         ∧ (∀ old, existing_path a = Some old → existing_path_read_only a = false →
                   p ≠ old → fs' = (unlink old fs).1)
         ∧ (existing_path a = None → fs' = fs).
Proof.
  unfold remove_old_path. destruct (existing_path a) as [old|].
  - destruct (existing_path_read_only a); cbn [negb andb].
    { exists fs. unfold wret. by repeat split. }
    destruct (decide (p = old)) as [->|Hne].
    + rewrite bool_decide_eq_true_2 by done. exists fs. unfold wret.
      repeat split; try done. intros old' [= <-]. done.
    + rewrite bool_decide_eq_false_2 by done. eexists. unfold wdo.
      split; [done|]. split; [by apply unlink_other|]. split; [|done].
      by intros old' [= <-].
  - exists fs. unfold wret. by repeat split.
Qed.

(** How [write_plain_keyfile] ends, in terms of its three steps. *)
Lemma write_plain_keyfile_inv (fs fs' : filesystem) (o : outcome prepared) :
  write_plain_keyfile a fs = (fs', o) →
  (∃ e, prepare_keyfile a fs = (fs', Failed e) ∧ o = Failed e)
  ∨ ∃ fs1 w, prepare_keyfile a fs = (fs1, Done w)
      ∧ ((∃ e, write_and_chown a (path w) (kf_content_buf w) fs1 = (fs', Failed e)
               ∧ o = Failed e)
         ∨ ∃ fs3, write_and_chown a (path w) (kf_content_buf w) fs1 = (fs3, Done tt)
                  ∧ remove_old_path a (path w) fs3 = (fs', Done tt) ∧ o = Done w).
Proof.
  unfold write_plain_keyfile. unfold wbind at 1.
  destruct (prepare_keyfile a fs) as [fs1 [w|e]]; [|intros [= <- <-]; left; eauto].
  unfold wbind at 1.
  destruct (write_and_chown a (path w) (kf_content_buf w) fs1) as [fs3 [[]|e]] eqn:Hw.
  2:{ intros [= <- <-]. right. exists fs1, w. split; [done|]. left. eauto. }
  unfold wbind. destruct (remove_old_path_inv (path w) fs3) as (fs4 & Hr & _).
  rewrite Hr. unfold wret. intros [= <- <-]. right. exists fs1, w. split; [done|].
  right. eauto.
Qed.

(** A failure before the projection is the failure of the whole write. *)
Lemma write_plain_keyfile_Failed (fs fs' : filesystem) (e : write_error) :
  write_plain_keyfile a fs = (fs', Failed e) →
  _internal_write_connection a fs = (fs', Failed e).
Proof. intros Hw. unfold _internal_write_connection, wbind. by rewrite Hw. Qed.

(** A volatile profile is done when its plain keyfile is written. *)
Lemma write_plain_keyfile_volatile (fs fs' : filesystem) (w : prepared) :
  is_volatile a = true →
  write_plain_keyfile a fs = (fs', Done w) →
  _internal_write_connection a fs
  = (fs', Done {| out_path := path w;
                  out_reread := if want_reread a then (reread w).1 else None;
                  out_reread_same := (reread w).2 |}).
Proof.
  intros Hv Hw. unfold _internal_write_connection, wbind. by rewrite Hw, Hv.
Qed.

(** After a successful Writing step the new file is on disk: a regular file
    with the serialized text that belongs to the designated owner. *)
Lemma write_and_chown_Done (w : prepared) (fs fs' : filesystem) :
  write_and_chown a (path w) (kf_content_buf w) fs = (fs', Done tt) →
  holds_at (is_written a w) fs' (path w)
  ∧ ∀ φ q, kept_by_writes φ → holds_at φ fs q → holds_at φ fs' q.
Proof.
  intros Hw.
  apply write_and_chown_inv in Hw
    as [(e & _ & _ & _ & [=]) | [(fs2 & errsv & _ & _ & _ & _ & [=]) | (fs2 & Hset & Hc & _)]].
  split.
  - apply file_set_contents_written in Hset as [Hp _].
    apply chown_inv in Hc as [[_ (q & Hq & ->)]|[? _]]; [|done].
    erewrite resolve_not_link in Hq by done. injection Hq as <-.
    eexists. rewrite lookup_alter_eq, Hp. split; [done|]. done.
  - intros φ q Hφ Hq.
    apply (file_set_contents_keeps φ Hφ (path w) (kf_content_buf w)) in Hq.
    rewrite Hset in Hq. cbn [fst] in Hq.
    apply (chown_keeps φ Hφ (path w) q (owner_uid a) (owner_grp a)) in Hq.
    by rewrite Hc in Hq.
Qed.

(** C6.  An update whose path changes deletes the old path, and only after
    the new file is written and chowned.  If the write fails before or in
    the Writing step (and, for a chown failure, the selected path is not the
    old one), the whole write fails and the old file is still there.  If the
    write gets through, the new file is on disk, and when the old path is not
    read-only and differs from the new one, the old file is gone (unless its
    [unlink] is refused). *)
Theorem old_path_removed_only_after_write (fs fs' : filesystem) (old : string) :
  existing_path a = Some old →
  (∀ e, write_plain_keyfile a fs = (fs', Failed e) →
        _internal_write_connection a fs = (fs', Failed e)
        ∧ ((∀ errsv, e ≠ ERR_chowning old errsv) →
           is_Some (fs !! old) → is_Some (fs' !! old)))
  ∧ (∀ w, write_plain_keyfile a fs = (fs', Done w) →
        holds_at (is_written a w) fs' (path w)
        ∧ (existing_path_read_only a = false → path w ≠ old →
           os_fault SYS_unlink old = None → holds_at is_no_directory fs old →
           fs' !! old = None)
        ∧ (is_volatile a = true → ∃ r, _internal_write_connection a fs = (fs', Done r)
                                        ∧ out_path r = path w)).
Proof.
  intros Hold. split.
  - intros e Hw. split; [by apply write_plain_keyfile_Failed|].
    intros Hne [n Hn].
    assert (Hex : holds_at (λ _, True) fs old) by (by exists n).
    assert (∀ fs0, holds_at (λ _, True) fs0 old → is_Some (fs0 !! old)) as Hsome
      by (intros fs0 (m & Hm & _); eauto).
    apply Hsome.
    apply write_plain_keyfile_inv in Hw
      as [(e' & Hp & [= <-]) | (fs1 & w & Hp & [(e' & Hwc & [= <-]) | (fs3 & _ & _ & [=])])].
    + pose proof (prepare_keyfile_keeps a _ old fs kept_by_writes_exists Hex) as Hk.
      by rewrite Hp in Hk.
    + pose proof (prepare_keyfile_keeps a _ old fs kept_by_writes_exists Hex) as Hk.
      rewrite Hp in Hk. cbn in Hk.
      apply write_and_chown_inv in Hwc
        as [(e0 & _ & _ & -> & _) | [(fs2 & errsv & Hset & _ & _ & -> & [= ->])
                                    | (fs2 & _ & _ & [=])]]; [done|].
      assert (path w ≠ old) as Hpo by (intros Heq; apply (Hne errsv); by rewrite Heq).
      destruct Hk as (m & Hm & _). exists m. split; [|done].
      rewrite unlink_other by done.
      apply file_set_contents_written in Hset as [_ Hother].
      by rewrite Hother.
  - intros w Hw.
    apply write_plain_keyfile_inv in Hw
      as [(e' & _ & [=]) | (fs1 & w' & Hp & [(e' & _ & [=]) | (fs3 & Hwc & Hr & [= <-])])].
    destruct (write_and_chown_Done w fs1 fs3 Hwc) as [Hnew Hkeep].
    destruct (remove_old_path_inv (path w) fs3) as (fs4 & Hr' & Hsame & Hunlink & _).
    rewrite Hr in Hr'. injection Hr' as <-.
    split; [|split].
    + destruct Hnew as (n & Hn & Hwritten). exists n. by rewrite Hsame.
    + intros Hro Hne Hu Hnodir. rewrite (Hunlink old) by done.
      apply unlink_removes; [done|].
      pose proof (prepare_keyfile_keeps a _ old fs kept_by_writes_no_directory Hnodir) as Hk.
      rewrite Hp in Hk. cbn in Hk.
      apply (Hkeep _ _ kept_by_writes_no_directory) in Hk as (m & Hm & Hd).
      intros m'. rewrite Hm. intros [= <-]. exact Hd.
    + intros Hv. eexists. split.
      * apply write_plain_keyfile_volatile; [done|].
        unfold write_plain_keyfile, wbind. by rewrite Hp, Hwc, Hr.
      * done.
Qed.

End rename_facts.

(** The profile of [old.nmconnection] is written under the name
    [home.nmconnection]: the new file is on disk and the old one is gone. *)
Lemma old_path_removed_only_after_write_witness :
  let os := example_os no_faults in
  let run := @_internal_write_connection os example_libnm example_gkeyfile example_nmkeyfile
               (example_netplan true true) (example_rename_args home1) example_old_fs in
  (∃ r, run = (run.1, Done r)
        ∧ out_path r = "/etc/NetworkManager/system-connections/home.nmconnection")
  ∧ is_Some (run.1 !! "/etc/NetworkManager/system-connections/home.nmconnection")
  ∧ run.1 !! example_old_path = None.
Proof.
  intros os run.
  pose (w := {| kf_file := Some "eth0" : @GKeyFile example_gkeyfile;
                kf_content_buf := "interface-name=eth0";
                path := "/etc/NetworkManager/system-connections/home.nmconnection";
                reread := (None, false) |} : @prepared example_gkeyfile example_nmkeyfile).
  destruct (@old_path_removed_only_after_write os example_libnm example_gkeyfile
              example_nmkeyfile (example_netplan true true) (example_rename_args home1)
              example_old_fs run.1 example_old_path eq_refl) as [_ Hdone].
  assert (Hw : @write_plain_keyfile os example_libnm example_gkeyfile example_nmkeyfile
                 (example_rename_args home1) example_old_fs = (run.1, Done w))
    by by_computation.
  destruct (Hdone w Hw) as ((n & Hn & _) & Hgone & Hvolatile).
  split; [|split].
  - destruct (Hvolatile eq_refl) as (r & Hr & Hpath). exists r. split; [exact Hr | exact Hpath].
  - exists n. exact Hn.
  - apply Hgone; [reflexivity | discriminate | reflexivity |].
    exists (regular_file "interface-name=eth9" 384 0 0). split; [by_computation | reflexivity].
Defined.

(** The same update when the content cannot be written: the write fails
    and the old keyfile is still there. *)
Example old_path_kept_when_write_fails :
  let os := example_os (λ call _, if call is SYS_write then Some ENOSPC else None) in
  let run := @_internal_write_connection os example_libnm example_gkeyfile example_nmkeyfile
               (example_netplan true true) (example_rename_args home1) example_old_fs in
  run.2 = Failed (ERR_writing_to_file "/etc/NetworkManager/system-connections/home.nmconnection")
  ∧ run.1 !! example_old_path = example_old_fs !! example_old_path.
Proof. split; by_computation. Qed.

(** ** The projection into netplan *)

Section projection_facts.
Context `{!Os, !Libnm, !GKeyFileApi, !NmKeyfile, !Netplan}.
Variable a : write_args.






End projection_facts.



(** The same when libnetplan finds no definition for the profile. *)
Example lookup_failure_leaves_keyfile :
  let os := example_os no_faults in
  let run := @_internal_write_connection os example_libnm example_gkeyfile example_nmkeyfile
               example_netplan_without_definitions (example_args false None home1) ∅ in
  run.2 = Failed (ERR_netplan_netdef_not_found "NM-11111111-1111-4111-8111-111111111111")
  ∧ run.1 !! "/etc/NetworkManager/system-connections/home.nmconnection"
    = Some (regular_file "interface-name=eth0" 384 0 0).
Proof. split; by_computation. Qed.

(** ** Several profiles with the same id *)

Section same_id_facts.
Context `{!Os, !Libnm, !GKeyFileApi, !NmKeyfile, !Netplan}.

(** A path that the allocator selects for a new profile names nothing that
    exists. *)
Lemma first_fit_new_is_free (a : write_args) (fs : filesystem) (p : string) :
  existing_path a = None → first_fit a fs = Some p → g_file_test_exists fs p = false.
Proof.
  intros Hnone Hfit. apply first_fit_not_rejected in Hfit as [_ Hnot].
  destruct (g_file_test_exists fs p) eqn:Hex; [|done].
  destruct Hnot. right. right. split; [by rewrite Hnone | done].
Qed.

(** One write of a volatile new profile: the regular files that were there
    stay, and a reported path is the first candidate that was not rejected,
    was not a regular file before and is one now. *)
Lemma volatile_new_write (a : write_args) (fs fs' : filesystem) (o : outcome write_result) :
  is_volatile a = true → existing_path a = None →
  _internal_write_connection a fs = (fs', o) →
  (∀ q, holds_at is_regular fs q → holds_at is_regular fs' q)
  ∧ ∀ r, o = Done r →
      first_fit a (selection_state a fs) = Some (out_path r)
      ∧ ¬ holds_at is_regular fs (out_path r)
      ∧ holds_at is_regular fs' (out_path r).
Proof.
  intros Hv Hnone Hrun.
  destruct (write_plain_keyfile a fs) as [fs1 o1] eqn:Hw.
  pose proof (write_plain_keyfile_inv a _ _ _ Hw)
    as [(e & Hp & ->) | (fs0 & w & Hp & [(e & Hwc & ->) | (fs3 & Hwc & Hr & ->)])].
  - rewrite (write_plain_keyfile_Failed a _ _ _ Hw) in Hrun. injection Hrun as <- <-.
    split; [|done]. intros q Hq.
    pose proof (prepare_keyfile_keeps a _ q fs kept_by_writes_regular Hq) as Hk.
    by rewrite Hp in Hk.
  - rewrite (write_plain_keyfile_Failed a _ _ _ Hw) in Hrun. injection Hrun as <- <-.
    split; [|done]. intros q Hq.
    pose proof (prepare_keyfile_keeps a _ q fs kept_by_writes_regular Hq) as Hk.
    rewrite Hp in Hk. cbn [fst] in Hk.
    apply prepare_keyfile_Done in Hp as (_ & _ & -> & Hfit).
    apply write_and_chown_inv in Hwc
      as [(e0 & _ & _ & -> & _) | [(fs2 & errsv & Hset & _ & _ & -> & _)
                                  | (fs2 & _ & _ & [=])]]; [done|].
    assert (path w ≠ q) as Hne.
    { intros Heq. subst q. apply is_regular_exists in Hk.
      by rewrite (first_fit_new_is_free a _ _ Hnone Hfit) in Hk. }
    destruct Hk as (n & Hn & Hreg). exists n. split; [|done].
    rewrite unlink_other by done.
    apply file_set_contents_written in Hset as [_ Hother]. by rewrite Hother.
  - rewrite (write_plain_keyfile_volatile a _ _ _ Hv Hw) in Hrun. injection Hrun as <- <-.
    destruct (write_and_chown_Done a w fs0 fs3 Hwc) as [Hnew Hkeep].
    destruct (remove_old_path_inv a (path w) fs3) as (fs4 & Hr' & _ & _ & Hsame).
    rewrite Hr in Hr'. injection Hr' as <-. rewrite (Hsame Hnone) in *.
    assert (∀ q, holds_at is_regular fs q → holds_at is_regular fs3 q) as Hkeep'.
    { intros q Hq. apply (Hkeep _ _ kept_by_writes_regular).
      pose proof (prepare_keyfile_keeps a _ q fs kept_by_writes_regular Hq) as Hk.
      by rewrite Hp in Hk. }
    split; [done|]. intros r [= <-]. cbn [out_path].
    apply prepare_keyfile_Done in Hp as (_ & _ & -> & Hfit).
    split; [done|]. split.
    + intros Hq. apply (selection_state_keeps _ kept_by_writes_regular a) in Hq.
      apply is_regular_exists in Hq.
      by rewrite (first_fit_new_is_free a _ _ Hnone Hfit) in Hq.
    + eapply holds_at_weaken; [|exact Hnew]. by intros n [? _].
Qed.

(** Volatile new profiles written one after the other: what was a regular
    file stays one, the reported paths are distinct, and each of them is a
    regular file in the end and was none at the start. *)
Lemma write_each_volatile_new (args_of : NMConnection → write_args)
    (connections : list NMConnection) (fs fs' : filesystem)
    (outcomes : list (outcome write_result)) :
  (∀ c, is_volatile (args_of c) = true ∧ existing_path (args_of c) = None) →
  write_each args_of connections fs = (fs', outcomes) →
  (∀ q, holds_at is_regular fs q → holds_at is_regular fs' q)
  ∧ NoDup (reported_paths outcomes)
  ∧ ∀ p, p ∈ reported_paths outcomes →
      ¬ holds_at is_regular fs p ∧ holds_at is_regular fs' p.
Proof.
  intros Hargs. revert fs fs' outcomes.
  induction connections as [|c rest IH]; intros fs fs' outcomes; cbn [write_each].
  { intros [= <- <-]. split; [done|]. split; [constructor|]. by intros p ?%elem_of_nil. }
  destruct (_internal_write_connection (args_of c) fs) as [fs1 o] eqn:Hone.
  destruct (write_each args_of rest fs1) as [fs2 os] eqn:Hrest.
  intros [= <- <-].
  destruct (Hargs c) as [Hv Hnone].
  destruct (volatile_new_write _ _ _ _ Hv Hnone Hone) as [Hkeep1 Hdone].
  destruct (IH _ _ _ Hrest) as (Hkeep2 & Hnodup & Hpaths).
  split; [auto|]. unfold reported_paths in *. cbn [omap list_omap].
  destruct o as [r|e]; [|split; [done|]; intros p Hp; destruct (Hpaths p Hp); auto].
  destruct (Hdone r eq_refl) as (_ & Hfree & Hthere).
  split.
  - constructor; [|done]. intros Hin. destruct (Hpaths _ Hin) as [Hnot _]. done.
  - intros p [->|Hin]%elem_of_cons; [auto|].
    destruct (Hpaths p Hin). auto.
Qed.

(** C1, as amended.  The loop of the allocator is a first-fit search: it
    returns the first candidate, in the fixed order (the existing path when
    it can be used again, then directory/escape(id), then
    directory/escape(id-uuid), then directory/escape(id-uuid-N) for
    N = 1, 2, ...), that is not rejected by the three rules of the
    specification.  A volatile profile that is written successfully is
    reported under that path, and N writes of volatile new profiles into one
    directory report N distinct paths. *)
Theorem allocator_picks_first_candidate :
  (∀ (a : write_args) (fs : filesystem),
     find_path a find_path_rounds (-2) fs = Some (first_fit a fs))
  ∧ (∀ (a : write_args) (fs fs' : filesystem) (r : write_result),
       is_volatile a = true →
       _internal_write_connection a fs = (fs', Done r) →
       first_fit a (selection_state a fs) = Some (out_path r)
       ∧ holds_at is_regular fs' (out_path r))
  ∧ (∀ (args_of : NMConnection → write_args) (connections : list NMConnection)
       (fs fs' : filesystem) (outcomes : list (outcome write_result)),
       (∀ c, is_volatile (args_of c) = true ∧ existing_path (args_of c) = None) →
       write_each args_of connections fs = (fs', outcomes) →
       NoDup (reported_paths outcomes)).
Proof.
  split; [|split].
  - intros a fs. by apply find_path_first_fit.
  - intros a fs fs' r Hv Hrun.
    destruct (write_plain_keyfile a fs) as [fs1 o1] eqn:Hw.
    pose proof (write_plain_keyfile_inv a _ _ _ Hw)
      as [(e & Hp & ->) | (fs0 & w & Hp & [(e & Hwc & ->) | (fs3 & Hwc & Hr & ->)])].
    + by rewrite (write_plain_keyfile_Failed a _ _ _ Hw) in Hrun.
    + by rewrite (write_plain_keyfile_Failed a _ _ _ Hw) in Hrun.
    + rewrite (write_plain_keyfile_volatile a _ _ _ Hv Hw) in Hrun.
      injection Hrun as <- <-. cbn [out_path].
      destruct (write_and_chown_Done a w fs0 fs3 Hwc) as [Hnew _].
      destruct (remove_old_path_inv a (path w) fs3) as (fs4 & Hr' & Hsame & _).
      rewrite Hr in Hr'. injection Hr' as <-.
      apply prepare_keyfile_Done in Hp as (_ & _ & -> & Hfit).
      split; [done|]. destruct Hnew as (n & Hn & Hreg & _).
      exists n. by rewrite Hsame.
  - intros args_of connections fs fs' outcomes Hargs Hrun.
    by destruct (write_each_volatile_new _ _ _ _ _ Hargs Hrun) as (_ & ? & _).
Qed.

End same_id_facts.

(** Three volatile profiles with the id [home] and different uuids, written
    into an empty directory: the paths follow the sequence id, id-uuid. *)
Example same_id_volatile_paths :
  reported_paths
    (@write_each (example_os no_faults) example_libnm example_gkeyfile example_nmkeyfile
       (example_netplan true true) (example_args true None) [home1; home2; home3] ∅).2
  = ["/etc/NetworkManager/system-connections/home.nmconnection";
     "/etc/NetworkManager/system-connections/home-22222222-2222-4222-8222-222222222222.nmconnection";
     "/etc/NetworkManager/system-connections/home-33333333-3333-4333-8333-333333333333.nmconnection"].
Proof. by_computation. Qed.

(** C1, as the claim states it, fails for profiles that are not volatile.
    Two profiles with the id [home] and different uuids are written into an
    empty directory and both writes succeed.  The allocator selects the same
    path, [home.nmconnection], for both, because the plain keyfile of the
    first is unlinked once netplan has it; and the paths that the writes
    report are those of the profiles that netplan generates, which belong to
    neither candidate sequence. *)
Lemma nonvolatile_writes_leave_the_sequence :
  let os := example_os no_faults in
  let np := example_netplan true true in
  let args := example_args false None in
  let first := @_internal_write_connection os example_libnm example_gkeyfile
                 example_nmkeyfile np (args home1) ∅ in
  let second := @_internal_write_connection os example_libnm example_gkeyfile
                  example_nmkeyfile np (args home2) first.1 in
  let reported1 :=
    "/run/NetworkManager/system-connections/netplan-NM-11111111-1111-4111-8111-111111111111.nmconnection" in
  let reported2 :=
    "/run/NetworkManager/system-connections/netplan-NM-22222222-2222-4222-8222-222222222222.nmconnection" in
  let selected1 :=
    @first_fit example_libnm example_gkeyfile example_nmkeyfile (args home1)
      (@selection_state os example_libnm example_gkeyfile example_nmkeyfile (args home1) ∅) in
  let selected2 :=
    @first_fit example_libnm example_gkeyfile example_nmkeyfile (args home2)
      (@selection_state os example_libnm example_gkeyfile example_nmkeyfile (args home2)
         first.1) in
  reported_paths [first.2] = [reported1]
  ∧ reported_paths [second.2] = [reported2]
  ∧ selected1 = Some "/etc/NetworkManager/system-connections/home.nmconnection"
  ∧ selected2 = Some "/etc/NetworkManager/system-connections/home.nmconnection"
  ∧ (reported1 ∉ @candidate_sequence example_libnm example_gkeyfile example_nmkeyfile
                   (args home1))
  ∧ (reported2 ∉ @candidate_sequence example_libnm example_gkeyfile example_nmkeyfile
                   (args home2)).
Proof.
  intros os np args first second reported1 reported2 selected1 selected2.
  split; [by_computation|]. split; [by_computation|].
  split; [by_computation|]. split; [by_computation|].
  split.
  - refine (bool_decide_eq_false_1 (reported1 ∈ candidate_sequence (args home1)) _).
    by_computation.
  - refine (bool_decide_eq_false_1 (reported2 ∈ candidate_sequence (args home2)) _).
    by_computation.
Qed.

(** ** The bound of the search *)

Section bounded_search.
Context `{!Os, !Libnm, !GKeyFileApi, !NmKeyfile, !Netplan}.
Variable a : write_args.

Lemma internal_write_connection_Done (fs fs' : filesystem) (r : write_result) :
  _internal_write_connection a fs = (fs', Done r) →
  ∃ fs1 w, write_plain_keyfile a fs = (fs1, Done w).
Proof.
  unfold _internal_write_connection. unfold wbind at 1.
  destruct (write_plain_keyfile a fs) as [fs1 [w|e]]; [eauto | done].
Qed.

(** C7.  The search of the allocator ends by its own test: 10003 rounds of
    fuel are enough for every input, more fuel changes nothing, and the
    candidates it looks at are at most 10002, of which 10000 carry the uuid.
    When every candidate is rejected, the write does not succeed; if the
    profile could be serialized, it fails with the error that no suitable
    file name was found, and no keyfile has been written. *)
Theorem allocator_search_is_bounded (fs : filesystem) :
  (∃ r, find_path a find_path_rounds (-2) fs = Some r)
  ∧ (∀ fuel, (find_path_rounds ≤ fuel)%nat →
       find_path a fuel (-2) fs = find_path a find_path_rounds (-2) fs)
  ∧ (length (candidate_sequence a) ≤ Z.to_nat 10002)%nat
  ∧ length (uuid_candidate a <$> seqZ 0 10000) = Z.to_nat 10000
  ∧ ((∀ c, c ∈ candidate_sequence a → candidate_rejected a (selection_state a fs) c) →
     (∀ fs' r, _internal_write_connection a fs ≠ (fs', Done r))
     ∧ (g_str_has_prefix (keyfile_dir a) "/" = true →
        ∀ fs1 s, serialize_connection a fs = (fs1, Done s) →
        _internal_write_connection a fs
        = (selection_state a fs, Failed (ERR_no_suitable_file_name (clean_candidate a))))).
Proof.
  split; [|split; [|split; [|split]]].
  - rewrite find_path_first_fit by done. eauto.
  - intros fuel Hfuel. by rewrite !find_path_first_fit.
  - apply length_candidate_sequence.
  - apply length_candidate_sequence.
  - intros Hall. split.
    + intros fs' r Hrun.
      apply internal_write_connection_Done in Hrun as (fs1 & w & Hw).
      apply write_plain_keyfile_inv in Hw
        as [(e & _ & [=]) | (fs0 & w' & Hp & _)].
      apply prepare_keyfile_Done in Hp as (_ & _ & -> & Hfit).
      apply first_fit_not_rejected in Hfit as [Hin Hnot]. auto.
    + intros Hdir fs1 s Hs.
      assert (selection_state a fs = (ensure_keyfile_dir a fs1).1) as Hsel
        by (unfold selection_state; by rewrite Hs).
      unfold _internal_write_connection, wbind at 1.
      unfold write_plain_keyfile, wbind at 1.
      unfold prepare_keyfile. rewrite Hdir. cbn [negb].
      unfold wbind at 1. rewrite Hs.
      unfold wbind at 1.
      destruct (ensure_keyfile_dir a fs1) as [fs2 [[]|e]] eqn:Hdo;
        [|by unfold ensure_keyfile_dir, wdo in Hdo].
      cbn [fst] in Hsel. subst fs2.
      unfold wbind at 1. by rewrite select_path_exhausted.
Qed.

End bounded_search.

(** An accept callback that refuses every name: all 10001 candidates are
    rejected and the write fails with the allocation error. *)
Lemma allocator_search_is_bounded_witness :
  let os := example_os no_faults in
  let a := example_args true (Some (λ _, false)) home1 in
  @_internal_write_connection os example_libnm example_gkeyfile example_nmkeyfile
    (example_netplan true true) a ∅
  = (@selection_state os example_libnm example_gkeyfile example_nmkeyfile a ∅,
     Failed (ERR_no_suitable_file_name
               "/etc/NetworkManager/system-connections/home.nmconnection")).
Proof.
  intros os a.
  destruct (@allocator_search_is_bounded os example_libnm example_gkeyfile example_nmkeyfile
              (example_netplan true true) a ∅) as (_ & _ & _ & _ & Hexhausted).
  destruct Hexhausted as [_ Hfails].
  { intros c _. right. left. reflexivity. }
  exact (Hfails eq_refl ∅ (Some "eth0", "interface-name=eth0") eq_refl).
Defined.
(** ** More on the VPN setting's data items and secrets *)

Lemma key_is_set_inv (key : option string) (k : string) :
  key_is_set key = Some k → key = Some k ∧ k ≠ EmptyString.
Proof. destruct key as [[|c s]|]; cbn; [done| |done]. by intros [= <-]. Qed.

Lemma key_is_set_ne (key other : option string) (k : string) :
  key_is_set key = Some k → other ≠ key → key_is_set other ≠ Some k.
Proof.
  intros Hk Hne Ho. apply key_is_set_inv in Hk as [-> _].
  apply key_is_set_inv in Ho as [-> _]. done.
Qed.

(** An item that was added is the item that is read: after
    [nm_setting_vpn_add_data_item] with a non-empty key and an item, the key
    has that item, every other key has the item it had, the number of items
    grows by one exactly when the key is new, the secrets are as they were and
    [data] was notified once. *)
Theorem add_data_item_then_get (setting : NMSettingVpn) (key : string) (item : string) :
  key ≠ EmptyString →
  let setting' := nm_setting_vpn_add_data_item setting (Some key) (Some item) in
  nm_setting_vpn_get_data_item setting' (Some key) = Some item
  ∧ (∀ other, other ≠ Some key →
       nm_setting_vpn_get_data_item setting' other
       = nm_setting_vpn_get_data_item setting other)
  ∧ nm_setting_vpn_get_num_data_items setting'
    = (if nm_setting_vpn_get_data_item setting (Some key) is Some _
       then nm_setting_vpn_get_num_data_items setting
       else S (nm_setting_vpn_get_num_data_items setting))
  ∧ vpn_secrets setting' = vpn_secrets setting
  ∧ vpn_notified setting' = PROP_DATA :: vpn_notified setting.
Proof.
  intros Hkey setting'. subst setting'.
  unfold nm_setting_vpn_add_data_item, nm_setting_vpn_get_data_item,
    nm_setting_vpn_get_num_data_items.
  rewrite key_is_set_Some by done. cbn.
  split; [apply lookup_insert_eq|]. split; [|split; [|done]].
  - intros other Hother. destruct (key_is_set other) as [k|] eqn:Hk; [|done].
    apply key_is_set_inv in Hk as [-> _].
    rewrite lookup_insert_ne by congruence.
    destruct (vpn_data setting); [done|]. apply lookup_empty.
  - destruct (vpn_data setting) as [h|]; cbn.
    + destruct (h !! key) eqn:Hitem.
      * by rewrite map_size_insert_Some.
      * by rewrite map_size_insert_None.
    + by rewrite map_size_insert_None, map_size_empty.
Qed.

Lemma add_data_item_then_get_witness :
  let setting' :=
    nm_setting_vpn_add_data_item nm_setting_vpn_new (Some "gateway") (Some "vpn.example.org") in
  nm_setting_vpn_get_data_item setting' (Some "gateway") = Some "vpn.example.org"
  ∧ nm_setting_vpn_get_num_data_items setting' = 1%nat.
Proof.
  intros setting'. subst setting'.
  pose proof (add_data_item_then_get nm_setting_vpn_new "gateway" "vpn.example.org"
                ltac:(done)) as (H1 & _ & H3 & _).
  split; [exact H1|]. rewrite H3. reflexivity.
Defined.

(** [nm_setting_vpn_remove_data_item] returns [TRUE] exactly when the getter
    finds an item under the key.  When it returns [FALSE] the setting is as
    it was, notifications included; when it returns [TRUE] the key has no
    item any more, there is one item less, and [data] was notified. *)
Theorem remove_data_item_reports_presence (setting : NMSettingVpn) (key : option string) :
  let removed := nm_setting_vpn_remove_data_item setting key in
  (removed.2 = true ↔ is_Some (nm_setting_vpn_get_data_item setting key))
  ∧ (removed.2 = false → removed.1 = setting)
  ∧ (removed.2 = true →
     nm_setting_vpn_get_data_item removed.1 key = None
     ∧ S (nm_setting_vpn_get_num_data_items removed.1)
       = nm_setting_vpn_get_num_data_items setting
     ∧ vpn_notified removed.1 = PROP_DATA :: vpn_notified setting).
Proof.
  unfold nm_setting_vpn_remove_data_item, nm_setting_vpn_get_data_item,
    nm_setting_vpn_get_num_data_items.
  destruct (key_is_set key) as [k|] eqn:Hk; cbn.
  2: { split; [split; [done | by intros [? ?]]|]. done. }
  destruct (vpn_data setting) as [h|] eqn:Hdata; cbn.
  2: { split; [split; [done | by intros [? ?]]|]. done. }
  destruct (h !! k) as [item|] eqn:Hitem; cbn.
  - split; [split; [eauto | done]|]. split; [done|]. intros _.
    rewrite lookup_delete_eq. split; [done|]. split; [|done].
    rewrite map_size_delete, Hitem.
    assert (size h ≠ 0%nat); [|lia].
    intros Hz. apply map_size_empty_inv in Hz. by rewrite Hz, lookup_empty in Hitem.
  - split; [split; [done | by intros [? ?]]|]. done.
Qed.

(** The secrets are kept like the data items: a secret that was added with a
    non-empty key is the secret that is read, the other secrets are as they
    were, and a secret that [nm_setting_vpn_remove_secret] reports removed is
    not read any more. *)
Theorem add_secret_then_get (setting : NMSettingVpn) (key : string) (secret : string) :
  key ≠ EmptyString →
  let setting' := nm_setting_vpn_add_secret setting (Some key) (Some secret) in
  let removed := nm_setting_vpn_remove_secret setting' (Some key) in
  nm_setting_vpn_get_secret setting' (Some key) = Some secret
  ∧ (∀ other, other ≠ Some key →
       nm_setting_vpn_get_secret setting' other = nm_setting_vpn_get_secret setting other)
  ∧ nm_setting_vpn_get_num_secrets setting'
    = (if nm_setting_vpn_get_secret setting (Some key) is Some _
       then nm_setting_vpn_get_num_secrets setting
       else S (nm_setting_vpn_get_num_secrets setting))
  ∧ removed.2 = true
  ∧ nm_setting_vpn_get_secret removed.1 (Some key) = None
  ∧ nm_setting_vpn_add_secret setting' (Some key) None = removed.1.
Proof.
  intros Hkey setting' removed. subst removed setting'.
  unfold nm_setting_vpn_add_secret, nm_setting_vpn_remove_secret, nm_setting_vpn_get_secret,
    nm_setting_vpn_get_num_secrets, nm_g_hash_table_lookup.
  rewrite !key_is_set_Some by done. cbn. rewrite !lookup_insert_eq. cbn.
  rewrite lookup_delete_eq.
  split; [done|]. split; [|split; [|done]].
  - intros other Hother. destruct (key_is_set other) as [k|] eqn:Hk; [|done].
    apply key_is_set_inv in Hk as [-> _].
    rewrite lookup_insert_ne by congruence.
    destruct (vpn_secrets setting); [done|]. apply lookup_empty.
  - destruct (vpn_secrets setting) as [h|]; cbn.
    + destruct (h !! key) eqn:Hitem.
      * by rewrite map_size_insert_Some.
      * by rewrite map_size_insert_None.
    + by rewrite map_size_insert_None, map_size_empty.
Qed.

Lemma add_secret_then_get_witness :
  let setting' := nm_setting_vpn_add_secret nm_setting_vpn_new (Some "password") (Some "x") in
  nm_setting_vpn_get_secret setting' (Some "password") = Some "x"
  ∧ nm_setting_vpn_get_num_secrets setting' = 1%nat.
Proof.
  intros setting'. subst setting'.
  pose proof (add_secret_then_get nm_setting_vpn_new "password" "x" ltac:(done))
    as (H1 & _ & H3 & _).
  split; [exact H1|]. rewrite H3. reflexivity.
Defined.

(** Data items and secrets are two tables: no call on the data items changes
    what is read as a secret, and no call on the secrets changes what is read
    as a data item, whatever the keys and values. *)
Theorem data_and_secrets_are_separate (setting : NMSettingVpn) (key value : option string) :
  vpn_secrets (nm_setting_vpn_add_data_item setting key value) = vpn_secrets setting
  ∧ vpn_secrets (nm_setting_vpn_remove_data_item setting key).1 = vpn_secrets setting
  ∧ vpn_data (nm_setting_vpn_add_secret setting key value) = vpn_data setting
  ∧ vpn_data (nm_setting_vpn_remove_secret setting key).1 = vpn_data setting
  ∧ ∀ other,
      nm_setting_vpn_get_secret (nm_setting_vpn_add_data_item setting key value) other
      = nm_setting_vpn_get_secret setting other
      ∧ nm_setting_vpn_get_data_item (nm_setting_vpn_add_secret setting key value) other
        = nm_setting_vpn_get_data_item setting other.
Proof.
  assert (Hrd : vpn_secrets (nm_setting_vpn_remove_data_item setting key).1
                = vpn_secrets setting).
  { unfold nm_setting_vpn_remove_data_item.
    destruct (key_is_set key); [|done]. destruct (vpn_data setting) as [h|]; [|done].
    by destruct (h !! s). }
  assert (Hrs : vpn_data (nm_setting_vpn_remove_secret setting key).1 = vpn_data setting).
  { unfold nm_setting_vpn_remove_secret.
    destruct (key_is_set key); [|done]. destruct (vpn_secrets setting) as [h|]; [|done].
    by destruct (h !! s). }
  assert (Had : vpn_secrets (nm_setting_vpn_add_data_item setting key value)
                = vpn_secrets setting).
  { unfold nm_setting_vpn_add_data_item. destruct value; [|done].
    by destruct (key_is_set key). }
  assert (Has : vpn_data (nm_setting_vpn_add_secret setting key value) = vpn_data setting).
  { unfold nm_setting_vpn_add_secret. destruct value; [|done].
    by destruct (key_is_set key). }
  repeat split; try done.
  - unfold nm_setting_vpn_get_secret. by rewrite Had.
  - unfold nm_setting_vpn_get_data_item. by rewrite Has.
Qed.
(** ** The flags of a secret *)

Section vpn_secret_facts.
Context `{!NmSettingApi}.

Lemma nonempty_iff (s : string) : nonempty s = true ↔ s ≠ EmptyString.
Proof. by destruct s. Qed.

(** [get_secret_flags] fails in two cases only: the name is empty, or the
    data items hold no flags for the name and there is no secret of that
    name.  In every other case it succeeds, also when the stored flags do
    not parse; the flags it hands out are then [NM_SETTING_SECRET_FLAG_NONE],
    as they are when no flags are stored. *)
Theorem get_secret_flags_fails_exactly (setting : NMSettingVpn) (secret_name : string) :
  let flags_val := nm_g_hash_table_lookup (vpn_data setting) (secret_name +:+ "-flags") in
  ((get_secret_flags setting secret_name).1 = false
   ↔ secret_name = EmptyString
     ∨ (flags_val = None ∧ nm_setting_vpn_get_secret setting (Some secret_name) = None))
  ∧ (secret_name ≠ EmptyString → flags_val = None →
     (get_secret_flags setting secret_name).2 = Some NM_SETTING_SECRET_FLAG_NONE)
  ∧ (∀ stored, secret_name ≠ EmptyString → flags_val = Some stored →
     _nm_setting_secret_flags_valid
       (_nm_utils_ascii_str_to_int64 stored 10 0 NM_SETTING_SECRET_FLAG_ALL (-1)) = false →
     get_secret_flags setting secret_name = (true, Some NM_SETTING_SECRET_FLAG_NONE)).
Proof.
  intros flags_val. subst flags_val.
  unfold get_secret_flags, nm_setting_vpn_get_secret.
  destruct secret_name as [|c s]; cbn [nonempty negb key_is_set].
  { split; [split; [by left | done]|]. done. }
  destruct (nm_g_hash_table_lookup (vpn_data setting) _) as [stored|] eqn:Hflags.
  - split; [|split; [done|]].
    + split; [|by intros [?|[? _]]].
      by destruct (_ || _).
    + intros stored' _ [= <-] Hvalid. by rewrite Hvalid, orb_true_r.
  - split; [|split; [|done]].
    + destruct (nm_g_hash_table_lookup (vpn_secrets setting) _); cbn.
      * split; [done | by intros [?|[_ ?]]].
      * split; [by right | done].
    + intros _ _. by destruct (nm_g_hash_table_lookup (vpn_secrets setting) _).
Qed.

(** Flags that were set are found: for a non-empty name [set_secret_flags]
    succeeds, stores the flags among the data items under [<name>-flags]
    and leaves the secrets alone; [get_secret_flags] succeeds afterwards,
    with or without a secret of that name, and hands out the flags that were
    set whenever the parser reads back the number that was printed and the
    flags are valid.  For the empty name both calls fail and nothing is
    changed. *)
Theorem set_secret_flags_then_get (setting : NMSettingVpn) (secret_name : string) (flags : N) :
  let set := set_secret_flags setting secret_name flags in
  (secret_name ≠ EmptyString →
     set.2 = true
     ∧ nm_setting_vpn_get_data_item set.1 (Some (secret_name +:+ "-flags"))
       = Some (pretty flags)
     ∧ vpn_secrets set.1 = vpn_secrets setting
     ∧ (get_secret_flags set.1 secret_name).1 = true
     ∧ (_nm_utils_ascii_str_to_int64 (pretty flags) 10 0 NM_SETTING_SECRET_FLAG_ALL (-1)
        = Z.of_N flags →
        _nm_setting_secret_flags_valid (Z.of_N flags) = true →
        (get_secret_flags set.1 secret_name).2 = Some (Z.of_N flags)))
  ∧ (secret_name = EmptyString →
     set = (setting, false) ∧ get_secret_flags setting secret_name = (false, None)).
Proof.
  intros set. subst set. unfold set_secret_flags, get_secret_flags.
  destruct secret_name as [|c s]; cbn [nonempty negb].
  { split; done. }
  split; [|done]. intros _. cbn [fst snd with_data _notify vpn_data vpn_secrets].
  unfold nm_setting_vpn_get_data_item, nm_g_hash_table_lookup.
  cbn [key_is_set nonempty String.append with_data _notify vpn_data mbind option_bind].
  rewrite !lookup_insert_eq, string_app_cons. cbn [nonempty]. rewrite lookup_insert_eq.
  split; [done|]. split; [done|]. split; [done|]. split.
  - by destruct (_ || _).
  - intros -> ->. cbn [negb]. rewrite orb_false_r.
    destruct (Z.eqb_spec (Z.of_N flags) (-1)); [lia | done].
Qed.

End vpn_secret_facts.
(** ** Updating the secrets *)

Lemma with_secrets_same (setting : NMSettingVpn) :
  with_secrets setting (vpn_secrets setting) = setting.
Proof. by destruct setting. Qed.

Lemma nm_streq0_true (s1 s2 : option string) : nm_streq0 s1 s2 = true ↔ s1 = s2.
Proof. unfold nm_streq0. apply bool_decide_eq_true. Qed.

Lemma lookup_ensure_strdict (hash : option (gmap string string)) (key : string) :
  _ensure_strdict hash !! key = nm_g_hash_table_lookup hash key.
Proof. destruct hash; [done|]. apply lookup_empty. Qed.

Lemma get_secret_lookup (setting : NMSettingVpn) (key : string) :
  key ≠ EmptyString →
  nm_setting_vpn_get_secret setting (Some key)
  = nm_g_hash_table_lookup (vpn_secrets setting) key.
Proof. intros Hkey. unfold nm_setting_vpn_get_secret. by rewrite key_is_set_Some. Qed.

Lemma update_secret_entry_inv (acc : NMSettingVpn * NMSettingUpdateSecretResult)
    (entry : string * string) :
  let r := update_secret_entry acc entry in
  nm_g_hash_table_lookup (vpn_secrets r.1) entry.1 = Some entry.2
  ∧ (∀ k, k ≠ entry.1 →
       nm_g_hash_table_lookup (vpn_secrets r.1) k
       = nm_g_hash_table_lookup (vpn_secrets acc.1) k)
  ∧ r.1 = with_secrets acc.1 (vpn_secrets r.1)
  ∧ (r = acc ∨ r.2 = NM_SETTING_UPDATE_SECRET_SUCCESS_MODIFIED).
Proof.
  unfold update_secret_entry.
  destruct (nm_streq0 _ _) eqn:Heq; cbn.
  - apply nm_streq0_true in Heq. rewrite with_secrets_same. auto.
  - rewrite lookup_insert_eq. split; [done|]. split; [|auto].
    intros k Hk. by rewrite lookup_insert_ne, lookup_ensure_strdict.
Qed.

Lemma update_secret_entries_inv (entries : list (string * string)) :
  ∀ acc : NMSettingVpn * NMSettingUpdateSecretResult,
  let r := foldl update_secret_entry acc entries in
  (∀ k, k ∉ entries.*1 →
     nm_g_hash_table_lookup (vpn_secrets r.1) k
     = nm_g_hash_table_lookup (vpn_secrets acc.1) k)
  ∧ r.1 = with_secrets acc.1 (vpn_secrets r.1)
  ∧ (r = acc ∨ r.2 = NM_SETTING_UPDATE_SECRET_SUCCESS_MODIFIED).
Proof.
  induction entries as [|entry entries IH]; intros acc; cbn.
  { rewrite with_secrets_same. auto. }
  destruct (IH (update_secret_entry acc entry)) as (Hk & Hs & Hr).
  destruct (update_secret_entry_inv acc entry) as (_ & Hk1 & Hs1 & Hr1).
  split; [|split].
  - intros k Hnotin. apply not_elem_of_cons in Hnotin as [Hne Hnotin].
    rewrite Hk by done. by apply Hk1.
  - rewrite Hs. rewrite Hs1 at 1. done.
  - destruct Hr as [->|Hr]; [|by right]. done.
Qed.

Lemma update_secret_entries_last (front rest : list (string * string)) (name value : string)
    (acc : NMSettingVpn * NMSettingUpdateSecretResult) :
  name ∉ rest.*1 →
  nm_g_hash_table_lookup
    (vpn_secrets (foldl update_secret_entry acc (front ++ (name, value) :: rest)).1) name
  = Some value.
Proof.
  intros Hrest. rewrite foldl_app. cbn [foldl].
  destruct (update_secret_entries_inv rest
              (update_secret_entry (foldl update_secret_entry acc front) (name, value)))
    as (Hk & _).
  rewrite Hk by done.
  by destruct (update_secret_entry_inv (foldl update_secret_entry acc front) (name, value))
    as (Hv & _).
Qed.

Lemma existsb_empty_name (entries : list (string * string)) :
  existsb (λ entry, negb (nonempty entry.1)) entries = true
  ↔ ∃ value, (EmptyString, value) ∈ entries.
Proof.
  rewrite existsb_exists. split.
  - intros ([name value] & Hin & Hname). apply list_elem_of_In in Hin.
    destruct name; [|done]. eauto.
  - intros [value Hin]. exists (EmptyString, value). split; [|done].
    by apply list_elem_of_In.
Qed.

Lemma update_secret_dict_inv (setting : NMSettingVpn)
    (secrets : option (list (string * string))) :
  let r := update_secret_dict setting secrets in
  r.1 = with_secrets setting (vpn_secrets r.1)
  ∧ (r.2 ≠ NM_SETTING_UPDATE_SECRET_SUCCESS_MODIFIED → r.1 = setting).
Proof.
  unfold update_secret_dict. destruct secrets as [entries|]; cbn.
  2: { by rewrite with_secrets_same. }
  destruct (existsb _ entries); cbn.
  { by rewrite with_secrets_same. }
  destruct (update_secret_entries_inv entries
              (setting, NM_SETTING_UPDATE_SECRET_SUCCESS_UNCHANGED)) as (_ & Hs & Hr).
  split; [done|]. intros Hne. destruct Hr as [->|Hr]; done.
Qed.

Lemma update_secret_string_inv (setting : NMSettingVpn) (key value : option string) :
  let r := update_secret_string setting key value in
  r.1 = with_secrets setting (vpn_secrets r.1)
  ∧ (r.2 ≠ NM_SETTING_UPDATE_SECRET_SUCCESS_MODIFIED → r.1 = setting).
Proof.
  unfold update_secret_string.
  destruct (key_is_set key), value; cbn; try (by rewrite with_secrets_same).
  destruct (nm_streq0 _ _); cbn; [by rewrite with_secrets_same | done].
Qed.

Section vpn_update_facts.
Context `{!NmSettingApi}.

(** [update_one_secret] changes the setting only when it reports that it
    did: on an error and on "unchanged" the setting is exactly as it was.
    When it reports a modification, only the secrets differ and [secrets]
    was notified once.  A value of a wrong type and a dictionary under
    another name than that of the secrets property are errors. *)
Theorem update_one_secret_reports_changes (setting : NMSettingVpn) (key : option string)
    (value : option GVariant) :
  let r := update_one_secret setting key value in
  (r.2 ≠ NM_SETTING_UPDATE_SECRET_SUCCESS_MODIFIED → r.1 = setting)
  ∧ (r.2 = NM_SETTING_UPDATE_SECRET_SUCCESS_MODIFIED →
     r.1 = _notify (with_secrets setting (vpn_secrets r.1)) PROP_SECRETS)
  ∧ (value = Some GVariant_other ∨ value = None ∨ key = None
     ∨ (∃ k entries, key = Some k ∧ k ≠ NM_SETTING_VPN_SECRETS
                     ∧ value = Some (GVariant_a_ss entries)) →
     r.2 = NM_SETTING_UPDATE_SECRET_ERROR).
Proof.
  intros r. subst r. unfold update_one_secret.
  pose (value_errors (k : string) (v : GVariant) :=
          v = GVariant_other
          ∨ ∃ entries, k ≠ NM_SETTING_VPN_SECRETS ∧ v = GVariant_a_ss entries).
  destruct key as [k|]; [|cbn; naive_solver].
  destruct value as [v|]; [|cbn; naive_solver].
  cbv zeta.
  set (updated := match v with
                  | GVariant_string s => _ | GVariant_a_ss entries => _
                  | GVariant_other => _ end).
  assert (Hupd : updated.1 = with_secrets setting (vpn_secrets updated.1)
                 ∧ (updated.2 ≠ NM_SETTING_UPDATE_SECRET_SUCCESS_MODIFIED
                    → updated.1 = setting)).
  { subst updated. destruct v as [s|entries|].
    - apply update_secret_string_inv.
    - destruct (negb _); [by rewrite with_secrets_same|]. apply update_secret_dict_inv.
    - by rewrite with_secrets_same. }
  destruct Hupd as [Hs Hne].
  assert (Herr : value_errors k v → updated.2 = NM_SETTING_UPDATE_SECRET_ERROR).
  { subst updated. intros [->|(entries & Hk & ->)]; [done|]. cbn.
    by destruct (String.eqb_spec k NM_SETTING_VPN_SECRETS). }
  clearbody updated. destruct updated as [setting' res]. cbn [fst snd] in *.
  split; [|split].
  - destruct res; cbn; intros ?; try done; by apply Hne.
  - destruct res; cbn; intros ?; try done. by rewrite Hs at 1.
  - intros Hv. rewrite Herr; [done|]. unfold value_errors.
    destruct Hv as [[= ->]|[?|[?|(k' & entries & [= <-] & Hk & [= ->])]]]; try done;
      eauto.
Qed.

(** A dictionary of secrets is taken whole or not at all.  It is refused
    exactly when one of its names is empty, and then nothing is stored, not
    even the entries before the empty name.  Otherwise every entry is
    stored: a name has the value of its last entry, and the secrets that the
    dictionary does not name are as they were. *)
Theorem update_secret_dict_last_value_wins (setting : NMSettingVpn)
    (entries : list (string * string)) :
  let r := update_one_secret setting (Some NM_SETTING_VPN_SECRETS)
             (Some (GVariant_a_ss entries)) in
  (r.2 = NM_SETTING_UPDATE_SECRET_ERROR ↔ ∃ value, (EmptyString, value) ∈ entries)
  ∧ (r.2 = NM_SETTING_UPDATE_SECRET_ERROR → r.1 = setting)
  ∧ (r.2 ≠ NM_SETTING_UPDATE_SECRET_ERROR →
     (∀ front name value rest,
        entries = (front ++ (name, value) :: rest)%list → name ∉ rest.*1 →
        nm_setting_vpn_get_secret r.1 (Some name) = Some value)
     ∧ (∀ name, name ∉ entries.*1 →
        nm_setting_vpn_get_secret r.1 (Some name)
        = nm_setting_vpn_get_secret setting (Some name))).
Proof.
  unfold update_one_secret. rewrite String.eqb_refl. cbn [negb].
  unfold update_secret_dict.
  pose proof (existsb_empty_name entries) as Hempty.
  destruct (existsb _ entries) eqn:Hex; cbn.
  { split; [split; [intros _; by apply Hempty | done]|]. done. }
  set (r := foldl _ _ entries).
  assert (Hres : r.2 ≠ NM_SETTING_UPDATE_SECRET_ERROR).
  { destruct (update_secret_entries_inv entries
                (setting, NM_SETTING_UPDATE_SECRET_SUCCESS_UNCHANGED)) as (_ & _ & [Hr|Hr]);
      fold r in Hr; by rewrite Hr. }
  assert (Hnames : ∀ name value, (name, value) ∈ entries → name ≠ EmptyString).
  { intros name value Hin ->. assert (false = true); [|done]. apply Hempty. eauto. }
  assert (Hlast : ∀ front name value rest,
            entries = (front ++ (name, value) :: rest)%list → name ∉ rest.*1 →
            nm_g_hash_table_lookup (vpn_secrets r.1) name = Some value).
  { intros front name value rest -> Hrest. subst r. by apply update_secret_entries_last. }
  assert (Hother : ∀ name, name ∉ entries.*1 →
            nm_g_hash_table_lookup (vpn_secrets r.1) name
            = nm_g_hash_table_lookup (vpn_secrets setting) name).
  { intros name Hname.
    destruct (update_secret_entries_inv entries
                (setting, NM_SETTING_UPDATE_SECRET_SUCCESS_UNCHANGED)) as (Hk & _).
    by apply Hk. }
  clearbody r. destruct r as [setting' res]. cbn [fst snd] in *.
  assert (Hsame : vpn_secrets (match res with
                          | NM_SETTING_UPDATE_SECRET_SUCCESS_MODIFIED =>
                              (_notify setting' PROP_SECRETS, res)
                          | _ => (setting', res) end).1 = vpn_secrets setting').
  { by destruct res. }
  split; [|split].
  - split; [by destruct res | by intros ?%(proj2 Hempty)].
  - by destruct res.
  - intros _. split.
    + intros front name value rest Hentries Hrest.
      rewrite get_secret_lookup, Hsame.
      * by eapply Hlast.
      * apply (Hnames name value). rewrite Hentries. apply elem_of_app. right. left.
    + intros name Hname. unfold nm_setting_vpn_get_secret.
      destruct (key_is_set (Some name)) as [k|] eqn:Hkey; [|done].
      apply key_is_set_inv in Hkey as [[= <-] _].
      rewrite Hsame. by apply Hother.
Qed.

End vpn_update_facts.
(** A secret that arrives as a string is stored under its key: for a
    non-empty key the call never fails, the secret is read back afterwards,
    the other secrets are as they were, and the call reports "unchanged"
    exactly when the secret was stored already. *)
Theorem update_one_secret_string_stores `{!NmSettingApi} (setting : NMSettingVpn)
    (key value : string) :
  key ≠ EmptyString →
  let r := update_one_secret setting (Some key) (Some (GVariant_string value)) in
  nm_setting_vpn_get_secret r.1 (Some key) = Some value
  ∧ (∀ other, other ≠ Some key →
       nm_setting_vpn_get_secret r.1 other = nm_setting_vpn_get_secret setting other)
  ∧ r.2 ≠ NM_SETTING_UPDATE_SECRET_ERROR
  ∧ (r.2 = NM_SETTING_UPDATE_SECRET_SUCCESS_UNCHANGED
     ↔ nm_setting_vpn_get_secret setting (Some key) = Some value).
Proof.
  intros Hkey r. subst r.
  unfold update_one_secret, update_secret_string, nm_setting_vpn_get_secret.
  rewrite !key_is_set_Some by done. cbv zeta.
  destruct (nm_streq0 _ _) eqn:Heq; cbn.
  - apply nm_streq0_true in Heq. done.
  - rewrite lookup_insert_eq. split; [done|]. split; [|split; [done|]].
    + intros other Hother. destruct (key_is_set other) as [k|] eqn:Hk; [|done].
      apply key_is_set_inv in Hk as [-> _].
      rewrite lookup_insert_ne by congruence. apply lookup_ensure_strdict.
    + split; [done|]. intros Hget. apply nm_streq0_true in Hget. congruence.
Qed.

Lemma update_one_secret_string_stores_witness :
  let r := @update_one_secret example_nm_setting_api nm_setting_vpn_new (Some "password")
             (Some (GVariant_string "x")) in
  nm_setting_vpn_get_secret r.1 (Some "password") = Some "x"
  ∧ r.2 = NM_SETTING_UPDATE_SECRET_SUCCESS_MODIFIED.
Proof.
  intros r. subst r.
  pose proof (@update_one_secret_string_stores example_nm_setting_api nm_setting_vpn_new
                "password" "x" ltac:(done)) as (H1 & _).
  split; [exact H1 | reflexivity].
Defined.

(** ** Replacing the secrets and the data items *)

Lemma secrets_from_dbus_entry_inv (s : NMSettingVpn) (entry : string * string) :
  let s' := secrets_from_dbus_entry s entry in
  (entry.1 ≠ EmptyString → nm_g_hash_table_lookup (vpn_secrets s') entry.1 = Some entry.2)
  ∧ (∀ k, k ≠ entry.1 →
       nm_g_hash_table_lookup (vpn_secrets s') k = nm_g_hash_table_lookup (vpn_secrets s) k)
  ∧ s' = with_secrets s (vpn_secrets s')
  ∧ (nm_g_hash_table_lookup (vpn_secrets s) EmptyString = None →
     nm_g_hash_table_lookup (vpn_secrets s') EmptyString = None).
Proof.
  unfold secrets_from_dbus_entry. destruct entry as [[|c name] value]; cbn.
  { by rewrite with_secrets_same. }
  rewrite lookup_insert_eq. split; [done|]. split; [|split; [done|]].
  - intros k Hk. by rewrite lookup_insert_ne, lookup_ensure_strdict.
  - intros Hnone. by rewrite lookup_insert_ne, lookup_ensure_strdict.
Qed.

Lemma secrets_from_dbus_fold_inv (value : list (string * string)) :
  ∀ s : NMSettingVpn,
  let s' := foldl secrets_from_dbus_entry s value in
  (∀ k, k ∉ value.*1 →
     nm_g_hash_table_lookup (vpn_secrets s') k = nm_g_hash_table_lookup (vpn_secrets s) k)
  ∧ s' = with_secrets s (vpn_secrets s')
  ∧ (nm_g_hash_table_lookup (vpn_secrets s) EmptyString = None →
     nm_g_hash_table_lookup (vpn_secrets s') EmptyString = None).
Proof.
  induction value as [|entry value IH]; intros s; cbn.
  { by rewrite with_secrets_same. }
  destruct (secrets_from_dbus_entry_inv s entry) as (_ & Hk1 & Hs1 & He1).
  destruct (IH (secrets_from_dbus_entry s entry)) as (Hk & Hs & He).
  split; [|split].
  - intros k Hnotin. apply not_elem_of_cons in Hnotin as [Hne Hnotin].
    rewrite Hk by done. by apply Hk1.
  - rewrite Hs. rewrite Hs1 at 1. done.
  - auto.
Qed.

(** [vpn_secrets_from_dbus] replaces the secrets: afterwards a name is a
    secret exactly when the value that arrived has an entry for it, with the
    value of its last entry; what was stored before is gone, the empty name
    is never stored, the data items are untouched, and [secrets] is notified
    once. *)
Theorem secrets_from_dbus_replaces (setting : NMSettingVpn)
    (value : list (string * string)) :
  let r := vpn_secrets_from_dbus setting value in
  r.2 = true
  ∧ r.1 = _notify (with_secrets setting (vpn_secrets r.1)) PROP_SECRETS
  ∧ (∀ front name secret rest,
       value = (front ++ (name, secret) :: rest)%list → name ∉ rest.*1 →
       name ≠ EmptyString →
       nm_setting_vpn_get_secret r.1 (Some name) = Some secret)
  ∧ (∀ name, name ∉ value.*1 → nm_g_hash_table_lookup (vpn_secrets r.1) name = None)
  ∧ nm_g_hash_table_lookup (vpn_secrets r.1) EmptyString = None.
Proof.
  intros r. subst r. unfold vpn_secrets_from_dbus. cbn [fst snd _notify vpn_secrets].
  split; [done|]. split; [|split; [|split]].
  - destruct (secrets_from_dbus_fold_inv value (with_secrets setting None)) as (_ & Hs & _).
    rewrite Hs at 1. done.
  - intros front name secret rest -> Hrest Hname.
    rewrite get_secret_lookup by done. cbn [_notify vpn_secrets].
    rewrite foldl_app. cbn [foldl].
    set (s0 := foldl secrets_from_dbus_entry (with_secrets setting None) front).
    destruct (secrets_from_dbus_fold_inv rest (secrets_from_dbus_entry s0 (name, secret)))
      as (Hk & _).
    destruct (secrets_from_dbus_entry_inv s0 (name, secret)) as (Hv & _).
    rewrite Hk by done. by apply Hv.
  - intros name Hname.
    destruct (secrets_from_dbus_fold_inv value (with_secrets setting None)) as (Hk & _).
    by rewrite Hk.
  - destruct (secrets_from_dbus_fold_inv value (with_secrets setting None)) as (_ & _ & He).
    by apply He.
Qed.
Lemma set_property_entry_inv (p_hash : option (gmap string string))
    (entry : string * option string) :
  let p_hash' := set_property_entry p_hash entry in
  (∀ k, k ≠ entry.1 → nm_g_hash_table_lookup p_hash' k = nm_g_hash_table_lookup p_hash k)
  ∧ (nm_g_hash_table_lookup p_hash EmptyString = None →
     nm_g_hash_table_lookup p_hash' EmptyString = None)
  ∧ (entry.1 ≠ EmptyString →
     nm_g_hash_table_lookup p_hash' entry.1
     = match entry.2 with
       | Some val => Some val
       | None => nm_g_hash_table_lookup p_hash entry.1
       end)
  ∧ (p_hash ≠ Some ∅ → p_hash' ≠ Some ∅).
Proof.
  unfold set_property_entry. destruct entry as [name [val|]]; cbn; [|done].
  destruct name as [|c name]; cbn; [done|].
  rewrite lookup_insert_eq. split; [|split; [|split; [done|]]].
  - intros k Hk. by rewrite lookup_insert_ne, lookup_ensure_strdict.
  - intros Hnone. by rewrite lookup_insert_ne, lookup_ensure_strdict.
  - intros _ [= Hempty]. by apply insert_non_empty in Hempty.
Qed.

Lemma set_property_fold_inv (entries : list (string * option string)) :
  ∀ p_hash : option (gmap string string),
  let p_hash' := foldl set_property_entry p_hash entries in
  (∀ k, k ∉ entries.*1 →
     nm_g_hash_table_lookup p_hash' k = nm_g_hash_table_lookup p_hash k)
  ∧ (nm_g_hash_table_lookup p_hash EmptyString = None →
     nm_g_hash_table_lookup p_hash' EmptyString = None)
  ∧ (p_hash ≠ Some ∅ → p_hash' ≠ Some ∅).
Proof.
  induction entries as [|entry entries IH]; intros p_hash; cbn [foldl]; [done|].
  destruct (set_property_entry_inv p_hash entry) as (Hk1 & He1 & _ & Hn1).
  destruct (IH (set_property_entry p_hash entry)) as (Hk & He & Hn).
  split; [|split; auto].
  intros k Hnotin. apply not_elem_of_cons in Hnotin as [Hne Hnotin].
  rewrite Hk by done. by apply Hk1.
Qed.

Lemma set_property_strdict_lookup (src_hash : option (gmap string (option string)))
    (k : string) :
  nm_g_hash_table_lookup (set_property_strdict src_hash) k
  = if nonempty k
    then src_hash ≫= (λ src : gmap string (option string), default None (src !! k))
    else None.
Proof.
  unfold set_property_strdict. destruct src_hash as [src|]; cbn; [|by destruct (nonempty k)].
  destruct (nonempty k) eqn:Hk.
  - destruct (src !! k) as [val|] eqn:Hsrc; cbn.
    + apply elem_of_map_to_list in Hsrc.
      pose proof (NoDup_fst_map_to_list src) as Hnodup.
      apply list_elem_of_split in Hsrc as (front & rest & Hsplit).
      rewrite Hsplit in Hnodup |- *. rewrite fmap_app, fmap_cons in Hnodup.
      apply NoDup_app in Hnodup as (_ & Hfront & Hrest). apply NoDup_cons in Hrest as [Hrest _].
      rewrite foldl_app. cbn [foldl].
      destruct (set_property_fold_inv rest
                  (set_property_entry (foldl set_property_entry None front) (k, val)))
        as (Hk2 & _).
      rewrite Hk2 by done.
      destruct (set_property_entry_inv (foldl set_property_entry None front) (k, val))
        as (_ & _ & Hv & _).
      cbn [fst snd] in Hv. rewrite Hv by (by apply nonempty_iff).
      destruct val as [val|]; [done|].
      destruct (set_property_fold_inv front None) as (Hk1 & _).
      rewrite Hk1; [done|]. intros Hin. apply (Hfront k); [done | left].
    + destruct (set_property_fold_inv (map_to_list src) None) as (Hk1 & _).
      rewrite Hk1; [done|]. intros Hin.
      apply list_elem_of_fmap in Hin as ([k' val] & -> & Hin).
      apply elem_of_map_to_list in Hin. cbn in Hsrc. congruence.
  - destruct k; [|done].
    destruct (set_property_fold_inv (map_to_list src) None) as (_ & He & _). by apply He.
Qed.

(** Setting the property [data] or [secrets] replaces the table by the
    entries of the table that is given, less those with an empty name and
    those without a value, which are dropped without an error.  The other
    table and the other fields are as they were, and when no entry is left
    the table is [NULL], never an empty table. *)
Theorem set_property_replaces (setting : NMSettingVpn) (is_secrets : bool)
    (src_hash : option (gmap string (option string))) :
  let setting' := set_property setting is_secrets src_hash in
  let table := if is_secrets then vpn_secrets setting' else vpn_data setting' in
  (∀ k, nm_g_hash_table_lookup table k
        = if nonempty k
    then src_hash ≫= (λ src : gmap string (option string), default None (src !! k))
    else None)
  ∧ table ≠ Some ∅
  ∧ setting' = (if is_secrets then with_secrets setting table else with_data setting table).
Proof.
  intros setting' table. subst table setting'. unfold set_property.
  assert (Hnull : set_property_strdict src_hash ≠ Some ∅).
  { unfold set_property_strdict. destruct src_hash as [src|]; [|done].
    by apply (set_property_fold_inv (map_to_list src) None). }
  destruct is_secrets; cbn; (split; [apply set_property_strdict_lookup | done]).
Qed.
(** ** Clearing and comparing the secrets *)

Section vpn_clear_compare_facts.
Context `{!NmSettingApi}.

(** [clear_secrets] does something only for a property that is marked as a
    secret, on a setting whose table of secrets exists; every other call
    returns [FALSE] and leaves the setting alone.  When it does something it
    returns [TRUE] and notifies [secrets], whether or not a secret was
    removed.  The secrets that stay are those that [func] refuses, with
    their values; without a [func] none stays, and the table is then empty,
    not [NULL]. *)
Theorem clear_secrets_keeps_refused (param_spec_flags : option Z) (setting : NMSettingVpn)
    (func : option (string → Z → bool)) :
  let r := clear_secrets param_spec_flags setting func in
  (r.2 = true
   ↔ (∃ flags, param_spec_flags = Some flags
               ∧ NM_FLAGS_HAS flags NM_SETTING_PARAM_SECRET = true)
     ∧ is_Some (vpn_secrets setting))
  ∧ (r.2 = false → r.1 = setting)
  ∧ (r.2 = true →
     r.1 = _notify (with_secrets setting (vpn_secrets r.1)) PROP_SECRETS
     ∧ is_Some (vpn_secrets r.1)
     ∧ (∀ secret value,
          nm_g_hash_table_lookup (vpn_secrets r.1) secret = Some value
          ↔ nm_g_hash_table_lookup (vpn_secrets setting) secret = Some value
            ∧ ∃ f, func = Some f
                   ∧ f secret (default NM_SETTING_SECRET_FLAG_NONE
                                 (get_secret_flags setting secret).2) = false)
     ∧ (func = None → nm_setting_vpn_get_num_secrets r.1 = 0%nat)).
Proof.
  intros r. subst r. unfold clear_secrets.
  destruct param_spec_flags as [flags|]; cbn.
  2: { split; [split; [done | by intros [(? & ? & _) _]]|]. done. }
  destruct (NM_FLAGS_HAS flags NM_SETTING_PARAM_SECRET) eqn:Hflags; cbn.
  2: { split; [split; [done | intros [(? & [= <-] & ?) _]; congruence]|]. done. }
  destruct (vpn_secrets setting) as [h|] eqn:Hsecrets; cbn.
  2: { split; [split; [done | by intros [_ [? ?]]]|]. done. }
  split; [split; [eauto | done]|]. split; [done|]. intros _.
  split; [done|]. split; [eauto|]. split.
  - intros secret value. rewrite map_lookup_filter_Some. cbn.
    split.
    + intros [Hv Hstay]. split; [done|]. destruct func as [f|]; [|done].
      exists f. split; [done|]. by apply negb_true_iff.
    + intros [Hv (f & -> & Hf)]. split; [done|]. by rewrite Hf.
  - intros ->. cbn. unfold nm_setting_vpn_get_num_secrets. cbn.
    rewrite map_size_empty_iff. apply map_empty_filter_2.
    intros ???. done.
Qed.

Lemma secrets_differ_true (current_a current_b : NMSettingVpn) (flags : Z) :
  secrets_differ current_a current_b flags = true
  ↔ ∃ key val,
      nm_g_hash_table_lookup (vpn_secrets current_a) key = Some val
      ∧ nm_setting_vpn_get_secret current_b (Some key) ≠ Some val
      ∧ _nm_setting_should_compare_secret_property current_a current_b key flags = true.
Proof.
  unfold secrets_differ. destruct (vpn_secrets current_a) as [h|]; cbn.
  2: { split; [done | by intros (? & ? & ? & _)]. }
  rewrite existsb_exists. unfold secret_differs. split.
  - intros ([key val] & Hin & Hdiff). apply list_elem_of_In, elem_of_map_to_list in Hin.
    apply andb_true_iff in Hdiff as [Hne Hcmp]. cbn in *.
    exists key, val. split; [done|]. split; [|done].
    intros Heq. apply negb_true_iff in Hne.
    assert (nm_streq0 (Some val) (nm_setting_vpn_get_secret current_b (Some key)) = true)
      by (by apply nm_streq0_true). congruence.
  - intros (key & val & Hin & Hne & Hcmp). exists (key, val). split.
    + by apply list_elem_of_In, elem_of_map_to_list.
    + cbn. rewrite Hcmp, andb_true_r. apply negb_true_iff.
      destruct (nm_streq0 _ _) eqn:Heq; [|done]. apply nm_streq0_true in Heq. congruence.
Qed.

(** Two settings are reported to differ in their secrets exactly when the
    comparison is neither fuzzy nor told to ignore secrets, and one of the
    two has a secret that the other does not read with the same value and
    that is to be compared.  The order in which the tables are walked does
    not matter, and neither does the order of the two settings. *)
Theorem compare_property_secrets_differs_exactly (a b : NMSettingVpn) (flags : Z) :
  let differs_from (x y : NMSettingVpn) :=
    ∃ key val,
      nm_g_hash_table_lookup (vpn_secrets x) key = Some val
      ∧ nm_setting_vpn_get_secret y (Some key) ≠ Some val
      ∧ _nm_setting_should_compare_secret_property x y key flags = true in
  (compare_property_secrets a (Some b) flags = NM_TERNARY_FALSE
   ↔ NM_FLAGS_HAS flags NM_SETTING_COMPARE_FLAG_FUZZY = false
     ∧ NM_FLAGS_HAS flags NM_SETTING_COMPARE_FLAG_IGNORE_SECRETS = false
     ∧ (differs_from a b ∨ differs_from b a))
  ∧ (compare_property_secrets a (Some b) flags = NM_TERNARY_DEFAULT
     ↔ NM_FLAGS_HAS flags NM_SETTING_COMPARE_FLAG_FUZZY = true
       ∨ NM_FLAGS_HAS flags NM_SETTING_COMPARE_FLAG_IGNORE_SECRETS = true)
  ∧ compare_property_secrets a (Some b) flags = compare_property_secrets b (Some a) flags.
Proof.
  intros differs_from.
  assert (Hab := secrets_differ_true a b flags).
  assert (Hba := secrets_differ_true b a flags).
  fold (differs_from a b) in Hab. fold (differs_from b a) in Hba.
  unfold compare_property_secrets.
  destruct (NM_FLAGS_HAS flags NM_SETTING_COMPARE_FLAG_FUZZY).
  { split; [split; [done | by intros [? _]]|]. split; [split; auto | done]. }
  destruct (NM_FLAGS_HAS flags NM_SETTING_COMPARE_FLAG_IGNORE_SECRETS).
  { split; [split; [done | by intros (_ & ? & _)]|]. split; [split; auto | done]. }
  assert (Hor : secrets_differ a b flags || secrets_differ b a flags = true
                ↔ differs_from a b ∨ differs_from b a).
  { rewrite orb_true_iff. by rewrite Hab, Hba. }
  clear Hab Hba.
  split; [|split].
  - destruct (secrets_differ a b flags), (secrets_differ b a flags); cbn in Hor.
    all: split;
      [ intros Hx; first [done | split; [done|]; split; [done|]; by apply Hor]
      | intros (_ & _ & Hd); apply Hor in Hd; done ].
  - destruct (secrets_differ a b flags), (secrets_differ b a flags);
      (split; [done | by intros [?|?]]).
  - by destruct (secrets_differ a b flags), (secrets_differ b a flags).
Qed.

End vpn_clear_compare_facts.
(** ** What every VPN setting satisfies *)

Section vpn_history_facts.
Context `{!NmSettingApi}.

Lemma get_data_item_lookup (setting : NMSettingVpn) (key : string) :
  key ≠ EmptyString →
  nm_setting_vpn_get_data_item setting (Some key)
  = nm_g_hash_table_lookup (vpn_data setting) key.
Proof. intros Hkey. unfold nm_setting_vpn_get_data_item. by rewrite key_is_set_Some. Qed.

Lemma vpn_call_run_keeps (setting : NMSettingVpn) (call : vpn_call) :
  nm_g_hash_table_lookup (vpn_data setting) EmptyString = None →
  nm_g_hash_table_lookup (vpn_secrets setting) EmptyString = None →
  nm_g_hash_table_lookup (vpn_data (vpn_call_run setting call)) EmptyString = None
  ∧ nm_g_hash_table_lookup (vpn_secrets (vpn_call_run setting call)) EmptyString = None.
Proof.
  intros Hdata Hsecrets.
  assert (Hrd : ∀ key,
            nm_g_hash_table_lookup (vpn_data (nm_setting_vpn_remove_data_item setting key).1)
              EmptyString = None
            ∧ vpn_secrets (nm_setting_vpn_remove_data_item setting key).1
              = vpn_secrets setting).
  { intros key. unfold nm_setting_vpn_remove_data_item.
    destruct (key_is_set key) as [k|]; [|done].
    destruct (vpn_data setting) as [h|] eqn:Hh; [|cbn [fst]; by rewrite ?Hh].
    destruct (h !! k); [|cbn [fst]; by rewrite ?Hh]. cbn in *. split; [|done].
    apply lookup_delete_None. by right. }
  assert (Hrs : ∀ key,
            nm_g_hash_table_lookup
              (vpn_secrets (nm_setting_vpn_remove_secret setting key).1) EmptyString = None
            ∧ vpn_data (nm_setting_vpn_remove_secret setting key).1 = vpn_data setting).
  { intros key. unfold nm_setting_vpn_remove_secret.
    destruct (key_is_set key) as [k|]; [|done].
    destruct (vpn_secrets setting) as [h|] eqn:Hh; [|cbn [fst]; by rewrite ?Hh].
    destruct (h !! k); [|cbn [fst]; by rewrite ?Hh]. cbn in *. split; [|done].
    apply lookup_delete_None. by right. }
  destruct call as [key item|key|key secret|key|secret_name flags|key value
                   |param_spec_flags func|value|is_secrets src_hash]; cbn [vpn_call_run].
  - unfold nm_setting_vpn_add_data_item. destruct item as [item|].
    + destruct (key_is_set key) as [k|] eqn:Hk; [|done].
      apply key_is_set_inv in Hk as [_ Hk]. cbn. split; [|done].
      by rewrite lookup_insert_ne, lookup_ensure_strdict.
    + destruct (Hrd key) as [? ->]. done.
  - destruct (Hrd key) as [? ->]. done.
  - unfold nm_setting_vpn_add_secret. destruct secret as [secret|].
    + destruct (key_is_set key) as [k|] eqn:Hk; [|done].
      apply key_is_set_inv in Hk as [_ Hk]. cbn. split; [done|].
      by rewrite lookup_insert_ne, lookup_ensure_strdict.
    + destruct (Hrs key) as [? ->]. done.
  - destruct (Hrs key) as [? ->]. done.
  - unfold set_secret_flags. destruct secret_name as [|c name]; cbn; [done|].
    split; [|done]. rewrite string_app_cons.
    by rewrite lookup_insert_ne, lookup_ensure_strdict.
  - unfold update_one_secret.
    destruct key as [k|]; [|done]. destruct value as [v|]; [|done]. cbv zeta.
    set (updated := match v with
                    | GVariant_string s => _ | GVariant_a_ss entries => _
                    | GVariant_other => _ end).
    assert (Hupd : vpn_data updated.1 = vpn_data setting
                   ∧ nm_g_hash_table_lookup (vpn_secrets updated.1) EmptyString = None).
    { subst updated. destruct v as [s|entries|]; [| |done].
      - unfold update_secret_string.
        destruct (key_is_set (Some k)) as [k'|] eqn:Hk; [|done].
        apply key_is_set_inv in Hk as [_ Hk].
        destruct (nm_streq0 _ _); cbn; [done|]. split; [done|].
        by rewrite lookup_insert_ne, lookup_ensure_strdict.
      - destruct (negb _); [done|]. unfold update_secret_dict.
        destruct (existsb _ entries) eqn:Hex; [done|].
        destruct (update_secret_entries_inv entries
                    (setting, NM_SETTING_UPDATE_SECRET_SUCCESS_UNCHANGED)) as (Hk & Hs & _).
        cbv zeta in Hk, Hs. split; [by rewrite Hs|].
        rewrite Hk; [done|]. intros Hin.
        apply list_elem_of_fmap in Hin as ([name val] & Hname & Hin). cbn in Hname. subst name.
        assert (false = true); [|done]. rewrite <- Hex. apply existsb_empty_name. eauto. }
    clearbody updated. destruct updated as [setting' res]. cbn [fst snd] in *.
    destruct Hupd as [Hd Hs]. destruct res; cbn; by rewrite Hd.
  - unfold clear_secrets. destruct param_spec_flags as [flags|]; [|done].
    destruct (negb _); [done|].
    destruct (vpn_secrets setting) as [h|] eqn:Hh; [|cbn [fst]; by rewrite ?Hh].
    cbn in *. split; [done|]. apply map_lookup_filter_None. by left.
  - unfold vpn_secrets_from_dbus. cbn [fst _notify vpn_data vpn_secrets].
    destruct (secrets_from_dbus_fold_inv value (with_secrets setting None)) as (_ & Hs & He).
    cbv zeta in Hs, He. split; [by rewrite Hs | by apply He].
  - unfold set_property.
    pose proof (set_property_strdict_lookup src_hash EmptyString) as Hempty.
    by destruct is_secrets.
Qed.

Lemma vpn_history_keeps (calls : list vpn_call) :
  ∀ setting,
  nm_g_hash_table_lookup (vpn_data setting) EmptyString = None →
  nm_g_hash_table_lookup (vpn_secrets setting) EmptyString = None →
  nm_g_hash_table_lookup (vpn_data (foldl vpn_call_run setting calls)) EmptyString = None
  ∧ nm_g_hash_table_lookup (vpn_secrets (foldl vpn_call_run setting calls)) EmptyString
    = None.
Proof.
  induction calls as [|call calls IH]; intros setting Hdata Hsecrets; cbn [foldl]; [done|].
  destruct (vpn_call_run_keeps setting call Hdata Hsecrets) as [Hd Hs]. by apply IH.
Qed.

(** Whatever calls were made on a setting since it was created, no data item
    and no secret is stored under the empty name.  So the guard of the
    getters against empty keys hides nothing: every item and every secret
    in the tables is read back by its getter, and a setting never differs
    from itself in its secrets. *)
Theorem stored_keys_are_never_empty (calls : list vpn_call) :
  let setting := foldl vpn_call_run nm_setting_vpn_new calls in
  nm_g_hash_table_lookup (vpn_data setting) EmptyString = None
  ∧ nm_g_hash_table_lookup (vpn_secrets setting) EmptyString = None
  ∧ (∀ key item,
       nm_g_hash_table_lookup (vpn_data setting) key = Some item →
       nm_setting_vpn_get_data_item setting (Some key) = Some item)
  ∧ (∀ key secret,
       nm_g_hash_table_lookup (vpn_secrets setting) key = Some secret →
       nm_setting_vpn_get_secret setting (Some key) = Some secret)
  ∧ ∀ flags, compare_property_secrets setting (Some setting) flags ≠ NM_TERNARY_FALSE.
Proof.
  intros setting.
  destruct (vpn_history_keeps calls nm_setting_vpn_new) as [Hdata Hsecrets]; [done..|].
  fold setting in Hdata, Hsecrets. clearbody setting.
  assert (Hget : ∀ key secret,
            nm_g_hash_table_lookup (vpn_secrets setting) key = Some secret →
            nm_setting_vpn_get_secret setting (Some key) = Some secret).
  { intros key secret Hkey. rewrite get_secret_lookup; [done|]. intros ->. congruence. }
  split; [done|]. split; [done|]. split; [|split; [done|]].
  - intros key item Hkey. rewrite get_data_item_lookup; [done|]. intros ->. congruence.
  - intros flags Hfalse.
    unfold compare_property_secrets in Hfalse.
    destruct (NM_FLAGS_HAS flags NM_SETTING_COMPARE_FLAG_FUZZY); [done|].
    destruct (NM_FLAGS_HAS flags NM_SETTING_COMPARE_FLAG_IGNORE_SECRETS); [done|].
    destruct (secrets_differ setting setting flags) eqn:Hdiff; [|done].
    apply secrets_differ_true in Hdiff as (key & val & Hin & Hne & _).
    by apply Hne, Hget.
Qed.

End vpn_history_facts.
(** ** What a sidecar write touches *)

Section os_errno_facts.
Context `{!Os}.

Lemma errno_of_pos (r : os_refusal) : 0 < errno_of r.
Proof. by destruct r. Qed.

Lemma parent_error_pos (fs : filesystem) (p : string) (e : Z) :
  parent_error fs p = Some e → 0 < e.
Proof.
  unfold parent_error. destruct (bool_decide _); [done|].
  induction (path_prefixes _) as [|fn rest IH]; [done|]. cbn [missing_directory].
  destruct (stat_follow fs fn) as [st|]; [|by intros [= <-]].
  destruct (S_ISDIR _); [done | by intros [= <-]].
Qed.

Lemma unlink_inv (p : string) (fs : filesystem) :
  ((unlink p fs).2 = 0 ∧ (unlink p fs).1 = delete p fs)
  ∨ (0 < (unlink p fs).2 ∧ (unlink p fs).1 = fs).
Proof.
  unfold unlink. destruct (os_fault SYS_unlink p) as [r|].
  { right. split; [apply errno_of_pos | done]. }
  destruct (fs !! p) as [n|]; [|by right].
  destruct (S_ISDIR _); [by right | by left].
Qed.

Lemma symlink_inv (target linkpath : string) (fs : filesystem) :
  ((symlink target linkpath fs).2 = 0 ∧ fs !! linkpath = None
   ∧ (symlink target linkpath fs).1
     = <[linkpath := symbolic_link target geteuid getegid]> fs)
  ∨ (0 < (symlink target linkpath fs).2 ∧ (symlink target linkpath fs).1 = fs).
Proof.
  unfold symlink. destruct (os_fault SYS_symlink linkpath) as [r|].
  { right. split; [apply errno_of_pos | done]. }
  destruct (parent_error fs linkpath) as [e|] eqn:Hparent.
  { right. split; [by eapply parent_error_pos | done]. }
  destruct (fs !! linkpath) as [n|]; [by right | by left].
Qed.

Lemma rename_inv (oldpath newpath : string) (fs : filesystem) :
  oldpath ≠ newpath →
  ((rename oldpath newpath fs).2 = 0
   ∧ ∃ n, fs !! oldpath = Some n
          ∧ (rename oldpath newpath fs).1 = <[newpath := n]> (delete oldpath fs))
  ∨ (0 < (rename oldpath newpath fs).2 ∧ (rename oldpath newpath fs).1 = fs).
Proof.
  intros Hne. unfold rename. destruct (os_fault SYS_rename newpath) as [r|].
  { right. split; [apply errno_of_pos | done]. }
  destruct (fs !! oldpath) as [n|]; [|by right].
  rewrite bool_decide_eq_false_2 by done.
  destruct (parent_error fs newpath) as [e|] eqn:Hparent.
  { right. split; [by eapply parent_error_pos | done]. }
  destruct (fs !! newpath) as [m|]; [|left; eauto].
  destruct (_ && _); [by right|]. destruct (_ && _); [by right|]. left; eauto.
Qed.

Lemma file_set_contents_errno (p text : string) (perm : Z) (fs : filesystem) :
  ((file_set_contents p text perm fs).2 = 0
   ∧ (file_set_contents p text perm fs).1
     = <[p := regular_file text perm geteuid getegid]> fs)
  ∨ (0 < (file_set_contents p text perm fs).2 ∧ (file_set_contents p text perm fs).1 = fs).
Proof.
  unfold file_set_contents. destruct (os_fault SYS_write p) as [r|].
  { right. split; [apply errno_of_pos | done]. }
  destruct (parent_error fs p) as [e|] eqn:Hparent.
  { right. split; [by eapply parent_error_pos | done]. }
  destruct (fs !! p) as [n|]; [|by left].
  destruct (S_ISDIR _); [by right | by left].
Qed.

End os_errno_facts.

Lemma string_app_snoc_ne (s : string) (c : ascii) : s +:+ String c EmptyString ≠ s.
Proof.
  intros Heq. apply (f_equal String.length) in Heq.
  rewrite string_length_app in Heq. cbn in Heq. lia.
Qed.

Section nmmeta_write_facts.
Context `{!Os, !Libnm, !GKeyFileApi}.

(** A sidecar write touches two names only, that of the record and that of
    its temp file.  It replaces the record in one step: when the call
    reports an error, the record is exactly what it was before the call.
    The result is 0 or a negated [errno], never positive.  The name that is
    handed back is the name of the record, with one exception: when the
    keyfile form of the record cannot be written, it is the name of the temp
    file. *)
Theorem nmmeta_write_replaces_record (dirname uuid : string) (loaded_path : option string)
    (allow_relative : bool) (shadowed_storage : option string) (fs : filesystem) :
  let record := nms_keyfile_nmmeta_filename dirname uuid false in
  let temp := nms_keyfile_nmmeta_filename dirname uuid true in
  let r := nms_keyfile_nmmeta_write dirname uuid loaded_path allow_relative
             shadowed_storage fs in
  (∀ p, p ≠ record → p ≠ temp → r.1 !! p = fs !! p)
  ∧ (r.2.1 ≠ 0 → r.1 !! record = fs !! record)
  ∧ r.2.1 ≤ 0
  ∧ (r.2.1 = 0 → r.2.2 = record)
  ∧ (r.2.2 = record
     ∨ (r.2.2 = temp ∧ r.2.1 ≠ 0 ∧ is_Some loaded_path ∧ is_Some shadowed_storage)).
Proof.
  intros record temp r. subst r. unfold nms_keyfile_nmmeta_write.
  fold temp. assert (Htemp : temp = record +:+ "~") by apply nmmeta_filename_temporary.
  assert (Hdrop : drop_last temp = record) by (rewrite Htemp; apply drop_last_snoc).
  assert (Hne : temp ≠ record) by (rewrite Htemp; apply string_app_snoc_ne).
  rewrite !Hdrop.
  set (fs0 := (unlink temp fs).1).
  assert (Hfs0 : ∀ p, p ≠ temp → fs0 !! p = fs !! p).
  { intros p Hp. subst fs0. by apply unlink_other. }
  destruct loaded_path as [loaded_path|].
  2: { pose proof (unlink_inv record fs0) as Hu.
       destruct (unlink record fs0) as [fs1 e]. cbn [fst snd] in *.
       unfold NM_ERRNO_NATIVE.
       destruct Hu as [[-> ->]|[He ->]].
       - rewrite Z.eqb_refl. cbn [negb fst snd].
         split; [|split; [done|]; split; [done|]; split; [done | by left]].
         intros p Hp Hpt. rewrite lookup_delete_ne by done. by apply Hfs0.
       - destruct (Z.eqb_spec e 0) as [->|_]; [lia|]. cbn [negb].
         split; [by auto|]. split; [intros _; by apply Hfs0|].
         destruct (Z.eqb_spec (- e) (- ENOENT)); cbn [fst snd].
         + split; [done|]. split; [done | by left].
         + split; [lia|]. split; [lia | by left]. }
  set (stored := if allow_relative then _ else loaded_path).
  destruct shadowed_storage as [shadowed_storage|].
  - set (contents := default EmptyString _).
    pose proof (file_set_contents_errno record contents 384 fs0) as Hw.
    destruct (file_set_contents record contents 384 fs0) as [fs1 e]. cbn [fst snd] in *.
    unfold NM_ERRNO_NATIVE.
    destruct Hw as [[-> ->]|[He ->]].
    + rewrite Z.eqb_refl. cbn [negb fst snd].
      split; [|split; [done|]; split; [done|]; split; [done | by left]].
      intros p Hp Hpt. rewrite lookup_insert_ne by done. by apply Hfs0.
    + destruct (Z.eqb_spec e 0) as [->|_]; [lia|]. cbn [negb fst snd].
      split; [by auto|]. split; [intros _; by apply Hfs0|].
      split; [lia|]. split; [lia|]. right. split; [done|]. split; [lia|]. eauto.
  - pose proof (symlink_inv stored temp fs0) as Hs.
    destruct (symlink stored temp fs0) as [fs1 e]. cbn [fst snd] in *.
    unfold NM_ERRNO_NATIVE.
    destruct Hs as [(-> & Hfree & ->)|[He ->]].
    + rewrite Z.eqb_refl. cbn [negb fst snd].
      set (fs1 := <[temp := _]> fs0).
      pose proof (rename_inv temp record fs1 Hne) as Hr.
      destruct (rename temp record fs1) as [fs2 e2]. cbn [fst snd] in *.
      destruct Hr as [(-> & n & Hn & ->)|[He ->]].
      * rewrite Z.eqb_refl. cbn [negb fst snd].
        split; [|split; [done|]; split; [done|]; split; [done | by left]].
        intros p Hp Hpt. rewrite lookup_insert_ne, lookup_delete_ne by done.
        subst fs1. rewrite lookup_insert_ne by done. by apply Hfs0.
      * destruct (Z.eqb_spec e2 0) as [->|_]; [lia|]. cbn [negb fst snd].
        assert (Hback : ∀ p, p ≠ temp → (unlink temp fs1).1 !! p = fs !! p).
        { intros p Hp. rewrite unlink_other by done. subst fs1.
          rewrite lookup_insert_ne by done. by apply Hfs0. }
        split; [by auto|]. split; [intros _; by apply Hback|].
        split; [lia|]. split; [lia | by left].
    + destruct (Z.eqb_spec e 0) as [->|_]; [lia|]. cbn [negb fst snd].
      split; [by auto|]. split; [intros _; by apply Hfs0|].
      split; [lia|]. split; [lia | by left].
Qed.

End nmmeta_write_facts.
(** ** A sidecar that is written is read back *)

Lemma after_last_slash_None_inv (c : ascii) (s : string) :
  after_last_slash (String c s) = None → c ≠ "/"%char ∧ after_last_slash s = None.
Proof.
  cbn. destruct (after_last_slash s); [done|].
  by destruct (Ascii.eqb_spec c "/").
Qed.

Lemma after_last_slash_app_None (s t : string) :
  after_last_slash s = None → after_last_slash t = None → after_last_slash (s +:+ t) = None.
Proof.
  intros Hs Ht. induction s as [|c s IH]; [done|].
  apply after_last_slash_None_inv in Hs as [Hc Hs].
  rewrite string_app_cons. cbn. rewrite (IH Hs).
  by destruct (Ascii.eqb_spec c "/").
Qed.

Lemma has_prefix_slash (s : string) :
  g_str_has_prefix s "/" = true ↔ ∃ r, s = String "/" r.
Proof.
  unfold g_str_has_prefix. rewrite String.prefix_correct. split.
  - destruct s as [|c r]; [done|]. cbn [String.length substring].
    destruct r; intros [= ->]; eauto.
  - intros [r ->]. by destruct r.
Qed.

Lemma g_build_filename_absolute (dirname file : string) :
  g_str_has_prefix dirname "/" = true → nonempty file = true →
  g_str_has_prefix (g_build_filename [dirname; file]) "/" = true.
Proof.
  intros [r ->]%has_prefix_slash Hfile. unfold g_build_filename. cbn [filter list_filter].
  rewrite (decide_True (P := nonempty (String "/" r) = true)) by done.
  rewrite (decide_True (P := nonempty file = true)) by done.
  apply has_prefix_slash.
  cbn [leading_slashes Ascii.eqb Bool.eqb]. rewrite string_app_cons. eauto.
Qed.

Section nmmeta_round_trip.
Context `{!Os, !Libnm, !GKeyFileApi}.

(** The symbolic-link form of a sidecar is read back as it was written.
    For a normalized uuid and an absolute directory, when the process is
    root or the service user and [nms_keyfile_nmmeta_write] succeeds without
    shadowed storage, [nms_keyfile_nmmeta_read] finds the record under the
    name that the write handed back, with that uuid, without shadowed
    storage, and with the loaded path that the link stores; this is the path
    that was given whenever it is absolute and was not made relative.  The
    temp file is gone. *)
Theorem nmmeta_link_round_trip (dirname uuid loaded_path : string) (allow_relative : bool)
    (fs fs' : filesystem) (full_filename : string) :
  g_str_has_prefix dirname "/" = true →
  String.length uuid = 36%nat →
  nm_uuid_is_normalized uuid = true →
  after_last_slash uuid = None →
  geteuid = 0 ∨ geteuid = nm_utils_get_nm_uid →
  nms_keyfile_nmmeta_write dirname uuid (Some loaded_path) allow_relative None fs
  = (fs', (0, full_filename)) →
  ∃ stored,
    nms_keyfile_nmmeta_read dirname (uuid +:+ NM_KEYFILE_PATH_SUFFIX_NMMETA) fs'
    = Some {| nmmeta_full_filename := full_filename;
              nmmeta_uuid := uuid;
              nmmeta_loaded_path := Some (link_destination full_filename stored);
              nmmeta_shadowed_storage := None;
              nmmeta_st := i_stat (symbolic_link stored geteuid getegid) |}
    ∧ (stored = loaded_path
       ∨ (allow_relative = true
          ∧ nm_utils_file_is_in_path loaded_path dirname = Some stored))
    ∧ (g_str_has_prefix stored "/" = true → link_destination full_filename stored = stored)
    ∧ full_filename = nms_keyfile_nmmeta_filename dirname uuid false
    ∧ fs' !! nms_keyfile_nmmeta_filename dirname uuid true = None.
Proof.
  intros Hdir Hlen Hnorm Hslash Heuid.
  set (record := nms_keyfile_nmmeta_filename dirname uuid false).
  set (temp := nms_keyfile_nmmeta_filename dirname uuid true).
  assert (Htemp : temp = record +:+ "~") by apply nmmeta_filename_temporary.
  assert (Hdrop : drop_last temp = record) by (rewrite Htemp; apply drop_last_snoc).
  assert (Hne : temp ≠ record) by (rewrite Htemp; apply string_app_snoc_ne).
  unfold nms_keyfile_nmmeta_write. fold temp. rewrite !Hdrop.
  set (fs0 := (unlink temp fs).1).
  set (stored := if allow_relative then _ else loaded_path).
  pose proof (symlink_inv stored temp fs0) as Hs.
  destruct (symlink stored temp fs0) as [fs1 e]. cbn [fst snd] in Hs.
  unfold NM_ERRNO_NATIVE.
  destruct Hs as [(-> & Hfree & ->)|[He ->]].
  2: { destruct (Z.eqb_spec e 0) as [->|_]; [lia|]. cbn [negb]. intros [= _ ? _]. lia. }
  rewrite Z.eqb_refl. cbn [negb].
  set (link := symbolic_link stored geteuid getegid).
  pose proof (rename_inv temp record (<[temp := link]> fs0) Hne) as Hr.
  destruct (rename temp record _) as [fs2 e2]. cbn [fst snd] in Hr.
  destruct Hr as [(-> & n & Hn & ->)|[He ->]].
  2: { destruct (Z.eqb_spec e2 0) as [->|_]; [lia|]. cbn [negb]. intros [= _ ? _]. lia. }
  rewrite Z.eqb_refl. cbn [negb]. intros [= <- <-].
  rewrite lookup_insert_eq in Hn. injection Hn as <-.
  exists stored. split; [|split; [|split; [|split; [done|]]]].
  - unfold nms_keyfile_nmmeta_read.
    assert (Hbase : base_name (uuid +:+ NM_KEYFILE_PATH_SUFFIX_NMMETA)
                    = uuid +:+ NM_KEYFILE_PATH_SUFFIX_NMMETA).
    { unfold base_name. by rewrite after_last_slash_app_None. }
    rewrite check_filename_shape by (rewrite Hbase; by exists uuid).
    rewrite Hbase.
    assert (Hfull : g_build_filename [dirname; uuid +:+ NM_KEYFILE_PATH_SUFFIX_NMMETA]
                    = record).
    { unfold record, nms_keyfile_nmmeta_filename. by rewrite string_app_nil_r. }
    rewrite Hfull.
    assert (Habs : g_str_has_prefix record "/" = true).
    { rewrite <- Hfull. apply g_build_filename_absolute; [done|].
      by apply nonempty_app_r. }
    unfold nms_keyfile_utils_check_file_permissions. rewrite Habs. cbn [negb].
    unfold lstat. rewrite lookup_insert_eq. cbn [fmap option_fmap option_map].
    assert (Hcheck : nms_keyfile_utils_check_file_permissions_stat
                       NMS_KEYFILE_FILETYPE_NMMETA (i_stat link) = None).
    { unfold nms_keyfile_utils_check_file_permissions_stat.
      change (S_ISLNK (st_mode (i_stat link))) with true.
      change (S_ISREG (st_mode (i_stat link))) with false.
      cbn [negb andb]. destruct (negb (NM_FLAGS_HAS _ _)); [|done].
      change (st_uid (i_stat link)) with geteuid.
      destruct Heuid as [->| ->]; [done|].
      by rewrite Z.eqb_refl, orb_true_r. }
    rewrite Hcheck.
    change (S_ISREG (st_mode (i_stat link))) with false. cbn iota.
    rewrite <- Hlen at 1. by rewrite substring_app_l.
  - subst stored. destruct allow_relative; [|by left].
    destruct (nm_utils_file_is_in_path loaded_path dirname); [right; eauto | by left].
  - intros Habs. unfold link_destination. by rewrite Habs.
  - rewrite lookup_insert_ne by done. apply lookup_delete_eq.
Qed.

End nmmeta_round_trip.

Lemma nmmeta_link_round_trip_witness :
  let dir := "/etc/NetworkManager/system-connections" in
  let uuid := "11111111-1111-4111-8111-111111111111" in
  let os := example_os no_faults in
  let fs' := (@nms_keyfile_nmmeta_write os example_libnm example_gkeyfile
                dir uuid (Some "/dev/null") false None example_etc_dir).1 in
  nmmeta_loaded_path
    <$> @nms_keyfile_nmmeta_read example_libnm example_gkeyfile dir (uuid +:+ ".nmmeta") fs'
  = Some (Some "/dev/null").
Proof.
  intros dir uuid os fs'.
  assert (Hwrite : @nms_keyfile_nmmeta_write os example_libnm example_gkeyfile
                     dir uuid (Some "/dev/null") false None example_etc_dir
                   = (fs', (0, dir +:+ "/" +:+ uuid +:+ ".nmmeta"))) by by_computation.
  destruct (@nmmeta_link_round_trip os example_libnm example_gkeyfile
              dir uuid "/dev/null" false example_etc_dir fs' (dir +:+ "/" +:+ uuid +:+ ".nmmeta")
              eq_refl eq_refl eq_refl eq_refl (or_introl eq_refl) Hwrite)
    as (stored & Hread & Hstored & Hdest & _).
  destruct Hstored as [->|[? _]]; [|done].
  change NM_KEYFILE_PATH_SUFFIX_NMMETA with ".nmmeta" in Hread.
  rewrite Hread. cbn [fmap option_fmap option_map nmmeta_loaded_path].
  by rewrite Hdest.
Defined.

(** Where the directory is missing, the link cannot be made and the call
    returns [-ENOENT]. *)
Example sidecar_without_directory_fails :
  @nms_keyfile_nmmeta_write (example_os no_faults) example_libnm example_gkeyfile
    "/etc/NetworkManager/system-connections" "11111111-1111-4111-8111-111111111111"
    (Some "/dev/null") false None ∅
  = (∅, (-2, "/etc/NetworkManager/system-connections/"
             +:+ "11111111-1111-4111-8111-111111111111.nmmeta")).
Proof. by_computation. Qed.

(** ** When the writer succeeds *)

Lemma chowned_regular_file (text : string) (perm uid gid uid' gid' : Z) :
  chowned uid' gid' (regular_file text perm uid gid) = regular_file text perm uid' gid'.
Proof. done. Qed.

Section writer_success.
Context `{!Os, !Libnm, !GKeyFileApi, !NmKeyfile}.

(** A volatile profile never reaches netplan: whatever libnetplan is linked
    in, the write leaves the same file system and the same result. *)
Theorem volatile_write_ignores_netplan (netplan netplan' : Netplan) (a : write_args)
    (fs : filesystem) :
  is_volatile a = true →
  @_internal_write_connection _ _ _ _ netplan a fs
  = @_internal_write_connection _ _ _ _ netplan' a fs.
Proof.
  intros Hv. unfold _internal_write_connection, wbind. rewrite Hv. done.
Qed.

(** The write of a new volatile profile succeeds when nothing stands in its
    way.  If the directory is absolute, the profile can be serialized, the
    allocator finds a path that is free, the profile that is read back (when
    one is wanted) is valid, the directory of that path is there when the
    allocator has run (the writer does not look at the result of
    [g_mkdir_with_parents]), and the system refuses neither the write nor
    the change of owner at that path, then the writer reports success with
    that path, and the file system is the one that the allocator saw with
    one file more: a regular file of mode 0600 with the serialized text that
    belongs to the designated owner. *)
Theorem volatile_new_write_succeeds `{!Netplan} (a : write_args) (fs : filesystem)
    (kf : GKeyFile) (text p : string) (rr : option NMConnection * bool) :
  is_volatile a = true →
  existing_path a = None →
  g_str_has_prefix (keyfile_dir a) "/" = true →
  (serialize_connection a fs).2 = Done (kf, text) →
  first_fit a (selection_state a fs) = Some p →
  (reread_from_keyfile a kf p (selection_state a fs)).2 = Done rr →
  parent_error (selection_state a fs) p = None →
  os_fault SYS_write p = None →
  os_fault SYS_chown p = None →
  _internal_write_connection a fs
  = (<[p := regular_file text 384 (owner_uid a) (owner_grp a)]> (selection_state a fs),
     Done {| out_path := p;
             out_reread := if want_reread a then rr.1 else None;
             out_reread_same := rr.2 |}).
Proof.
  intros Hv Hnew Hdir Hser Hfit Hreread Hparent Hwrite Hchown.
  set (fs2 := selection_state a fs) in *.
  assert (Hprep : prepare_keyfile a fs
                  = (fs2, Done {| kf_file := kf; kf_content_buf := text;
                                  path := p; reread := rr |})).
  { unfold prepare_keyfile. rewrite Hdir. cbn [negb]. unfold wbind at 1.
    destruct (serialize_connection a fs) as [fs1 o] eqn:Hs. cbn [snd] in Hser. subst o.
    unfold wbind at 1.
    assert (Hfs2 : ensure_keyfile_dir a fs1 = (fs2, Done tt)).
    { subst fs2. unfold selection_state. by rewrite Hs. }
    rewrite Hfs2. unfold wbind at 1. unfold select_path.
    rewrite find_path_first_fit by done. rewrite Hfit. unfold wbind at 1. cbn [fst snd].
    pose proof (reread_from_keyfile_fs a kf p fs2) as Hrfs.
    destruct (reread_from_keyfile a kf p fs2) as [fs3 o]. cbn [fst snd] in *.
    by subst. }
  clearbody fs2.
  assert (Hfree : g_file_test_exists fs2 p = false) by (by eapply first_fit_new_is_free).
  assert (Hnodir : ∀ n, fs2 !! p = Some n → S_ISDIR (st_mode (i_stat n)) = false).
  { intros n Hn. destruct (S_ISDIR (st_mode (i_stat n))) eqn:Hd; [|done].
    assert (Hl : S_ISLNK (st_mode (i_stat n)) = false).
    { unfold S_ISDIR, S_ISLNK in *. apply Z.eqb_eq in Hd. rewrite Hd. done. }
    unfold g_file_test_exists, stat_follow in Hfree.
    rewrite (resolve_not_link fs2 p n Hn Hl) in Hfree. cbn in Hfree.
    unfold lstat in Hfree. rewrite Hn in Hfree. by cbn in Hfree. }
  set (written := regular_file text 384 geteuid getegid).
  assert (Hw : file_set_contents p text 384 fs2 = (<[p := written]> fs2, 0)).
  { unfold file_set_contents. rewrite Hwrite, Hparent.
    destruct (fs2 !! p) as [n|] eqn:Hn; [|done]. by rewrite (Hnodir n). }
  assert (Hc : chown p (owner_uid a) (owner_grp a) (<[p := written]> fs2)
               = (<[p := regular_file text 384 (owner_uid a) (owner_grp a)]> fs2,
                  0)).
  { unfold chown. rewrite Hchown.
    rewrite (resolve_not_link _ p written) by (by rewrite ?lookup_insert_eq).
    by rewrite alter_insert_eq. }
  assert (Hplain : write_plain_keyfile a fs
                   = (<[p := regular_file text 384 (owner_uid a) (owner_grp a)]> fs2,
                      Done {| kf_file := kf; kf_content_buf := text;
                              path := p; reread := rr |})).
  { unfold write_plain_keyfile, wbind at 1. rewrite Hprep. cbn [path kf_content_buf].
    unfold wbind at 1, write_and_chown, wbind at 1. rewrite Hw, Z.eqb_refl, Hc.
    rewrite Z.eqb_refl. cbn [negb]. unfold wbind at 1, remove_old_path. by rewrite Hnew. }
  by rewrite (write_plain_keyfile_volatile a _ _ _ Hv Hplain).
Qed.

End writer_success.

Lemma volatile_write_ignores_netplan_witness :
  let a := example_args true None home1 in
  @_internal_write_connection (example_os no_faults) example_libnm example_gkeyfile
    example_nmkeyfile (example_netplan true true) a ∅
  = @_internal_write_connection (example_os no_faults) example_libnm example_gkeyfile
      example_nmkeyfile (example_netplan false false) a ∅.
Proof.
  intros a.
  exact (@volatile_write_ignores_netplan (example_os no_faults) example_libnm
           example_gkeyfile example_nmkeyfile (example_netplan true true)
           (example_netplan false false) a ∅ eq_refl).
Defined.

Lemma volatile_new_write_succeeds_witness :
  let os := example_os no_faults in
  let a := example_args true None home1 in
  let p := "/etc/NetworkManager/system-connections/home.nmconnection" in
  let run := @_internal_write_connection os example_libnm example_gkeyfile example_nmkeyfile
               (example_netplan true true) a ∅ in
  (∃ r, run.2 = Done r ∧ out_path r = p)
  ∧ run.1 !! p = Some (regular_file "interface-name=eth0" 384 0 0).
Proof.
  intros os a p run.
  assert (Hser : (@serialize_connection os example_libnm example_gkeyfile example_nmkeyfile
                    a ∅).2
                 = Done (Some "eth0" : @GKeyFile example_gkeyfile, "interface-name=eth0"))
    by by_computation.
  assert (Hfit : @first_fit example_libnm example_gkeyfile example_nmkeyfile a
                   (@selection_state os example_libnm example_gkeyfile example_nmkeyfile a ∅)
                 = Some p) by by_computation.
  assert (Hparent : parent_error
                      (@selection_state os example_libnm example_gkeyfile example_nmkeyfile
                         a ∅) p = None) by by_computation.
  assert (Hrun := @volatile_new_write_succeeds os example_libnm example_gkeyfile
                    example_nmkeyfile (example_netplan true true) a ∅ (Some "eth0")
                    "interface-name=eth0" p (None, false)
                    eq_refl eq_refl eq_refl Hser Hfit eq_refl Hparent eq_refl eq_refl).
  subst run. rewrite Hrun. split.
  - eexists. split; reflexivity.
  - apply lookup_insert_eq.
Defined.
(** The directory cannot be made because [/etc] is a file: the writer goes
    on after [g_mkdir_with_parents], and the write of the keyfile fails. *)
Example write_below_a_file_fails :
  let os := example_os no_faults in
  let fs : filesystem := {[ "/etc" := regular_file EmptyString 420 0 0 ]} in
  @_internal_write_connection os example_libnm example_gkeyfile example_nmkeyfile
    (example_netplan true true) (example_args true None home1) fs
  = (fs, Failed (ERR_writing_to_file
                   "/etc/NetworkManager/system-connections/home.nmconnection")).
Proof. intros os fs. by_computation. Qed.

(** ** The path that a write into netplan reports *)

Section netplan_path_facts.
Context `{!Os, !Libnm, !GKeyFileApi, !NmKeyfile, !Netplan}.

Lemma netplan_final_path_shape (a : write_args) (escaped_ssid actual_netplan_id : option string)
    (fs : filesystem) :
  match existing_path a with
  | Some ep => netplan_final_path a escaped_ssid actual_netplan_id fs = ep
  | None =>
      ∃ netplan_id,
        netplan_final_path a escaped_ssid actual_netplan_id fs
        = default EmptyString (rootdir a) +:+ "/run/NetworkManager/system-connections"
          +:+ "/netplan-" +:+ netplan_id +:+ ".nmconnection"
  end.
Proof.
  unfold netplan_final_path. destruct (existing_path a) as [ep|]; [done|].
  set (root := default EmptyString (rootdir a)).
  set (ssid_part := match escaped_ssid with Some e => _ | None => _ end).
  destruct (negb _).
  - exists (default "(null)" actual_netplan_id +:+ ssid_part).
    change "/run/NetworkManager/system-connections/netplan-"
      with ("/run/NetworkManager/system-connections" +:+ "/netplan-").
    by rewrite !string_app_assoc.
  - exists ("NM-" +:+ nm_connection_get_uuid (connection a) +:+ ssid_part).
    change "/run/NetworkManager/system-connections/netplan-NM-"
      with ("/run/NetworkManager/system-connections" +:+ "/netplan-" +:+ "NM-").
    by rewrite !string_app_assoc.
Qed.

Lemma netplan_project_path (a : write_args) (w : prepared) (fs fs' : filesystem)
    (projected : string * (option NMConnection * bool)) :
  netplan_project a w fs = (fs', Done projected) →
  ∃ escaped_ssid actual_netplan_id fs0,
    projected.1 = netplan_final_path a escaped_ssid actual_netplan_id fs0.
Proof.
  unfold netplan_project.
  set (escaped_ssid := g_uri_escape_string <$> _).
  unfold wbind at 1. destruct (netplan_translate a w fs) as [fs1 [actual|e]]; [|done].
  unfold wbind at 1. destruct (netplan_clear_keyfile a w fs1) as [fs2 [u|e]]; [|done].
  unfold wbind at 1. destruct (netplan_regenerate a fs2) as [fs3 [u'|e]]; [|done].
  unfold wbind at 1, wread. unfold wbind at 1.
  destruct (want_reread a || want_reread_same a).
  - unfold reread_from_file. destruct (_ ≫= nm_connection_normalize); [|done].
    unfold wret. intros [= _ <-]. cbn [fst]. eauto.
  - unfold wret. intros [= _ <-]. cbn [fst]. eauto.
Qed.

Lemma nonvolatile_out_path (a : write_args) (fs fs' : filesystem) (r : write_result) :
  is_volatile a = false →
  _internal_write_connection a fs = (fs', Done r) →
  ∃ escaped_ssid actual_netplan_id fs0,
    out_path r = netplan_final_path a escaped_ssid actual_netplan_id fs0.
Proof.
  intros Hv. unfold _internal_write_connection.
  unfold wbind at 1. destruct (write_plain_keyfile a fs) as [fs1 [w|e]]; [|done].
  rewrite Hv. cbn [negb]. unfold wbind at 1.
  destruct (netplan_project a w fs1) as [fs2 [projected|e]] eqn:Hproject; [|done].
  unfold wret. intros [= _ <-]. cbn [out_path]. by eapply netplan_project_path.
Qed.

(** A write that goes through netplan does not report the path that the
    allocator selected.  For an update it reports the path it was given as
    the existing one, also when a rename was asked for; for a new profile it
    reports a name of the form [netplan-<id>.nmconnection] in the run-time
    directory under the root directory. *)
Theorem nonvolatile_write_reports_netplan_path (a : write_args) (fs fs' : filesystem)
    (r : write_result) :
  is_volatile a = false →
  _internal_write_connection a fs = (fs', Done r) →
  match existing_path a with
  | Some ep => out_path r = ep
  | None =>
      ∃ netplan_id,
        out_path r
        = default EmptyString (rootdir a) +:+ "/run/NetworkManager/system-connections"
          +:+ "/netplan-" +:+ netplan_id +:+ ".nmconnection"
  end.
Proof.
  intros Hv Hrun.
  destruct (nonvolatile_out_path a fs fs' r Hv Hrun) as (escaped & actual & fs0 & ->).
  apply netplan_final_path_shape.
Qed.

Lemma has_suffix_app (s suffix : string) : g_str_has_suffix (s +:+ suffix) suffix = true.
Proof.
  unfold g_str_has_suffix. rewrite string_length_app.
  apply andb_true_iff. split; [apply Nat.leb_le; lia|].
  replace (String.length s + String.length suffix - String.length suffix)%nat
    with (String.length s) by lia.
  rewrite substring_app_r. apply String.eqb_refl.
Qed.

(** The test entry point takes the root directory from the keyfile
    directory: when the profile is written into
    [<root>/run/NetworkManager/system-connections], netplan is run under
    [<root>], and a write that succeeds reports a profile in the directory
    it was asked to write into. *)
Theorem test_connection_stays_under_root (c : NMConnection) (root : string)
    (uid gid : Z) (reread reread_same : bool) :
  let dir := root +:+ "/run/NetworkManager/system-connections" in
  let args :=
    {| connection := c; is_nm_generated := false;
       is_volatile := false; is_external := false;
       shadowed_storage := None; shadowed_owned := false;
       keyfile_dir := dir; profile_dir := dir; with_extension := false;
       owner_uid := uid; owner_grp := gid;
       existing_path := None; existing_path_read_only := false;
       force_rename := false; allow_filename_cb := None;
       want_reread := reread; want_reread_same := reread_same;
       rootdir := Some root |} in
  nms_keyfile_writer_test_connection c dir uid gid reread reread_same
  = _internal_write_connection args
  ∧ ∀ fs fs' r,
      nms_keyfile_writer_test_connection c dir uid gid reread reread_same fs
      = (fs', Done r) →
      ∃ netplan_id, out_path r = dir +:+ "/netplan-" +:+ netplan_id +:+ ".nmconnection".
Proof.
  intros dir args.
  assert (Hroot : (if g_str_has_suffix dir "/run/NetworkManager/system-connections"
                   then substring 0 (String.length dir - 38) dir
                   else dir) = root).
  { subst dir. rewrite has_suffix_app, string_length_app.
    change (String.length "/run/NetworkManager/system-connections") with 38%nat.
    replace (String.length root + 38 - 38)%nat with (String.length root) by lia.
    apply substring_app_l. }
  unfold nms_keyfile_writer_test_connection. rewrite Hroot. fold args.
  split; [done|]. intros fs fs' r Hrun.
  apply nonvolatile_out_path in Hrun as (escaped & actual & fs0 & ->); [|done].
  pose proof (netplan_final_path_shape args escaped actual fs0) as Hshape.
  cbn [existing_path rootdir default args] in Hshape.
  destruct Hshape as [netplan_id Hshape]. exists netplan_id. rewrite Hshape.
  subst dir. by rewrite !string_app_assoc.
Qed.

End netplan_path_facts.

Lemma nonvolatile_write_reports_netplan_path_witness :
  let run := @_internal_write_connection (example_os no_faults) example_libnm
               example_gkeyfile example_nmkeyfile (example_netplan true true)
               (example_args false None home1) ∅ in
  ∃ r netplan_id,
    run.2 = Done r
    ∧ out_path r
      = "/run/NetworkManager/system-connections/netplan-" +:+ netplan_id +:+ ".nmconnection".
Proof.
  intros run.
  pose (r := {| out_path := "/run/NetworkManager/system-connections/netplan-NM-"
                            +:+ example_uuid home1 +:+ ".nmconnection";
                out_reread := None; out_reread_same := false |}
             : @write_result example_gkeyfile example_nmkeyfile).
  assert (Hrun : run = (run.1, Done r)) by by_computation.
  pose proof (@nonvolatile_write_reports_netplan_path (example_os no_faults) example_libnm
                example_gkeyfile example_nmkeyfile (example_netplan true true)
                (example_args false None home1) ∅ run.1 r eq_refl Hrun) as [netplan_id Hid].
  exists r, netplan_id. split; [by rewrite Hrun | exact Hid].
Defined.
(** ** The certificate handler *)

Section cert_writer_facts.
Context `{!Os, !Libnm, !GKeyFileApi, !NmKeyfile}.

(** What [cert_writer] does to the disk and to the key file.  The only file
    it can change is the one it makes for a blob,
    [<dir>/<uuid>-<suffix>.<ext>] with [ext] one of [pem], [der] and [p12],
    and that file then holds the blob with mode 0600.  The key is set in
    three cases: for a path, to a value that the reader detects as a path or
    to the path with [file://] before it; for a PKCS#11 URI, to the URI; for
    a blob, to the base name of the file, and only when the file was
    written.  A blob that cannot be written leaves the key file as it was,
    and so does a certificate of unknown scheme. *)
Theorem cert_writer_effects (connection : NMConnection) (file : GKeyFile)
    (cert : cert_property) (dir : string) (fs : filesystem) :
  let r := cert_writer connection file cert dir fs in
  let set_key v :=
    g_key_file_set_string file (cert_setting_name cert) (cert_setting_key cert) v in
  let blob_file ext :=
    dir +:+ "/" +:+ nm_connection_get_uuid connection +:+ "-" +:+ cert_file_suffix cert
    +:+ "." +:+ ext in
  (∀ p, r.1 !! p ≠ fs !! p →
     ∃ blob ext,
       cert_value cert = NM_SETTING_802_1X_CK_SCHEME_BLOB blob
       ∧ ext ∈ ["pem"; "der"; "p12"] ∧ p = blob_file ext
       ∧ r.1 !! p = Some (regular_file blob 384 geteuid getegid)
       ∧ r.2 = set_key (base_name p))
  ∧ match cert_value cert with
    | NM_SETTING_802_1X_CK_SCHEME_PATH path =>
        ∃ v, r.2 = set_key v
             ∧ (is_Some (nm_keyfile_detect_unqualified_path_scheme dir v)
                ∨ v = NM_KEYFILE_CERT_SCHEME_PREFIX_PATH +:+ path)
    | NM_SETTING_802_1X_CK_SCHEME_PKCS11 uri => r.2 = set_key uri
    | NM_SETTING_802_1X_CK_SCHEME_BLOB blob =>
        r.2 = file
        ∨ ∃ ext, r.2 = set_key (base_name (blob_file ext))
                 ∧ r.1 !! blob_file ext = Some (regular_file blob 384 geteuid getegid)
    | NM_SETTING_802_1X_CK_SCHEME_UNKNOWN => r.2 = file
    end.
Proof.
  intros r set_key blob_file. subst r. unfold cert_writer.
  destruct (cert_value cert) as [path|uri|blob|] eqn:Hvalue; cbn [fst snd].
  - split; [done|].
    destruct (g_str_has_prefix path dir); cbn.
    2: { destruct (nm_keyfile_detect_unqualified_path_scheme dir path) eqn:Hd; eauto. }
    destruct (g_str_has_prefix (string_after _ path) "/").
    2: { destruct (nm_keyfile_detect_unqualified_path_scheme dir path) eqn:Hd; eauto. }
    destruct (nonempty _).
    2: { destruct (nm_keyfile_detect_unqualified_path_scheme dir path) eqn:Hd; eauto. }
    destruct (nm_keyfile_detect_unqualified_path_scheme dir (strip_leading_slashes _))
      eqn:Hrel; [eauto|].
    destruct (nm_keyfile_detect_unqualified_path_scheme dir path) eqn:Hd; eauto.
  - done.
  - set (ext := match cert_format cert with Some _ => _ | None => _ end).
    assert (Hext : ext ∈ ["pem"; "der"; "p12"]).
    { subst ext. destruct (cert_format cert) as [[]|]; [set_solver..|].
      destruct (blob_is_der blob); set_solver. }
    fold (blob_file ext). unfold base_name.
    pose proof (file_set_contents_errno (blob_file ext) blob 384 fs) as Hw.
    destruct (file_set_contents (blob_file ext) blob 384 fs) as [fs' e]. cbn [fst snd] in Hw.
    destruct Hw as [[-> ->]|[He ->]].
    + rewrite Z.eqb_refl. cbn [fst snd]. split.
      * intros p Hp. destruct (decide (p = blob_file ext)) as [->|Hne].
        -- exists blob, ext. by rewrite lookup_insert_eq.
        -- by rewrite lookup_insert_ne in Hp.
      * right. exists ext. by rewrite lookup_insert_eq.
    + destruct (Z.eqb_spec e 0) as [->|_]; [lia|]. cbn [fst snd]. split; [done | by left].
  - done.
Qed.

End cert_writer_facts.
(** ** The validator on a path *)

(** [nms_keyfile_utils_check_file_permissions] accepts a file exactly when
    its name is absolute, the file can be looked at, and what is seen passes
    [nms_keyfile_utils_check_file_permissions_stat]; it then hands back what
    it saw.  A keyfile is looked at through symbolic links, a sidecar is
    not: the answer for a sidecar depends on nothing but the object stored
    under the name itself, so a link that leads nowhere can be a sidecar.  A
    name under which nothing is stored is refused as not accessible. *)
Theorem check_file_permissions_accepts_exactly `{!Libnm} (filetype : NMSKeyfileFiletype)
    (filename : string) (fs : filesystem) :
  let seen :=
    match filetype with
    | NMS_KEYFILE_FILETYPE_KEYFILE => stat_follow fs filename
    | NMS_KEYFILE_FILETYPE_NMMETA => lstat fs filename
    | NMS_KEYFILE_FILETYPE_other => None
    end in
  (∀ st, nms_keyfile_utils_check_file_permissions filetype filename fs = inr st
         ↔ g_str_has_prefix filename "/" = true
           ∧ seen = Some st
           ∧ nms_keyfile_utils_check_file_permissions_stat filetype st = None)
  ∧ (∀ fs', fs' !! filename = fs !! filename →
       nms_keyfile_utils_check_file_permissions NMS_KEYFILE_FILETYPE_NMMETA filename fs'
       = nms_keyfile_utils_check_file_permissions NMS_KEYFILE_FILETYPE_NMMETA filename fs)
  ∧ (g_str_has_prefix filename "/" = true → fs !! filename = None →
     filetype ≠ NMS_KEYFILE_FILETYPE_other →
     nms_keyfile_utils_check_file_permissions filetype filename fs = inl Cannot_access_file).
Proof.
  intros seen. subst seen. unfold nms_keyfile_utils_check_file_permissions.
  split; [|split].
  - intros st. destruct (g_str_has_prefix filename "/"); cbn [negb].
    2: { split; [done | by intros [? _]]. }
    destruct filetype.
    + destruct (stat_follow fs filename) as [st'|]; [|split; [done | by intros (_ & ? & _)]].
      destruct (nms_keyfile_utils_check_file_permissions_stat _ st') eqn:Hcheck.
      * split; [done|]. intros (_ & [= ->] & ?). congruence.
      * split; [by intros [= ->] | by intros (_ & [= ->] & _)].
    + destruct (lstat fs filename) as [st'|]; [|split; [done | by intros (_ & ? & _)]].
      destruct (nms_keyfile_utils_check_file_permissions_stat _ st') eqn:Hcheck.
      * split; [done|]. intros (_ & [= ->] & ?). congruence.
      * split; [by intros [= ->] | by intros (_ & [= ->] & _)].
    + split; [done | by intros (_ & ? & _)].
  - intros fs' Hsame. unfold lstat. by rewrite Hsame.
  - intros -> Hnone Hother. cbn [negb].
    destruct filetype; [| |done].
    + unfold stat_follow, resolve. cbn. by rewrite Hnone.
    + unfold lstat. by rewrite Hnone.
Qed.

(** ** What the interface-name fixup touches *)

Section fixup_frame.
Context `{!Os, !GKeyFileApi}.

Lemma fix_one_file_frame (file : string) (mask : Z) (fs : filesystem) :
  (fix_one_file file mask fs).1.1 = fs
  ∨ ∃ text, (fix_one_file file mask fs).1.1
            = <[file := regular_file text 384 geteuid getegid]> fs.
Proof.
  unfold fix_one_file.
  destruct (g_key_file_get_string _ "connection" "interface-name"); [|by left].
  destruct (_ && _); [|by left].
  unfold umask, g_key_file_save_to_file. rewrite creation_mode_077.
  destruct (g_key_file_to_data _) as [text|]; [|by left].
  pose proof (file_set_contents_errno file text 384 fs) as Hw.
  destruct (file_set_contents file text 384 fs) as [fs' e]. cbn [fst snd] in *.
  destruct Hw as [[_ ->]|[_ ->]]; destruct (e =? 0); eauto.
Qed.

Lemma fix_each_file_frame (gl_pathv : list string) :
  ∀ mask fs p,
    (fix_each_file gl_pathv mask fs).1.1 !! p ≠ fs !! p →
    p ∈ gl_pathv
    ∧ ∃ text, (fix_each_file gl_pathv mask fs).1.1 !! p
              = Some (regular_file text 384 geteuid getegid).
Proof.
  induction gl_pathv as [|file rest IH]; intros mask fs p; cbn [fix_each_file]; [done|].
  pose proof (fix_one_file_frame file mask fs) as Hone.
  destruct (fix_one_file file mask fs) as [[fs1 mask1] ok]. cbn [fst] in Hone.
  destruct ok; cbn [fst].
  - intros Hp.
    destruct (decide ((fix_each_file rest mask1 fs1).1.1 !! p = fs1 !! p)) as [Heq|Hne].
    + rewrite Heq in Hp |- *. destruct Hone as [->|[text ->]]; [done|].
      destruct (decide (p = file)) as [->|Hpf].
      * split; [left|]. rewrite lookup_insert_eq. eauto.
      * by rewrite lookup_insert_ne in Hp.
    + destruct (IH mask1 fs1 p Hne) as [Hin Htext]. split; [by right | done].
  - intros Hp. destruct Hone as [->|[text ->]]; [done|].
    destruct (decide (p = file)) as [->|Hpf].
    + split; [left|]. rewrite lookup_insert_eq. eauto.
    + by rewrite lookup_insert_ne in Hp.
Qed.

(** The fixup rewrites profiles in place, and what else it does, it does to
    the mask of the process.  A file that differs after the run is one of
    the names that [glob] returned, and it is then a regular file of mode
    0600 that belongs to the process; no name is removed.  When [glob]
    fails for another reason than that nothing matches, the fixup returns
    [FALSE] and has changed nothing.  When it returns [TRUE] the mask of the
    process is the one it had; when it returns [FALSE] because a profile
    could not be saved, the mask is left at 077.  The files and the result
    do not depend on the mask that the process had. *)
Theorem fix_netplan_interface_name_rewrites_in_place (rootdir : option string)
    (mask : Z) (fs : filesystem) :
  let found := glob (profile_pattern rootdir) (dom fs) in
  let r := _fix_netplan_interface_name rootdir mask fs in
  (∀ p, r.1.1 !! p ≠ fs !! p →
     p ∈ found.2 ∧ ∃ text, r.1.1 !! p = Some (regular_file text 384 geteuid getegid))
  ∧ (∀ p, is_Some (fs !! p) → is_Some (r.1.1 !! p))
  ∧ (found.1 ≠ 0 → found.1 ≠ GLOB_NOMATCH → r = (fs, mask, false))
  ∧ (r.2 = true → r.1.2 = mask)
  ∧ (r.2 = false → found.1 = 0 ∨ found.1 = GLOB_NOMATCH → r.1.2 = 63)
  ∧ ∀ other,
      (_fix_netplan_interface_name rootdir other fs).1.1 = r.1.1
      ∧ (_fix_netplan_interface_name rootdir other fs).2 = r.2.
Proof.
  intros found r. subst r. unfold _fix_netplan_interface_name.
  change (glob _ (dom fs)) with found. destruct found as [rc gl_pathv]. cbn [fst snd].
  destruct (negb (rc =? 0) && negb (rc =? GLOB_NOMATCH)) eqn:Hrc.
  { cbn [fst snd]. do 3 (split; [done|]). split; [done|]. split; [|done].
    intros _ [-> | ->]; done. }
  assert (Hframe := fix_each_file_frame gl_pathv mask fs).
  assert (Hmask := fix_each_file_mask gl_pathv). cbn zeta in Hmask.
  rewrite (Hmask mask). rewrite (Hmask mask) in Hframe. cbn [fst snd] in *.
  split; [done|]. split.
  { intros p Hp.
    destruct (decide ((fix_each_file gl_pathv 0 fs).1.1 !! p = fs !! p)) as [->|Hne];
      [done|].
    destruct (Hframe p Hne) as (_ & text & ->). eauto. }
  split.
  { intros Hne0 Hnomatch. apply andb_false_iff in Hrc as [Hz|Hz].
    - apply negb_false_iff, Z.eqb_eq in Hz. done.
    - apply negb_false_iff, Z.eqb_eq in Hz. done. }
  split; [by intros ->|]. split; [by intros ->|].
  intros other. by rewrite (Hmask other).
Qed.

End fixup_frame.

(** A profile that cannot be saved: the fixup returns [FALSE], and the
    process that had the mask 022 has the mask 077. *)
Example failed_save_leaves_the_mask :
  let os := example_os (λ call _, if call is SYS_write then Some ENOSPC else None) in
  let fs : filesystem :=
    <["/run/NetworkManager/system-connections/netplan-NM-1.nmconnection" :=
        regular_file ("[connection]" +:+ newline
                      +:+ "interface-name=NM-11111111-1111-4111-8111-111111111111"
                      +:+ newline) 384 0 0]> example_run_dir in
  @_fix_netplan_interface_name os line_keeping_gkeyfile None 18 fs = (fs, 63, false).
Proof. intros os fs. by_computation. Qed.

(** ** Traffic control: when two qdiscs are equal *)

Section tc_facts.
Context {TcVariant : Type} `{!EqDecision TcVariant}.

Lemma attributes_size_default (attributes : option (gmap string TcVariant)) :
  attributes_size attributes = size (default ∅ attributes).
Proof. destruct attributes; [done|]. symmetry. apply map_size_empty. Qed.

Lemma attributes_lookup_default (attributes : option (gmap string TcVariant))
    (name : string) :
  attributes ≫= (λ attributes, attributes !! name) = default ∅ attributes !! name.
Proof. destruct attributes; [done|]. symmetry. apply lookup_empty. Qed.

Lemma qdisc_equal_iff (qdisc other : NMTCQdisc TcVariant) :
  nm_tc_qdisc_equal (Some qdisc) (Some other) = true
  ↔ qdisc_handle qdisc = qdisc_handle other
    ∧ qdisc_parent qdisc = qdisc_parent other
    ∧ qdisc_kind qdisc = qdisc_kind other
    ∧ default ∅ (qdisc_attributes qdisc) = default ∅ (qdisc_attributes other).
Proof.
  unfold nm_tc_qdisc_equal.
  destruct (Z.eqb_spec (qdisc_handle qdisc) (qdisc_handle other)) as [Hh|Hh]; cbn [negb orb].
  2: { split; [done | by intros [? _]]. }
  destruct (Z.eqb_spec (qdisc_parent qdisc) (qdisc_parent other)) as [Hp|Hp]; cbn [negb orb].
  2: { split; [done | by intros (_ & ? & _)]. }
  destruct (String.eqb_spec (qdisc_kind qdisc) (qdisc_kind other)) as [Hk|Hk]; cbn [negb orb].
  2: { split; [done | by intros (_ & _ & ? & _)]. }
  rewrite !attributes_size_default.
  set (m1 := default ∅ (qdisc_attributes qdisc)).
  set (m2 := default ∅ (qdisc_attributes other)).
  destruct (Nat.eqb_spec (size m1) (size m2)) as [Hsize|Hsize]; cbn [negb].
  2: { split; [done|]. intros (_ & _ & _ & Heq). by rewrite Heq in Hsize. }
  destruct (Nat.eqb_spec (size m1) 0) as [Hzero|Hzero].
  { split; [|done]. intros _. split; [done|]. split; [done|]. split; [done|].
    rewrite Hzero in Hsize. symmetry in Hsize.
    apply map_size_empty_inv in Hzero, Hsize. by rewrite Hzero, Hsize. }
  rewrite forallb_forall. split.
  - intros Hall. split; [done|]. split; [done|]. split; [done|].
    apply map_subseteq_size_eq; [|lia].
    apply map_subseteq_spec. intros name value Hname.
    specialize (Hall (name, value)). cbn [fst snd] in Hall.
    rewrite attributes_lookup_default in Hall. fold m2 in Hall.
    assert (Hin : In (name, value) (map_to_list m1))
      by (by apply list_elem_of_In, elem_of_map_to_list).
    specialize (Hall Hin). destruct (m2 !! name) as [value2|]; [|done].
    apply bool_decide_eq_true in Hall. by subst.
  - intros (_ & _ & _ & Heq) [name value] Hin. cbn [fst snd].
    apply list_elem_of_In, elem_of_map_to_list in Hin.
    rewrite attributes_lookup_default. fold m2. rewrite <- Heq, Hin.
    by apply bool_decide_eq_true.
Qed.

(** [nm_tc_qdisc_equal] holds of two qdiscs exactly when they have the same
    handle, the same parent, the same kind and the same attributes, where a
    qdisc without a table of attributes counts as one with an empty table.
    The test of the code, that the tables have the same size and every
    attribute of the first is an attribute of the second, is enough for
    that.  So the function is an equivalence on qdiscs; a [NULL] qdisc is
    equal to nothing, not even to [NULL]. *)
Theorem nm_tc_qdisc_equal_exactly (qdisc other third : NMTCQdisc TcVariant) :
  (nm_tc_qdisc_equal (Some qdisc) (Some other) = true
   ↔ qdisc_handle qdisc = qdisc_handle other
     ∧ qdisc_parent qdisc = qdisc_parent other
     ∧ qdisc_kind qdisc = qdisc_kind other
     ∧ default ∅ (qdisc_attributes qdisc) = default ∅ (qdisc_attributes other))
  ∧ (nm_tc_qdisc_equal (Some qdisc) (Some other) = true →
     ∀ name, nm_tc_qdisc_get_attribute qdisc name = nm_tc_qdisc_get_attribute other name)
  ∧ nm_tc_qdisc_equal (Some qdisc) (Some qdisc) = true
  ∧ nm_tc_qdisc_equal (Some qdisc) (Some other) = nm_tc_qdisc_equal (Some other) (Some qdisc)
  ∧ (nm_tc_qdisc_equal (Some qdisc) (Some other) = true →
     nm_tc_qdisc_equal (Some other) (Some third) = true →
     nm_tc_qdisc_equal (Some qdisc) (Some third) = true)
  ∧ nm_tc_qdisc_equal None (Some qdisc) = false
  ∧ nm_tc_qdisc_equal (Some qdisc) None = false
  ∧ nm_tc_qdisc_equal (@None (NMTCQdisc TcVariant)) None = false.
Proof.
  split; [apply qdisc_equal_iff|]. split; [|split; [|split; [|split; [|done]]]].
  - intros (_ & _ & _ & Ha)%qdisc_equal_iff name.
    unfold nm_tc_qdisc_get_attribute. destruct (key_is_set name); [|done].
    by rewrite !attributes_lookup_default, Ha.
  - by apply qdisc_equal_iff.
  - destruct (nm_tc_qdisc_equal (Some qdisc) (Some other)) eqn:Hqo.
    + symmetry. apply qdisc_equal_iff. apply qdisc_equal_iff in Hqo.
      destruct Hqo as (? & ? & ? & ?). done.
    + destruct (nm_tc_qdisc_equal (Some other) (Some qdisc)) eqn:Hoq; [|done].
      rewrite <- Hqo. apply qdisc_equal_iff. apply qdisc_equal_iff in Hoq.
      destruct Hoq as (? & ? & ? & ?). done.
  - rewrite !qdisc_equal_iff. intros (? & ? & ? & ?) (? & ? & ? & ?).
    repeat split; congruence.
Qed.

End tc_facts.
(** ** Traffic control: copies of a qdisc *)

Section tc_dup_facts.
Context {TcVariant : Type} `{!EqDecision TcVariant}.

Lemma qdisc_new_inv (kind : option string) (parent : Z) (qdisc : NMTCQdisc TcVariant) :
  nm_tc_qdisc_new kind parent = inr qdisc →
  kind = Some (qdisc_kind qdisc) ∧ qdisc_parent qdisc = parent
  ∧ qdisc_handle qdisc = 0 ∧ qdisc_attributes qdisc = None
  ∧ qdisc_kind qdisc ≠ EmptyString
  ∧ strchr (qdisc_kind qdisc) " " = false ∧ strchr (qdisc_kind qdisc) "009" = false
  ∧ parent ≠ 0.
Proof.
  unfold nm_tc_qdisc_new. destruct kind as [kind|]; [|done].
  destruct (nonempty kind) eqn:Hne; [|done]. cbn [negb].
  destruct (strchr kind " ") eqn:Hs; [done|]. destruct (strchr kind "009") eqn:Ht; [done|].
  cbn [orb]. destruct (Z.eqb_spec parent 0); [done|]. intros [= <-]. cbn.
  repeat split; try done. by apply nonempty_iff.
Qed.

(** What a qdisc keeps through its setters: the kind and the parent that
    [nm_tc_qdisc_new] accepted, and no attribute under a refused name. *)
Lemma qdisc_call_run_keeps (qdisc : NMTCQdisc TcVariant) (call : qdisc_call TcVariant) :
  default ∅ (qdisc_attributes qdisc) !! EmptyString = None →
  default ∅ (qdisc_attributes qdisc) !! "kind" = None →
  qdisc_kind (qdisc_call_run qdisc call) = qdisc_kind qdisc
  ∧ qdisc_parent (qdisc_call_run qdisc call) = qdisc_parent qdisc
  ∧ default ∅ (qdisc_attributes (qdisc_call_run qdisc call)) !! EmptyString = None
  ∧ default ∅ (qdisc_attributes (qdisc_call_run qdisc call)) !! "kind" = None.
Proof.
  intros Hempty Hkind. destruct call as [handle|name value]; cbn; [done|].
  unfold nm_tc_qdisc_set_attribute.
  destruct (key_is_set name) as [k|] eqn:Hk; [|done].
  apply key_is_set_inv in Hk as [_ Hk].
  destruct (String.eqb_spec k "kind") as [->|Hnk]; [done|]. cbn.
  split; [done|]. split; [done|].
  destruct value as [value|].
  - by rewrite !lookup_insert_ne.
  - by rewrite !lookup_delete_ne.
Qed.

Lemma qdisc_calls_keep (calls : list (qdisc_call TcVariant)) :
  ∀ qdisc : NMTCQdisc TcVariant,
  default ∅ (qdisc_attributes qdisc) !! EmptyString = None →
  default ∅ (qdisc_attributes qdisc) !! "kind" = None →
  qdisc_kind (foldl qdisc_call_run qdisc calls) = qdisc_kind qdisc
  ∧ qdisc_parent (foldl qdisc_call_run qdisc calls) = qdisc_parent qdisc
  ∧ default ∅ (qdisc_attributes (foldl qdisc_call_run qdisc calls)) !! EmptyString = None
  ∧ default ∅ (qdisc_attributes (foldl qdisc_call_run qdisc calls)) !! "kind" = None.
Proof.
  induction calls as [|call calls IH]; intros qdisc Hempty Hkind; cbn [foldl]; [done|].
  destruct (qdisc_call_run_keeps qdisc call Hempty Hkind) as (Hk & Hp & He' & Hk').
  destruct (IH _ He' Hk') as (-> & -> & ? & ?). by rewrite Hk, Hp.
Qed.

Lemma copy_attributes_inv (entries : list (string * TcVariant)) :
  ∀ copy : NMTCQdisc TcVariant,
  NoDup entries.*1 →
  (∀ name value, (name, value) ∈ entries → name ≠ EmptyString ∧ name ≠ "kind") →
  let copied :=
    foldl (λ copy (entry : string * TcVariant),
             nm_tc_qdisc_set_attribute copy (Some entry.1) (Some entry.2))
          copy entries in
  qdisc_kind copied = qdisc_kind copy
  ∧ qdisc_handle copied = qdisc_handle copy
  ∧ qdisc_parent copied = qdisc_parent copy
  ∧ ∀ name,
      default ∅ (qdisc_attributes copied) !! name
      = match (list_to_map entries : gmap string TcVariant) !! name with
        | Some value => Some value
        | None => default ∅ (qdisc_attributes copy) !! name
        end.
Proof.
  induction entries as [|[name value] entries IH]; intros copy Hnodup Hnames; cbn [foldl].
  { split; [done|]. split; [done|]. split; [done|]. intros name.
    change (list_to_map [] : gmap string TcVariant) with (∅ : gmap string TcVariant).
    by rewrite lookup_empty. }
  rewrite fmap_cons in Hnodup. apply NoDup_cons in Hnodup as [Hfresh Hnodup].
  cbn [fst] in Hfresh.
  destruct (Hnames name value) as [Hne Hnk]; [left|].
  assert (Hstep : nm_tc_qdisc_set_attribute copy (Some name) (Some value)
                  = {| qdisc_kind := qdisc_kind copy; qdisc_handle := qdisc_handle copy;
                       qdisc_parent := qdisc_parent copy;
                       qdisc_attributes :=
                         Some (<[name := value]> (default ∅ (qdisc_attributes copy))) |}).
  { unfold nm_tc_qdisc_set_attribute. rewrite key_is_set_Some by done.
    by destruct (String.eqb_spec name "kind"). }
  cbn [fst snd].
  destruct (IH (nm_tc_qdisc_set_attribute copy (Some name) (Some value)) Hnodup)
    as (Hk & Hh & Hp & Hlookup).
  { intros n v Hin. apply (Hnames n v). by right. }
  cbv zeta in Hk, Hh, Hp, Hlookup. rewrite Hk, Hh, Hp. rewrite Hstep at 1 2 3.
  split; [done|]. split; [done|]. split; [done|].
  intros k. rewrite Hlookup, Hstep. cbn [qdisc_attributes default].
  change (list_to_map ((name, value) :: entries) : gmap string TcVariant)
    with (<[name := value]> (list_to_map entries : gmap string TcVariant)).
  unfold id. destruct (decide (k = name)) as [->|Hk'].
  - rewrite (not_elem_of_list_to_map_1 _ name) by exact Hfresh.
    by rewrite !lookup_insert_eq.
  - by rewrite !(lookup_insert_ne _ name k).
Qed.

Lemma qdisc_dup_equal (qdisc : NMTCQdisc TcVariant) :
  qdisc_kind qdisc ≠ EmptyString →
  strchr (qdisc_kind qdisc) " " = false → strchr (qdisc_kind qdisc) "009" = false →
  qdisc_parent qdisc ≠ 0 →
  default ∅ (qdisc_attributes qdisc) !! EmptyString = None →
  default ∅ (qdisc_attributes qdisc) !! "kind" = None →
  ∃ copy, nm_tc_qdisc_dup qdisc = Some copy
          ∧ nm_tc_qdisc_equal (Some copy) (Some qdisc) = true.
Proof.
  intros Hne Hs Ht Hp Hempty Hkind. unfold nm_tc_qdisc_dup, nm_tc_qdisc_new.
  apply nonempty_iff in Hne. rewrite Hne, Hs, Ht. cbn [negb orb].
  destruct (Z.eqb_spec (qdisc_parent qdisc) 0); [done|].
  eexists. split; [done|]. apply qdisc_equal_iff.
  destruct (qdisc_attributes qdisc) as [attributes|] eqn:Hattrs; [|done].
  simpl in Hempty, Hkind.
  match goal with
  | |- context [foldl ?f ?c (map_to_list attributes)] =>
      destruct (copy_attributes_inv (map_to_list attributes) c) as (-> & -> & -> & Hlookup)
  end.
  { apply NoDup_fst_map_to_list. }
  { intros name value Hin%elem_of_map_to_list. split; intros ->; congruence. }
  split; [done|]. split; [done|]. split; [done|].
  apply map_eq. intros name. rewrite Hlookup, list_to_map_to_list. cbn.
  destruct (attributes !! name); [done | apply lookup_empty].
Qed.

(** A copy is equal to its original.  For a qdisc that
    [nm_tc_qdisc_new] made and on which handles and attributes were set and
    cleared in any order, [nm_tc_qdisc_dup] returns a qdisc, and
    [nm_tc_qdisc_equal] holds of the copy and the original: the kind and the
    parent are accepted again, and no attribute has a name that
    [nm_tc_qdisc_set_attribute] refuses when the copy is filled. *)
Theorem qdisc_dup_is_equal (kind : option string) (parent : Z)
    (made : NMTCQdisc TcVariant) (calls : list (qdisc_call TcVariant)) :
  nm_tc_qdisc_new kind parent = inr made →
  let qdisc := foldl qdisc_call_run made calls in
  ∃ copy,
    nm_tc_qdisc_dup qdisc = Some copy
    ∧ nm_tc_qdisc_equal (Some copy) (Some qdisc) = true
    ∧ nm_tc_qdisc_equal (Some qdisc) (Some copy) = true
    ∧ kind = Some (qdisc_kind copy) ∧ qdisc_parent copy = parent
    ∧ ∀ name, nm_tc_qdisc_get_attribute copy name = nm_tc_qdisc_get_attribute qdisc name.
Proof.
  intros Hnew qdisc.
  apply qdisc_new_inv in Hnew as (-> & <- & _ & Hattrs & Hne & Hs & Ht & Hp).
  destruct (qdisc_calls_keep calls made) as (Hk & Hpar & Hempty & Hkind);
    [by rewrite Hattrs..|].
  fold qdisc in Hk, Hpar, Hempty, Hkind.
  destruct (qdisc_dup_equal qdisc) as (copy & Hdup & Hequal); rewrite ?Hk, ?Hpar; try done.
  exists copy. split; [done|]. split; [done|].
  pose proof Hequal as (Hh' & Hp' & Hk' & Ha')%qdisc_equal_iff.
  split; [apply qdisc_equal_iff; by rewrite Hh', Hp', Hk', Ha'|].
  split; [by rewrite Hk', Hk|]. split; [by rewrite Hp', Hpar|].
  intros name. unfold nm_tc_qdisc_get_attribute. destruct (key_is_set name); [|done].
  by rewrite !attributes_lookup_default, Ha'.
Qed.

End tc_dup_facts.

Lemma qdisc_dup_is_equal_witness :
  let qdisc :=
    {| qdisc_kind := "fq_codel"; qdisc_handle := 4660; qdisc_parent := 4294967295;
       qdisc_attributes := Some {[ "limit" := "10240" ]} |} in
  ∃ copy, nm_tc_qdisc_dup qdisc = Some copy
          ∧ nm_tc_qdisc_equal (Some copy) (Some qdisc) = true.
Proof.
  intros qdisc.
  pose (made := {| qdisc_kind := "fq_codel"; qdisc_handle := 0; qdisc_parent := 4294967295;
                   qdisc_attributes := None |} : NMTCQdisc string).
  destruct (@qdisc_dup_is_equal string _ (Some "fq_codel") 4294967295 made
              [Qdisc_set_handle 4660; Qdisc_set_attribute (Some "limit") (Some "10240")]
              eq_refl) as (copy & Hdup & Hequal & _).
  exists copy. split; [exact Hdup | exact Hequal].
Defined.
(** ** Traffic control: the qdiscs of a setting *)

Section tc_setting_facts.
Context {TcVariant : Type} `{!EqDecision TcVariant}.

Lemma qdisc_equal_congruence (known : option (NMTCQdisc TcVariant))
    (one two : NMTCQdisc TcVariant) :
  nm_tc_qdisc_equal (Some one) (Some two) = true →
  nm_tc_qdisc_equal known (Some one) = nm_tc_qdisc_equal known (Some two).
Proof.
  intros (Hh & Hp & Hk & Ha)%qdisc_equal_iff. destruct known as [known|]; [|done].
  destruct (nm_tc_qdisc_equal (Some known) (Some one)) eqn:Hone.
  - symmetry. apply qdisc_equal_iff. apply qdisc_equal_iff in Hone.
    destruct Hone as (? & ? & ? & ?). repeat split; congruence.
  - destruct (nm_tc_qdisc_equal (Some known) (Some two)) eqn:Htwo; [|done].
    rewrite <- Hone. apply qdisc_equal_iff. apply qdisc_equal_iff in Htwo.
    destruct Htwo as (? & ? & ? & ?). repeat split; congruence.
Qed.

Lemma verify_qdiscs_snoc (qdiscs : list (option (NMTCQdisc TcVariant)))
    (qdisc : option (NMTCQdisc TcVariant)) :
  ∀ ht,
    verify_qdiscs ht (qdiscs ++ [qdisc])
    = verify_qdiscs ht qdiscs
      && negb (existsb (λ known, nm_tc_qdisc_equal known qdisc) ht
               || existsb (λ known, nm_tc_qdisc_equal known qdisc) qdiscs).
Proof.
  induction qdiscs as [|first qdiscs IH]; intros ht; cbn [app verify_qdiscs existsb].
  - rewrite orb_false_r. by destruct (existsb _ ht).
  - destruct (existsb (λ known, nm_tc_qdisc_equal known first) ht); [done|].
    rewrite IH. cbn [existsb]. f_equal. f_equal.
    destruct (nm_tc_qdisc_equal first qdisc), (existsb _ ht), (existsb _ qdiscs); done.
Qed.

(** [nm_setting_tc_config_add_qdisc], for a qdisc that was made by
    [nm_tc_qdisc_new] and its setters.  It returns [FALSE] exactly when the
    setting holds a qdisc that is equal to the one given, and then changes
    nothing.  Otherwise it appends a copy that is equal to the one given and
    notifies [qdiscs]: the copy is the last qdisc, there is one qdisc more,
    adding the same qdisc again is refused, taking it out by value gives the
    list of before, and a list in which [verify] found no duplicates is
    still without duplicates. *)
Theorem add_qdisc_appends_unless_known (self : NMSettingTCConfig TcVariant)
    (kind : option string) (parent : Z) (made : NMTCQdisc TcVariant)
    (calls : list (qdisc_call TcVariant)) :
  nm_tc_qdisc_new kind parent = inr made →
  let qdisc := foldl qdisc_call_run made calls in
  let r := nm_setting_tc_config_add_qdisc self (Some qdisc) in
  (r.2 = false
   ↔ ∃ known, known ∈ tc_qdiscs self ∧ nm_tc_qdisc_equal known (Some qdisc) = true)
  ∧ (r.2 = false → r.1 = self)
  ∧ (r.2 = true →
     ∃ copy,
       r.1 = set_qdiscs self (tc_qdiscs self ++ [Some copy])
       ∧ nm_tc_qdisc_equal (Some copy) (Some qdisc) = true
       ∧ nm_setting_tc_config_get_qdisc r.1 (nm_setting_tc_config_get_num_qdiscs self)
         = Some copy
       ∧ nm_setting_tc_config_get_num_qdiscs r.1
         = S (nm_setting_tc_config_get_num_qdiscs self)
       ∧ (nm_setting_tc_config_add_qdisc r.1 (Some qdisc)).2 = false
       ∧ nm_setting_tc_config_remove_qdisc_by_value r.1 (Some qdisc)
         = (set_qdiscs r.1 (tc_qdiscs self), true)
       ∧ (verify_qdiscs [] (tc_qdiscs self) = true →
          verify_qdiscs [] (tc_qdiscs r.1) = true)).
Proof.
  intros Hnew qdisc r. subst r.
  apply qdisc_new_inv in Hnew as (-> & <- & _ & Hattrs & Hne & Hs & Ht & Hp).
  destruct (qdisc_calls_keep calls made) as (Hk & Hpar & Hempty & Hkind);
    [by rewrite Hattrs..|].
  fold qdisc in Hk, Hpar, Hempty, Hkind.
  destruct (qdisc_dup_equal qdisc) as (copy & Hdup & Hequal); rewrite ?Hk, ?Hpar; try done.
  clearbody qdisc. unfold nm_setting_tc_config_add_qdisc.
  set (known_already := existsb (λ known, nm_tc_qdisc_equal known (Some qdisc))
                                (tc_qdiscs self)).
  assert (Hknown : known_already = true
                   ↔ ∃ known, known ∈ tc_qdiscs self
                              ∧ nm_tc_qdisc_equal known (Some qdisc) = true).
  { subst known_already. rewrite existsb_exists. split.
    - intros (known & Hin & Heq). exists known. by rewrite list_elem_of_In.
    - intros (known & Hin & Heq). exists known. by rewrite <- list_elem_of_In. }
  destruct known_already eqn:Hexists; cbn [fst snd].
  { split; [split; [intros _; by apply Hknown | done]|]. done. }
  split; [split; [done | by intros ?%Hknown]|]. split; [done|]. intros _.
  rewrite Hdup. exists copy. split; [done|]. split; [done|].
  unfold nm_setting_tc_config_get_qdisc, nm_setting_tc_config_get_num_qdiscs.
  cbn [set_qdiscs tc_qdiscs].
  assert (Hfresh : existsb (λ known, nm_tc_qdisc_equal known (Some copy)) (tc_qdiscs self)
                   = false).
  { rewrite <- Hexists. subst known_already. clear Hknown Hexists.
    induction (tc_qdiscs self) as [|first rest IH]; [done|]. cbn [existsb].
    by rewrite IH, (qdisc_equal_congruence first copy qdisc). }
  split; [by rewrite lookup_app_r, Nat.sub_diag|].
  split; [rewrite length_app; cbn; lia|]. split; [|split].
  - unfold nm_setting_tc_config_add_qdisc. cbn [set_qdiscs tc_qdiscs].
    rewrite existsb_app. cbn [existsb]. rewrite Hequal. by rewrite !orb_true_r.
  - unfold nm_setting_tc_config_remove_qdisc_by_value. cbn [set_qdiscs tc_qdiscs].
    assert (Hnone : list_find (λ known, nm_tc_qdisc_equal known (Some qdisc) = true)
                              (tc_qdiscs self) = None).
    { apply list_find_None, Forall_forall. intros known Hin Heq.
      assert (false = true); [|done]. apply Hknown. eauto. }
    rewrite (list_find_app_r _ _ _ Hnone). cbn [list_find].
    rewrite decide_True by done. cbn.
    by rewrite (delete_middle (tc_qdiscs self) [] (Some copy)), app_nil_r.
  - intros Hverify. rewrite verify_qdiscs_snoc, Hverify, Hfresh. done.
Qed.

End tc_setting_facts.

Lemma add_qdisc_appends_unless_known_witness :
  let qdisc :=
    {| qdisc_kind := "fq_codel"; qdisc_handle := 0; qdisc_parent := 4294967295;
       qdisc_attributes := None |} : NMTCQdisc string in
  let added := nm_setting_tc_config_add_qdisc nm_setting_tc_config_new (Some qdisc) in
  added.2 = true
  ∧ (nm_setting_tc_config_add_qdisc added.1 (Some qdisc)).2 = false
  ∧ tc_qdiscs (nm_setting_tc_config_remove_qdisc_by_value added.1 (Some qdisc)).1 = [].
Proof.
  intros qdisc added.
  destruct (@add_qdisc_appends_unless_known string _ nm_setting_tc_config_new
              (Some "fq_codel") 4294967295 qdisc [] eq_refl) as (_ & _ & Hadded).
  destruct (Hadded eq_refl) as (copy & _ & _ & _ & _ & Hagain & Hremove & _).
  split; [reflexivity|]. split; [exact Hagain|].
  change (foldl qdisc_call_run qdisc []) with qdisc in Hremove.
  fold added in Hremove. by rewrite Hremove.
Defined.
(** ** What a sidecar that was read is *)

Section nmmeta_read_facts.
Context `{!Libnm, !GKeyFileApi}.

(** Every record that [nms_keyfile_nmmeta_read] hands back comes from a file
    whose name is a normalized uuid of 36 characters followed by [.nmmeta]
    and which passed the check of owner and permissions as [lstat] shows it.
    The uuid of the record is that of the name, the record names the file
    it was read from, and it has a loaded path or a shadowed storage.  A
    record read from a symbolic link has the link's target as its loaded
    path and no shadowed storage; a record read from a regular file comes
    from a key file that could be parsed and whose uuid key is the uuid of
    the name. *)
Theorem nmmeta_read_is_checked (dirname filename : string) (fs : filesystem)
    (record : nmmeta_record) :
  nms_keyfile_nmmeta_read dirname filename fs = Some record →
  sidecar_shape (base_name filename)
  ∧ base_name filename = nmmeta_uuid record +:+ NM_KEYFILE_PATH_SUFFIX_NMMETA
  ∧ nm_uuid_is_normalized (nmmeta_uuid record) = true
  ∧ nmmeta_full_filename record = g_build_filename [dirname; filename]
  ∧ lstat fs (nmmeta_full_filename record) = Some (nmmeta_st record)
  ∧ nms_keyfile_utils_check_file_permissions_stat NMS_KEYFILE_FILETYPE_NMMETA
      (nmmeta_st record) = None
  ∧ (is_Some (nmmeta_loaded_path record) ∨ is_Some (nmmeta_shadowed_storage record))
  ∧ (S_ISREG (st_mode (nmmeta_st record)) = false →
     S_ISLNK (st_mode (nmmeta_st record)) = true
     ∧ nmmeta_shadowed_storage record = None
     ∧ ∃ link, fs !! nmmeta_full_filename record = Some link
               ∧ nmmeta_loaded_path record
                 = Some (link_destination (nmmeta_full_filename record) (i_data link)))
  ∧ (S_ISREG (st_mode (nmmeta_st record)) = true →
     ∃ kf, g_key_file_load_from_file G_KEY_FILE_NONE (nmmeta_full_filename record) fs
           = (kf, true)
           ∧ g_key_file_get_string kf NMMETA_KF_GROUP_NAME_NMMETA
               NMMETA_KF_KEY_NAME_NMMETA_UUID = Some (nmmeta_uuid record)
           ∧ nmmeta_loaded_path record
             = g_key_file_get_string kf NMMETA_KF_GROUP_NAME_NMMETA
                 NMMETA_KF_KEY_NAME_NMMETA_LOADED_PATH
           ∧ nmmeta_shadowed_storage record
             = g_key_file_get_string kf NMMETA_KF_GROUP_NAME_NMMETA
                 NMMETA_KF_KEY_NAME_NMMETA_SHADOWED_STORAGE).
Proof.
  unfold nms_keyfile_nmmeta_read.
  destruct (nms_keyfile_nmmeta_check_filename filename) as [[base n]|] eqn:Hname; [|done].
  apply check_filename_inv in Hname as (-> & -> & Hshape).
  pose proof Hshape as (uuid & Hbase & Hlen & Hnorm).
  assert (Huuid : substring 0 36 (base_name filename) = uuid).
  { rewrite Hbase, <- Hlen. apply substring_app_l. }
  rewrite Huuid.
  set (full := g_build_filename [dirname; filename]).
  unfold nms_keyfile_utils_check_file_permissions.
  destruct (g_str_has_prefix full "/"); [|done]. cbn [negb].
  destruct (lstat fs full) as [st|] eqn:Hlstat; [|done].
  destruct (nms_keyfile_utils_check_file_permissions_stat _ st) eqn:Hcheck; [done|].
  destruct (S_ISREG (st_mode st)) eqn:Hreg.
  - destruct (g_key_file_load_from_file G_KEY_FILE_NONE full fs) as [kf loaded] eqn:Hload.
    destruct loaded; [|done]. cbn [negb].
    destruct (g_key_file_get_string kf NMMETA_KF_GROUP_NAME_NMMETA
                NMMETA_KF_KEY_NAME_NMMETA_UUID) as [v_uuid|] eqn:Hv; [|done].
    destruct (String.eqb_spec v_uuid uuid) as [->|]; [|done]. cbn [negb].
    destruct (g_key_file_get_string kf _ NMMETA_KF_KEY_NAME_NMMETA_LOADED_PATH)
      as [loaded_path|] eqn:Hl;
      destruct (g_key_file_get_string kf _ NMMETA_KF_KEY_NAME_NMMETA_SHADOWED_STORAGE)
        as [shadowed|] eqn:Hsh; try done.
    all: intros [= <-]; cbn.
    all: do 6 (split; [done|]).
    all: split; [first [by left; eauto | by right; eauto]|].
    all: split; [by rewrite Hreg|].
    all: intros _; exists kf; by rewrite Hload.
  - unfold lstat in Hlstat. destruct (fs !! full) as [link|] eqn:Hlink; [|done].
    cbn in Hlstat. injection Hlstat as <-. intros [= <-]. cbn.
    do 4 (split; [done|]). split; [by unfold lstat; rewrite Hlink|]. split; [done|].
    split; [by left; eauto|].
    split; [|by rewrite Hreg]. intros _. split; [|eauto].
    unfold nms_keyfile_utils_check_file_permissions_stat in Hcheck.
    rewrite Hreg in Hcheck. cbn [negb andb] in Hcheck.
    by destruct (S_ISLNK (st_mode (i_stat link))).
Qed.

End nmmeta_read_facts.

Lemma nmmeta_read_is_checked_witness :
  let dir := "/etc/NetworkManager/system-connections" in
  let uuid := "11111111-1111-4111-8111-111111111111" in
  let fs : filesystem :=
    {[ dir +:+ "/" +:+ uuid +:+ ".nmmeta" := symbolic_link "/dev/null" 0 0 ]} in
  ∃ record,
    @nms_keyfile_nmmeta_read example_libnm example_gkeyfile dir (uuid +:+ ".nmmeta") fs
    = Some record
    ∧ nmmeta_uuid record = uuid
    ∧ example_uuid_is_normalized (nmmeta_uuid record) = true.
Proof.
  intros dir uuid fs.
  pose (record := {| nmmeta_full_filename := dir +:+ "/" +:+ uuid +:+ ".nmmeta";
                     nmmeta_uuid := uuid;
                     nmmeta_loaded_path := Some "/dev/null";
                     nmmeta_shadowed_storage := None;
                     nmmeta_st := i_stat (symbolic_link "/dev/null" 0 0) |}).
  assert (Hread : @nms_keyfile_nmmeta_read example_libnm example_gkeyfile dir
                    (uuid +:+ ".nmmeta") fs = Some record) by by_computation.
  destruct (@nmmeta_read_is_checked example_libnm example_gkeyfile dir (uuid +:+ ".nmmeta")
              fs record Hread) as (_ & _ & Hnorm & _).
  exists record. split; [exact Hread|]. split; [reflexivity | exact Hnorm].
Defined.
(** ** Traffic control: taking a qdisc out *)

Section tc_remove_facts.
Context {TcVariant : Type} `{!EqDecision TcVariant}.

Lemma verify_qdiscs_mono (qdiscs : list (option (NMTCQdisc TcVariant))) :
  ∀ ht ht' : list (option (NMTCQdisc TcVariant)),
  (∀ known, known ∈ ht' → known ∈ ht) →
  verify_qdiscs ht qdiscs = true → verify_qdiscs ht' qdiscs = true.
Proof.
  induction qdiscs as [|qdisc qdiscs IH]; intros ht ht' Hsub; cbn [verify_qdiscs]; [done|].
  destruct (existsb _ ht) eqn:Hht; [done|].
  destruct (existsb _ ht') eqn:Hht'.
  { apply existsb_exists in Hht' as (known & Hin & Heq).
    assert (existsb (λ known, nm_tc_qdisc_equal known qdisc) ht = true); [|congruence].
    apply existsb_exists. exists known. split; [|done].
    by apply list_elem_of_In, Hsub, list_elem_of_In. }
  apply IH. intros known [->|Hin]%elem_of_cons; [left | right; by apply Hsub].
Qed.

Lemma verify_qdiscs_delete (qdiscs : list (option (NMTCQdisc TcVariant))) :
  ∀ (i : nat) ht, verify_qdiscs ht qdiscs = true → verify_qdiscs ht (delete i qdiscs) = true.
Proof.
  induction qdiscs as [|qdisc qdiscs IH]; intros [|i] ht; cbn [verify_qdiscs]; try done.
  - destruct (existsb _ ht); [done|]. apply verify_qdiscs_mono. intros known Hin. by right.
  - change (delete (S i) (qdisc :: qdiscs)) with (qdisc :: delete i qdiscs).
    cbn [verify_qdiscs]. destruct (existsb _ ht); [done|]. apply IH.
Qed.

Lemma verify_qdiscs_seen (qdiscs : list (option (NMTCQdisc TcVariant))) :
  ∀ ht (j : nat) seen later,
  verify_qdiscs ht qdiscs = true → qdiscs !! j = Some later → seen ∈ ht →
  nm_tc_qdisc_equal seen later = false.
Proof.
  induction qdiscs as [|qdisc qdiscs IH]; intros ht [|j] seen later; cbn [verify_qdiscs];
    try done.
  - cbn. intros Hverify [= <-] Hin. destruct (existsb _ ht) eqn:Hex; [done|].
    destruct (nm_tc_qdisc_equal seen qdisc) eqn:Heq; [|done].
    assert (existsb (λ known, nm_tc_qdisc_equal known qdisc) ht = true); [|congruence].
    apply existsb_exists. exists seen. by rewrite <- list_elem_of_In.
  - cbn. destruct (existsb _ ht); [done|]. intros Hverify Hlater Hin.
    apply (IH (qdisc :: ht) j seen later Hverify Hlater). by right.
Qed.

Lemma verify_qdiscs_distinct (qdiscs : list (option (NMTCQdisc TcVariant))) :
  ∀ ht,
  verify_qdiscs ht qdiscs = true →
  ∀ i j first second,
    (i < j)%nat → qdiscs !! i = Some first → qdiscs !! j = Some second →
    nm_tc_qdisc_equal first second = false.
Proof.
  induction qdiscs as [|qdisc qdiscs IH]; intros ht; cbn [verify_qdiscs]; [done|].
  destruct (existsb _ ht); [done|]. intros Hverify [|i] [|j] first second Hij; try lia.
  - cbn. intros [= <-] Hsecond.
    apply (verify_qdiscs_seen qdiscs (qdisc :: ht) j qdisc second Hverify Hsecond). left.
  - cbn. intros Hfirst Hsecond. apply (IH _ Hverify i j); [lia | done..].
Qed.

(** [nm_setting_tc_config_remove_qdisc_by_value] returns [TRUE] exactly when
    the setting holds a qdisc equal to the one given; otherwise nothing is
    changed.  It takes out the first such qdisc, and only that one: the
    qdiscs before it and after it stay in their order, and [qdiscs] is
    notified.  A list in which [verify] found no duplicates is still without
    duplicates afterwards, and it then holds no qdisc equal to the one given
    any more, so a second call returns [FALSE]. *)
Theorem remove_qdisc_by_value_takes_first (self : NMSettingTCConfig TcVariant)
    (qdisc : option (NMTCQdisc TcVariant)) :
  let r := nm_setting_tc_config_remove_qdisc_by_value self qdisc in
  (r.2 = true
   ↔ ∃ known, known ∈ tc_qdiscs self ∧ nm_tc_qdisc_equal known qdisc = true)
  ∧ (r.2 = false → r.1 = self)
  ∧ (r.2 = true →
     ∃ i known,
       tc_qdiscs self !! i = Some known
       ∧ nm_tc_qdisc_equal known qdisc = true
       ∧ (∀ j earlier, (j < i)%nat → tc_qdiscs self !! j = Some earlier →
                       nm_tc_qdisc_equal earlier qdisc = false)
       ∧ r.1 = set_qdiscs self (delete i (tc_qdiscs self))
       ∧ r.1 = nm_setting_tc_config_remove_qdisc self i
       ∧ S (nm_setting_tc_config_get_num_qdiscs r.1)
         = nm_setting_tc_config_get_num_qdiscs self)
  ∧ (verify_qdiscs [] (tc_qdiscs self) = true →
     verify_qdiscs [] (tc_qdiscs r.1) = true
     ∧ (nm_setting_tc_config_remove_qdisc_by_value r.1 qdisc).2 = false).
Proof.
  intros r. subst r. unfold nm_setting_tc_config_remove_qdisc_by_value at 1 2 3 4 5 6 7 8.
  destruct qdisc as [qdisc|].
  2: { cbn [fst snd]. split; [split; [done|]|].
       { intros (known & _ & Heq). by destruct known. }
       split; [done|]. split; [done|]. intros Hverify. split; [done|]. done. }
  destruct (list_find _ (tc_qdiscs self)) as [[i known]|] eqn:Hfind; cbn [fst snd].
  - pose proof Hfind as Hfound.
    apply list_find_Some in Hfind as (Hi & Hequal & Hfirst).
    split; [split; [|done]|].
    { intros _. exists known. split; [by eapply list_elem_of_lookup_2 | done]. }
    split; [done|]. split.
    + intros _. exists i, known. split; [done|]. split; [done|]. split.
      { intros j earlier Hj Hearlier. specialize (Hfirst j earlier Hearlier Hj).
        by destruct (nm_tc_qdisc_equal earlier (Some qdisc)). }
      split; [done|]. split.
      { unfold nm_setting_tc_config_remove_qdisc.
        apply lookup_lt_Some in Hi. by rewrite (proj2 (Nat.ltb_lt _ _) Hi). }
      unfold nm_setting_tc_config_get_num_qdiscs. cbn [set_qdiscs tc_qdiscs].
      apply lookup_lt_Some in Hi as Hlt. rewrite length_delete by eauto. lia.
    + intros Hverify. split; [by apply verify_qdiscs_delete|].
      unfold nm_setting_tc_config_remove_qdisc_by_value. rewrite Hfound.
      cbn [fst set_qdiscs tc_qdiscs].
      destruct (list_find (λ known, nm_tc_qdisc_equal known (Some qdisc) = true)
                          (delete i (tc_qdiscs self))) as [[j other]|] eqn:Hagain; [|done].
      exfalso. apply list_find_Some in Hagain as (Hj & Hother & _).
      destruct known as [known|]; [|done]. destruct other as [other|]; [|done].
      assert (Hsame : nm_tc_qdisc_equal (Some known) (Some other) = true
                      ∧ nm_tc_qdisc_equal (Some other) (Some known) = true).
      { apply qdisc_equal_iff in Hequal as (? & ? & ? & ?).
        apply qdisc_equal_iff in Hother as (? & ? & ? & ?).
        split; apply qdisc_equal_iff; repeat split; congruence. }
      destruct Hsame as [Hko Hok].
      destruct (decide (j < i)%nat) as [Hlt|Hge].
      * rewrite list_lookup_delete_lt in Hj by done.
        by rewrite (verify_qdiscs_distinct _ _ Hverify j i _ _ Hlt Hj Hi) in Hok.
      * rewrite list_lookup_delete_ge in Hj by lia.
        by rewrite (verify_qdiscs_distinct _ _ Hverify i (S j) _ _ ltac:(lia) Hi Hj) in Hko.
  - pose proof Hfind as Hnone. apply list_find_None in Hfind. split; [split; [done|]|].
    { intros (known & Hin & Heq). rewrite Forall_forall in Hfind. by destruct (Hfind known). }
    split; [done|]. split; [done|]. intros Hverify. split; [done|].
    unfold nm_setting_tc_config_remove_qdisc_by_value. rewrite Hnone. cbn [fst].
    by rewrite Hnone.
Qed.

End tc_remove_facts.
(** ** Traffic control: the attributes of a qdisc *)

(** An attribute that was set is the attribute that is read.
    [nm_tc_qdisc_set_attribute] refuses a [NULL] or empty name and the name
    [kind] and then leaves the qdisc alone.  For every other name the
    attribute reads as the value given afterwards, or as absent when the
    value given was [NULL]; the other attributes, the kind, the handle and
    the parent are as they were.  [nm_tc_qdisc_set_handle] changes the
    handle and nothing else. *)
Theorem qdisc_set_attribute_then_get {TcVariant : Type} (qdisc : NMTCQdisc TcVariant)
    (name : option string) (value : option TcVariant) (handle : Z) :
  let qdisc' := nm_tc_qdisc_set_attribute qdisc name value in
  (key_is_set name = None ∨ name = Some "kind" → qdisc' = qdisc)
  ∧ (is_Some (key_is_set name) → name ≠ Some "kind" →
     nm_tc_qdisc_get_attribute qdisc' name = value
     ∧ (∀ other, other ≠ name →
          nm_tc_qdisc_get_attribute qdisc' other = nm_tc_qdisc_get_attribute qdisc other)
     ∧ is_Some (qdisc_attributes qdisc'))
  ∧ qdisc_kind qdisc' = qdisc_kind qdisc
  ∧ qdisc_handle qdisc' = qdisc_handle qdisc
  ∧ qdisc_parent qdisc' = qdisc_parent qdisc
  ∧ nm_tc_qdisc_set_handle qdisc handle
    = {| qdisc_kind := qdisc_kind qdisc; qdisc_handle := handle;
         qdisc_parent := qdisc_parent qdisc;
         qdisc_attributes := qdisc_attributes qdisc |}
  ∧ ∀ other, nm_tc_qdisc_get_attribute (nm_tc_qdisc_set_handle qdisc handle) other
             = nm_tc_qdisc_get_attribute qdisc other.
Proof.
  intros qdisc'. subst qdisc'. unfold nm_tc_qdisc_set_attribute.
  destruct (key_is_set name) as [k|] eqn:Hk.
  2: { split; [done|]. split; [by intros [? ?]|]. done. }
  apply key_is_set_inv in Hk as [-> Hk].
  destruct (String.eqb_spec k "kind") as [->|Hkind].
  { split; [done|]. split; [by intros _ ?|]. done. }
  split; [by intros [?|[= ?]]|]. split; [|done]. intros _ _.
  unfold nm_tc_qdisc_get_attribute. rewrite key_is_set_Some by done. cbn.
  split; [|split; [|eauto]].
  - destruct value; [apply lookup_insert_eq | apply lookup_delete_eq].
  - intros other Hother. destruct (key_is_set other) as [o|] eqn:Ho; [|done].
    apply key_is_set_inv in Ho as [-> _].
    assert (Hne : k ≠ o) by congruence.
    destruct value.
    + rewrite lookup_insert_ne by done. by destruct (qdisc_attributes qdisc).
    + rewrite lookup_delete_ne by done. by destruct (qdisc_attributes qdisc).
Qed.
(** ** Traffic control: comparing the qdiscs of two settings *)

Section tc_compare_facts.
Context {TcVariant : Type} `{!EqDecision TcVariant}.

Lemma qdisc_equal_sym (one two : option (NMTCQdisc TcVariant)) :
  nm_tc_qdisc_equal one two = nm_tc_qdisc_equal two one.
Proof.
  destruct one as [one|], two as [two|]; try done.
  destruct (nm_tc_qdisc_equal (Some one) (Some two)) eqn:H12.
  - symmetry. apply qdisc_equal_iff. apply qdisc_equal_iff in H12.
    destruct H12 as (? & ? & ? & ?). done.
  - destruct (nm_tc_qdisc_equal (Some two) (Some one)) eqn:H21; [|done].
    rewrite <- H12. apply qdisc_equal_iff. apply qdisc_equal_iff in H21.
    destruct H21 as (? & ? & ? & ?). done.
Qed.

Lemma forallb_zip_equal (one : list (option (NMTCQdisc TcVariant))) :
  ∀ two : list (option (NMTCQdisc TcVariant)),
  length one = length two →
  (forallb (λ pair, nm_tc_qdisc_equal pair.1 pair.2) (zip one two) = true
   ↔ ∀ i first second, one !! i = Some first → two !! i = Some second →
                       nm_tc_qdisc_equal first second = true).
Proof.
  induction one as [|x one IH]; intros [|y two] Hlen; try done.
  cbn [zip zip_with forallb fst snd]. rewrite andb_true_iff, IH by (cbn in Hlen; lia).
  split.
  - intros [Hxy Hrest] [|i] first second; cbn; [by intros [= <-] [= <-] | apply Hrest].
  - intros Hall. split; [by apply (Hall 0%nat)|].
    intros i first second. apply (Hall (S i)).
Qed.

(** [compare_fcn_qdiscs] is [TRUE] for two settings exactly when they have
    the same number of qdiscs and the qdiscs at each place are equal; the
    order of the qdiscs counts.  The result is the same with the two
    settings swapped, a setting whose array holds no [NULL] compares equal
    to itself, and every setting compares equal to no setting at all.
    After [nm_setting_tc_config_clear_qdiscs] a setting has no qdiscs and
    compares equal to a new one; clearing notifies [qdiscs] only when there
    was a qdisc. *)
Theorem compare_fcn_qdiscs_is_pointwise (a b : NMSettingTCConfig TcVariant) :
  (compare_fcn_qdiscs a (Some b) = NM_TERNARY_TRUE
   ↔ nm_setting_tc_config_get_num_qdiscs a = nm_setting_tc_config_get_num_qdiscs b
     ∧ ∀ i first second,
         tc_qdiscs a !! i = Some first → tc_qdiscs b !! i = Some second →
         nm_tc_qdisc_equal first second = true)
  ∧ (compare_fcn_qdiscs a (Some b) = NM_TERNARY_TRUE
     ∨ compare_fcn_qdiscs a (Some b) = NM_TERNARY_FALSE)
  ∧ compare_fcn_qdiscs a (Some b) = compare_fcn_qdiscs b (Some a)
  ∧ compare_fcn_qdiscs a None = NM_TERNARY_TRUE
  ∧ ((∀ i, nm_setting_tc_config_get_qdisc a i = None →
           (nm_setting_tc_config_get_num_qdiscs a ≤ i)%nat) →
     compare_fcn_qdiscs a (Some a) = NM_TERNARY_TRUE)
  ∧ tc_qdiscs (nm_setting_tc_config_clear_qdiscs a) = []
  ∧ compare_fcn_qdiscs (nm_setting_tc_config_clear_qdiscs a) (Some nm_setting_tc_config_new)
    = NM_TERNARY_TRUE
  ∧ (tc_qdiscs a = [] → nm_setting_tc_config_clear_qdiscs a = a).
Proof.
  assert (Hspec : ∀ x y : NMSettingTCConfig TcVariant,
            compare_fcn_qdiscs x (Some y) = NM_TERNARY_TRUE
            ↔ length (tc_qdiscs x) = length (tc_qdiscs y)
              ∧ ∀ i first second,
                  tc_qdiscs x !! i = Some first → tc_qdiscs y !! i = Some second →
                  nm_tc_qdisc_equal first second = true).
  { intros x y. unfold compare_fcn_qdiscs.
    destruct (Nat.eqb_spec (length (tc_qdiscs x)) (length (tc_qdiscs y))) as [Hlen|Hlen];
      cbn [negb].
    2: { split; [done | by intros [? _]]. }
    pose proof (forallb_zip_equal (tc_qdiscs x) (tc_qdiscs y) Hlen) as Hzip.
    destruct (forallb _ (zip (tc_qdiscs x) (tc_qdiscs y))).
    - split; [|done]. intros _. split; [done|]. by apply Hzip.
    - split; [done|]. intros [_ Hall]. by apply Hzip in Hall. }
  assert (Htwo : ∀ x y : NMSettingTCConfig TcVariant,
            compare_fcn_qdiscs x (Some y) = NM_TERNARY_TRUE
            ∨ compare_fcn_qdiscs x (Some y) = NM_TERNARY_FALSE).
  { intros x y. unfold compare_fcn_qdiscs. destruct (negb _); [by right|].
    destruct (forallb _ _); [by left | by right]. }
  split; [apply Hspec|]. split; [apply Htwo|]. split; [|split; [done|split; [|split; [|split]]]].
  - assert (Hswap : ∀ x y : NMSettingTCConfig TcVariant,
              compare_fcn_qdiscs x (Some y) = NM_TERNARY_TRUE →
              compare_fcn_qdiscs y (Some x) = NM_TERNARY_TRUE).
    { intros x y [Hlen Hall]%Hspec. apply Hspec. split; [done|].
      intros i first second Hfirst Hsecond. rewrite qdisc_equal_sym. by eapply Hall. }
    destruct (Htwo a b) as [Hab|Hab], (Htwo b a) as [Hba|Hba]; rewrite Hab, Hba; try done.
    + apply Hswap in Hab. congruence.
    + apply Hswap in Hba. congruence.
  - intros Hnull. apply Hspec. split; [done|].
    intros i first second Hfirst Hsecond. assert (first = second) as -> by congruence.
    destruct second as [second|]; [by apply qdisc_equal_iff|].
    specialize (Hnull i). unfold nm_setting_tc_config_get_qdisc in Hnull.
    rewrite Hfirst in Hnull. apply lookup_lt_Some in Hfirst.
    unfold nm_setting_tc_config_get_num_qdiscs in Hnull. specialize (Hnull eq_refl). lia.
  - unfold nm_setting_tc_config_clear_qdiscs.
    destruct (tc_qdiscs a) eqn:Hq; cbn; [done..].
  - apply Hspec. unfold nm_setting_tc_config_clear_qdiscs.
    destruct (tc_qdiscs a) eqn:Hq; cbn; rewrite ?Hq; done.
  - intros Hq. unfold nm_setting_tc_config_clear_qdiscs. by rewrite Hq.
Qed.

End tc_compare_facts.
